(** * ClusterRunner: the build store and the master's orchestration contracts

    A shallow embedding of [app/database/build_store.py] (class [BuildStore])
    together with the parts of the cluster master that the unit tests of
    [test/unit/master/test_cluster_master.py] exercise.

    Python objects become records, [OrderedDict]s become association lists
    that keep insertion order, the SQLAlchemy session becomes an explicit
    value threaded through every operation, and a Python call that may raise
    returns a [result]. *)

From Stdlib Require Import ZArith String List Bool Lia Permutation.
Import ListNotations.
Open Scope string_scope.
Open Scope list_scope.
Open Scope Z_scope.

Set Implicit Arguments.

(** ** Outcomes of a Python call *)

(** The exception classes the modelled code raises or lets through. *)
Inductive exn : Type :=
| ItemNotFoundError
| IncompleteBuild
| KeyError
| ValueError
| RuntimeError (msg : string).

(** A call returns a value, raises, or never returns ([Queue.put] on a full
    queue blocks its caller for ever). *)
Inductive result (A : Type) : Type :=
| Ok (a : A)
| Raise (e : exn)
| Blocks.

Arguments Ok {A} a.
Arguments Raise {A} e.
Arguments Blocks {A}.

Definition bind {A B : Type} (r : result A) (k : A -> result B) : result B :=
  match r with
  | Ok a => k a
  | Raise e => Raise e
  | Blocks => Blocks
  end.

Notation "x <- r ;; k" := (bind r (fun x => k))
  (at level 61, r at next level, right associativity).

(** ** Ordered dictionaries *)

(** [OrderedDict] (and the insertion-ordered builtin [dict]) keyed by
    integers: a list of bindings in insertion order, at most one per key. *)
Module OrderedDict.

Definition t (V : Type) : Type := list (Z * V).

(** [d.get(k)] *)
Fixpoint get {V : Type} (k : Z) (d : t V) : option V :=
  match d with
  | [] => None
  | (k', v) :: d' => if k =? k' then Some v else get k d'
  end.

(** [d[k] = v]: an existing key keeps its position, a new key goes last. *)
Fixpoint set {V : Type} (k : Z) (v : V) (d : t V) : t V :=
  match d with
  | [] => [(k, v)]
  | (k', v') :: d' => if k =? k' then (k, v) :: d' else (k', v') :: set k v d'
  end.

(** [d.setdefault(k, []); d[k].append(x)] *)
Fixpoint setdefault_append {V : Type} (k : Z) (x : V) (d : t (list V)) : t (list V) :=
  match d with
  | [] => [(k, [x])]
  | (k', xs) :: d' =>
      if k =? k' then (k', xs ++ [x]) :: d' else (k', xs) :: setdefault_append k x d'
  end.

Definition keys {V : Type} (d : t V) : list Z := map fst d.
Definition values {V : Type} (d : t V) : list V := map snd d.

End OrderedDict.

(** ** The build lifecycle data model

    The classes [Atom], [Subjob], [BuildArtifact], [BuildFsm] and [Build]
    are declared elsewhere in the repository; each record below has the
    attributes that [build_store.py] reads and writes, under the names it
    uses. *)

(** Times are Python floats that the store only copies from one place to
    another; they are carried as integers (a fixed-point reading). *)
Definition pytime : Type := Z.

Inductive BuildState : Type :=
| QUEUED | PREPARING | PREPARED | BUILDING | FINISHED | CANCELED | ERROR.

Definition BuildState_eqb (a b : BuildState) : bool :=
  match a, b with
  | QUEUED, QUEUED | PREPARING, PREPARING | PREPARED, PREPARED
  | BUILDING, BUILDING | FINISHED, FINISHED | CANCELED, CANCELED
  | ERROR, ERROR => true
  | _, _ => false
  end.

(** [BuildState] is a string-valued enumeration: a member is stored by its
    name. *)
Definition BuildState_name (s : BuildState) : string :=
  match s with
  | QUEUED => "QUEUED" | PREPARING => "PREPARING" | PREPARED => "PREPARED"
  | BUILDING => "BUILDING" | FINISHED => "FINISHED" | CANCELED => "CANCELED"
  | ERROR => "ERROR"
  end.

(** [BuildState[name]]: lookup of a member by name, [KeyError] otherwise. *)
Definition BuildState_of_name (n : string) : result BuildState :=
  if String.eqb n "QUEUED" then Ok QUEUED
  else if String.eqb n "PREPARING" then Ok PREPARING
  else if String.eqb n "PREPARED" then Ok PREPARED
  else if String.eqb n "BUILDING" then Ok BUILDING
  else if String.eqb n "FINISHED" then Ok FINISHED
  else if String.eqb n "CANCELED" then Ok CANCELED
  else if String.eqb n "ERROR" then Ok ERROR
  else Raise KeyError.

Module Atom.
Record t : Type := mk {
  command_string : string;
  expected_time : option pytime;
  actual_time : option pytime;
  exit_code : option Z;
  state : option string;
  id : Z;
  subjob_id : option Z
}.
End Atom.

(** The arguments of [Subjob(build_id, subjob_id, project_type, job_config,
    atoms)] and the [completed] flag.  The project type and the job
    configuration are values of the surrounding system that the store
    passes along unread; they are left out. *)
Module Subjob.
Record t : Type := mk {
  _build_id : option Z;
  _subjob_id : Z;
  _atoms : list Atom.t;
  completed : bool
}.
End Subjob.

Module BuildArtifact.
Record t : Type := mk {
  build_artifact_dir : option string;
  _failed_artifact_directories : list string;
  _failed_subjob_atom_pairs : list (Z * Z);
  (* the attribute _reconstruct_build assigns the restored pairs to *)
  _q_failed_subjob_atom_pairs : list (Z * Z)
}.

(** Modelled from the spec: the constructor [BuildArtifact(build_artifact_dir)],
    which is not part of these sources.  A new artifact record has its base
    directory and no failure recorded. *)
Definition new (dir : option string) : t :=
  mk dir [] [] [].

(** Modelled from the spec: the two readers of [BuildArtifact], which are
    not part of these sources.  The record holds the directories where
    artifact collection failed and the (subjob id, atom id) pairs whose
    result could not be collected; the readers return them. *)
Definition _get_failed_artifact_directories (a : t) : list string :=
  _failed_artifact_directories a.

Definition get_failed_subjob_and_atom_ids (a : t) : list (Z * Z) :=
  _failed_subjob_atom_pairs a.
End BuildArtifact.

(** [queue.Queue]: [maxsize <= 0] means unbounded. *)
Module Queue.
Record t : Type := mk {
  maxsize : Z;
  items : list Subjob.t
}.

Definition new (maxsize : Z) : t := mk maxsize [].

Definition full (q : t) : bool :=
  (0 <? maxsize q) && (maxsize q <=? Z.of_nat (length (items q))).

(** The number of items the queue holds before it is full; [None] for a
    queue that is never full. *)
Definition capacity (q : t) : option Z :=
  if 0 <? maxsize q then Some (maxsize q) else None.

(** [q.put(x)] with the default [block=True]. *)
Definition put (x : Subjob.t) (q : t) : result t :=
  if full q then Blocks else Ok (mk (maxsize q) (items q ++ [x])).
End Queue.

Module BuildFsm.
Record t : Type := mk {
  current : BuildState;
  _transition_timestamps : BuildState -> option pytime
}.
End BuildFsm.

Module Build.
Record t : Type := mk {
  _build_id : option Z;
  build_parameters : list (string * string);
  _state_machine : BuildFsm.t;
  _artifacts_tar_file : option string;
  _artifacts_zip_file : option string;
  _error_message : option string;
  _postbuild_tasks_are_finished : bool;
  setup_failures : Z;
  _timing_file_path : option string;
  _build_artifact : option BuildArtifact.t;
  _all_subjobs_by_id : OrderedDict.t Subjob.t;
  _unstarted_subjobs : option Queue.t;
  _finished_subjobs : option Queue.t;
  _preparation_coin_spent : bool
}.

(** Modelled from the spec: [build.build_id()], which is not part of these
    sources: the identifier the store assigned, if any. *)
Definition build_id (b : t) : option Z := _build_id b.

(** Modelled from the spec: [build._status()], which is not part of these
    sources: the current state of the build's state machine. *)
Definition _status (b : t) : BuildState := BuildFsm.current (_state_machine b).
End Build.

(** Modelled from the spec: the constructor [Build(build_request)], which
    is not part of these sources.  A new build has no id (only the store
    assigns one), starts in [QUEUED] with no subjobs, artifact record or
    error message, and holds an unspent preparation coin. *)
Definition new_Build (build_parameters : list (string * string)) : Build.t :=
  {| Build._build_id := None;
     Build.build_parameters := build_parameters;
     Build._state_machine := BuildFsm.mk QUEUED (fun _ => None);
     Build._artifacts_tar_file := None;
     Build._artifacts_zip_file := None;
     Build._error_message := None;
     Build._postbuild_tasks_are_finished := false;
     Build.setup_failures := 0;
     Build._timing_file_path := None;
     Build._build_artifact := None;
     Build._all_subjobs_by_id := [];
     Build._unstarted_subjobs := None;
     Build._finished_subjobs := None;
     Build._preparation_coin_spent := false |}.

(** ** The persisted schema

    The schema classes are declared in [app.database.schema]; the columns
    are those [build_store.py] fills and reads, which are the columns the
    spec lists. *)

Module BuildSchema.
Record t : Type := mk {
  build_id : Z;
  completed : bool;
  artifacts_tar_file : option string;
  artifacts_zip_file : option string;
  error_message : option string;
  postbuild_tasks_are_finished : bool;
  setup_failures : Z;
  timing_file_path : option string;
  build_artifact_dir : option string;
  (* the JSON text, represented by the mapping it encodes *)
  build_parameters : list (string * string);
  state : string;
  queued_ts : option pytime;
  finished_ts : option pytime;
  prepared_ts : option pytime;
  preparing_ts : option pytime;
  error_ts : option pytime;
  canceled_ts : option pytime;
  building_ts : option pytime
}.
End BuildSchema.

Module FailedArtifactDirectoriesSchema.
Record t : Type := mk {
  build_id : Z;
  failed_artifact_directory : string
}.
End FailedArtifactDirectoriesSchema.

Module FailedSubjobAtomPairsSchema.
Record t : Type := mk {
  build_id : Z;
  subjob_id : Z;
  atom_id : Z
}.
End FailedSubjobAtomPairsSchema.

Module SubjobsSchema.
Record t : Type := mk {
  subjob_id : Z;
  build_id : Z;
  completed : bool
}.
End SubjobsSchema.

Module AtomsSchema.
Record t : Type := mk {
  atom_id : Z;
  build_id : Z;
  subjob_id : Z;
  command_string : string;
  expected_time : option pytime;
  actual_time : option pytime;
  exit_code : option Z;
  state : option string
}.
End AtomsSchema.

(** The five tables, each with its rows in insertion order. *)
Record Database : Type := mkDatabase {
  builds : list BuildSchema.t;
  failed_artifact_directories : list FailedArtifactDirectoriesSchema.t;
  failed_subjob_atom_pairs : list FailedSubjobAtomPairsSchema.t;
  subjobs : list SubjobsSchema.t;
  atoms : list AtomsSchema.t
}.

Definition empty_database : Database := mkDatabase [] [] [] [] [].

Inductive table : Type :=
| TBuild | TFailedArtifactDirectories | TFailedSubjobAtomPairs | TSubjobs | TAtoms.

(** What the session sent to the database, in order. *)
Inductive op : Type :=
| Insert (t : table) (build_id : Z)
| Delete (t : table) (build_id : Z)
| Commit.

(** ** The SQLAlchemy session

    [committed] is what the database holds durably, [view] is what the
    open transaction sees (queries flush what is pending before they run),
    and [log] records every insert, bulk delete and commit. *)
Module Session.
Record t : Type := mk {
  committed : Database;
  view : Database;
  log : list op
}.

Definition commit (s : t) : t :=
  mk (view s) (view s) (log s ++ [Commit]).

(** The key the database generates for the next build row: one more than
    the largest key in the table. *)
Definition generated_key (s : t) : Z :=
  1 + fold_right Z.max 0 (map BuildSchema.build_id (builds (view s))).

Definition add_build (r : BuildSchema.t) (s : t) : t :=
  let v := view s in
  mk (committed s)
     (mkDatabase (builds v ++ [r]) (failed_artifact_directories v)
        (failed_subjob_atom_pairs v) (subjobs v) (atoms v))
     (log s ++ [Insert TBuild (BuildSchema.build_id r)]).

Definition add_failed_artifact_directory
  (r : FailedArtifactDirectoriesSchema.t) (s : t) : t :=
  let v := view s in
  mk (committed s)
     (mkDatabase (builds v) (failed_artifact_directories v ++ [r])
        (failed_subjob_atom_pairs v) (subjobs v) (atoms v))
     (log s ++ [Insert TFailedArtifactDirectories
                  (FailedArtifactDirectoriesSchema.build_id r)]).

Definition add_failed_subjob_atom_pair
  (r : FailedSubjobAtomPairsSchema.t) (s : t) : t :=
  let v := view s in
  mk (committed s)
     (mkDatabase (builds v) (failed_artifact_directories v)
        (failed_subjob_atom_pairs v ++ [r]) (subjobs v) (atoms v))
     (log s ++ [Insert TFailedSubjobAtomPairs
                  (FailedSubjobAtomPairsSchema.build_id r)]).

Definition add_subjob (r : SubjobsSchema.t) (s : t) : t :=
  let v := view s in
  mk (committed s)
     (mkDatabase (builds v) (failed_artifact_directories v)
        (failed_subjob_atom_pairs v) (subjobs v ++ [r]) (atoms v))
     (log s ++ [Insert TSubjobs (SubjobsSchema.build_id r)]).

Definition add_atom (r : AtomsSchema.t) (s : t) : t :=
  let v := view s in
  mk (committed s)
     (mkDatabase (builds v) (failed_artifact_directories v)
        (failed_subjob_atom_pairs v) (subjobs v) (atoms v ++ [r]))
     (log s ++ [Insert TAtoms (AtomsSchema.build_id r)]).

(** [query(Schema).filter(Schema.build_id == build_id).delete()] *)
Definition delete_failed_artifact_directories (build_id : Z) (s : t) : t :=
  let v := view s in
  mk (committed s)
     (mkDatabase (builds v)
        (filter (fun r => negb (FailedArtifactDirectoriesSchema.build_id r =? build_id))
           (failed_artifact_directories v))
        (failed_subjob_atom_pairs v) (subjobs v) (atoms v))
     (log s ++ [Delete TFailedArtifactDirectories build_id]).

Definition delete_failed_subjob_atom_pairs (build_id : Z) (s : t) : t :=
  let v := view s in
  mk (committed s)
     (mkDatabase (builds v) (failed_artifact_directories v)
        (filter (fun r => negb (FailedSubjobAtomPairsSchema.build_id r =? build_id))
           (failed_subjob_atom_pairs v))
        (subjobs v) (atoms v))
     (log s ++ [Delete TFailedSubjobAtomPairs build_id]).

Definition delete_subjobs (build_id : Z) (s : t) : t :=
  let v := view s in
  mk (committed s)
     (mkDatabase (builds v) (failed_artifact_directories v)
        (failed_subjob_atom_pairs v)
        (filter (fun r => negb (SubjobsSchema.build_id r =? build_id)) (subjobs v))
        (atoms v))
     (log s ++ [Delete TSubjobs build_id]).

Definition delete_atoms (build_id : Z) (s : t) : t :=
  let v := view s in
  mk (committed s)
     (mkDatabase (builds v) (failed_artifact_directories v)
        (failed_subjob_atom_pairs v) (subjobs v)
        (filter (fun r => negb (AtomsSchema.build_id r =? build_id)) (atoms v)))
     (log s ++ [Delete TAtoms build_id]).

(** Attribute assignments on the row object [query(BuildSchema)...first()]
    returned: the first row with that id takes the new field values. *)
Fixpoint update_first (build_id : Z) (f : BuildSchema.t -> BuildSchema.t)
  (rows : list BuildSchema.t) : list BuildSchema.t :=
  match rows with
  | [] => []
  | r :: rows' =>
      if BuildSchema.build_id r =? build_id then f r :: rows'
      else r :: update_first build_id f rows'
  end.

Definition assign_build (build_id : Z) (f : BuildSchema.t -> BuildSchema.t) (s : t) : t :=
  let v := view s in
  mk (committed s)
     (mkDatabase (update_first build_id f (builds v)) (failed_artifact_directories v)
        (failed_subjob_atom_pairs v) (subjobs v) (atoms v))
     (log s).

(** A session opened on the same database by a new process: what was not
    committed is gone. *)
Definition reopen (s : t) : t := mk (committed s) (committed s) [].

Definition fresh : t := mk empty_database empty_database [].
End Session.

(** ** Loops *)

(** A [for] loop whose body may raise. *)
Fixpoint foldM {A B : Type} (f : B -> A -> result B) (l : list A) (acc : B) : result B :=
  match l with
  | [] => Ok acc
  | x :: l' => acc' <- f acc x ;; foldM f l' acc'
  end.

(** [range(lo, hi)] *)
Definition py_range (lo hi : Z) : list Z :=
  map (fun i => lo + Z.of_nat i) (seq 0 (Z.to_nat (hi - lo))).

(** ** BuildStore *)

Module BuildStore.

Record t : Type := mk {
  _cached_builds_by_id : OrderedDict.t Build.t;
  _session : Session.t
}.

(** [BuildStore()] on a session. *)
Definition new (s : Session.t) : t := mk [] s.

(** [_get_query_build_object]: the build row ([first()]) and the child rows
    ([all()]) of a build id, as the open transaction sees them. *)
Definition _get_query_build_object (build_id : Z) (s : Session.t)
  : option BuildSchema.t
    * list FailedArtifactDirectoriesSchema.t
    * list FailedSubjobAtomPairsSchema.t
    * list SubjobsSchema.t
    * list AtomsSchema.t :=
  let v := Session.view s in
  let q_build := find (fun r => BuildSchema.build_id r =? build_id) (builds v) in
  let q_failed_artifact_directories :=
    filter (fun r => FailedArtifactDirectoriesSchema.build_id r =? build_id)
      (failed_artifact_directories v) in
  let q_failed_subjob_atom_pairs :=
    filter (fun r => FailedSubjobAtomPairsSchema.build_id r =? build_id)
      (failed_subjob_atom_pairs v) in
  let q_build_atoms := filter (fun r => AtomsSchema.build_id r =? build_id) (atoms v) in
  let q_build_subjobs := filter (fun r => SubjobsSchema.build_id r =? build_id) (subjobs v) in
  (q_build, q_failed_artifact_directories, q_failed_subjob_atom_pairs,
   q_build_subjobs, q_build_atoms).

(** The three insertion loops that [_store_build] and [_update_build] both
    contain, line for line. *)
Definition add_failed_artifact_directories (build_id : Z) (build : Build.t)
  (s : Session.t) : Session.t :=
  match Build._build_artifact build with
  | Some artifact =>
      fold_left
        (fun s directory =>
           Session.add_failed_artifact_directory
             (FailedArtifactDirectoriesSchema.mk build_id directory) s)
        (BuildArtifact._get_failed_artifact_directories artifact) s
  | None => s
  end.

Definition add_failed_subjob_atom_pairs (build_id : Z) (build : Build.t)
  (s : Session.t) : Session.t :=
  match Build._build_artifact build with
  | Some artifact =>
      fold_left
        (fun s '(subjob_id, atom_id) =>
           Session.add_failed_subjob_atom_pair
             (FailedSubjobAtomPairsSchema.mk build_id subjob_id atom_id) s)
        (BuildArtifact.get_failed_subjob_and_atom_ids artifact) s
  | None => s
  end.

Definition atom_row (build_id subjob_id : Z) (atom : Atom.t) : AtomsSchema.t :=
  {| AtomsSchema.atom_id := Atom.id atom;
     AtomsSchema.build_id := build_id;
     AtomsSchema.subjob_id := subjob_id;
     AtomsSchema.command_string := Atom.command_string atom;
     AtomsSchema.expected_time := Atom.expected_time atom;
     AtomsSchema.actual_time := Atom.actual_time atom;
     AtomsSchema.exit_code := Atom.exit_code atom;
     AtomsSchema.state := Atom.state atom |}.

Definition add_subjobs_and_atoms (build_id : Z) (build : Build.t)
  (s : Session.t) : Session.t :=
  fold_left
    (fun s '(subjob_id, subjob) =>
       let s := Session.add_subjob
                  (SubjobsSchema.mk subjob_id build_id (Subjob.completed subjob)) s in
       fold_left (fun s atom => Session.add_atom (atom_row build_id subjob_id atom) s)
         (Subjob._atoms subjob) s)
    (Build._all_subjobs_by_id build) s.

Definition build_artifact_dir_of (build : Build.t) : option string :=
  match Build._build_artifact build with
  | Some artifact => BuildArtifact.build_artifact_dir artifact
  | None => None
  end.

(** [_store_build]: insert the build row, commit to learn the generated id,
    insert every child row under that id, commit, return the id. *)
Definition _store_build (build : Build.t) (s : Session.t) : Z * Session.t :=
  let fsm_timestamps := BuildFsm._transition_timestamps (Build._state_machine build) in
  let build_artifact_dir := build_artifact_dir_of build in
  let build_id := Session.generated_key s in
  let build_schema :=
    {| BuildSchema.build_id := build_id;
       BuildSchema.completed := BuildState_eqb (Build._status build) FINISHED;
       BuildSchema.artifacts_tar_file := Build._artifacts_tar_file build;
       BuildSchema.artifacts_zip_file := Build._artifacts_zip_file build;
       BuildSchema.error_message := Build._error_message build;
       BuildSchema.postbuild_tasks_are_finished := Build._postbuild_tasks_are_finished build;
       BuildSchema.setup_failures := Build.setup_failures build;
       BuildSchema.timing_file_path := Build._timing_file_path build;
       BuildSchema.build_artifact_dir := build_artifact_dir;
       BuildSchema.build_parameters := Build.build_parameters build;
       BuildSchema.state := BuildState_name (Build._status build);
       BuildSchema.queued_ts := fsm_timestamps QUEUED;
       BuildSchema.finished_ts := fsm_timestamps FINISHED;
       BuildSchema.prepared_ts := fsm_timestamps PREPARED;
       BuildSchema.preparing_ts := fsm_timestamps PREPARING;
       BuildSchema.error_ts := fsm_timestamps ERROR;
       BuildSchema.canceled_ts := fsm_timestamps CANCELED;
       BuildSchema.building_ts := fsm_timestamps BUILDING |} in
  let s := Session.add_build build_schema s in
  let s := Session.commit s in
  let s := add_failed_artifact_directories build_id build s in
  let s := add_failed_subjob_atom_pairs build_id build s in
  let s := add_subjobs_and_atoms build_id build s in
  let s := Session.commit s in
  (build_id, s).

(** The two groups of assignments [_update_build] makes on the build row. *)
Definition assign_scalars (build : Build.t) (q : BuildSchema.t) : BuildSchema.t :=
  {| BuildSchema.build_id := BuildSchema.build_id q;
     BuildSchema.completed := BuildState_eqb (Build._status build) FINISHED;
     BuildSchema.artifacts_tar_file := Build._artifacts_tar_file build;
     BuildSchema.artifacts_zip_file := Build._artifacts_zip_file build;
     BuildSchema.error_message := Build._error_message build;
     BuildSchema.postbuild_tasks_are_finished := Build._postbuild_tasks_are_finished build;
     BuildSchema.setup_failures := Build.setup_failures build;
     BuildSchema.timing_file_path := Build._timing_file_path build;
     BuildSchema.build_artifact_dir := build_artifact_dir_of build;
     BuildSchema.build_parameters := BuildSchema.build_parameters q;
     BuildSchema.state := BuildSchema.state q;
     BuildSchema.queued_ts := BuildSchema.queued_ts q;
     BuildSchema.finished_ts := BuildSchema.finished_ts q;
     BuildSchema.prepared_ts := BuildSchema.prepared_ts q;
     BuildSchema.preparing_ts := BuildSchema.preparing_ts q;
     BuildSchema.error_ts := BuildSchema.error_ts q;
     BuildSchema.canceled_ts := BuildSchema.canceled_ts q;
     BuildSchema.building_ts := BuildSchema.building_ts q |}.

Definition assign_fsm (build : Build.t) (q : BuildSchema.t) : BuildSchema.t :=
  let fsm_timestamps := BuildFsm._transition_timestamps (Build._state_machine build) in
  {| BuildSchema.build_id := BuildSchema.build_id q;
     BuildSchema.completed := BuildSchema.completed q;
     BuildSchema.artifacts_tar_file := BuildSchema.artifacts_tar_file q;
     BuildSchema.artifacts_zip_file := BuildSchema.artifacts_zip_file q;
     BuildSchema.error_message := BuildSchema.error_message q;
     BuildSchema.postbuild_tasks_are_finished := BuildSchema.postbuild_tasks_are_finished q;
     BuildSchema.setup_failures := BuildSchema.setup_failures q;
     BuildSchema.timing_file_path := BuildSchema.timing_file_path q;
     BuildSchema.build_artifact_dir := BuildSchema.build_artifact_dir q;
     BuildSchema.build_parameters := Build.build_parameters build;
     BuildSchema.state := BuildState_name (Build._status build);
     BuildSchema.queued_ts := fsm_timestamps QUEUED;
     BuildSchema.finished_ts := fsm_timestamps FINISHED;
     BuildSchema.prepared_ts := fsm_timestamps PREPARED;
     BuildSchema.preparing_ts := fsm_timestamps PREPARING;
     BuildSchema.error_ts := fsm_timestamps ERROR;
     BuildSchema.canceled_ts := fsm_timestamps CANCELED;
     BuildSchema.building_ts := fsm_timestamps BUILDING |}.

(** [_update_build].  A build that was never added has [build_id() = None],
    and the filter [build_id == None] matches no row. *)
Definition _update_build (build : Build.t) (s : Session.t) : result unit * Session.t :=
  match Build.build_id build with
  | None => (Raise ItemNotFoundError, s)
  | Some build_id =>
      let '(q_build, _, _, _, _) := _get_query_build_object build_id s in
      match q_build with
      | None => (Raise ItemNotFoundError, s)
      | Some _ =>
          let s := Session.assign_build build_id (assign_scalars build) s in
          let s :=
            match Build._build_artifact build with
            | Some _ =>
                let s := Session.delete_failed_artifact_directories build_id s in
                let s := Session.commit s in
                add_failed_artifact_directories build_id build s
            | None => s
            end in
          let s :=
            match Build._build_artifact build with
            | Some _ =>
                let s := Session.delete_failed_subjob_atom_pairs build_id s in
                let s := Session.commit s in
                add_failed_subjob_atom_pairs build_id build s
            | None => s
            end in
          let s := Session.assign_build build_id (assign_fsm build) s in
          let s := Session.delete_subjobs build_id s in
          let s := Session.delete_atoms build_id s in
          let s := Session.commit s in
          let s := add_subjobs_and_atoms build_id build s in
          (Ok tt, s)
      end
  end.

Definition atom_of_row (atom : AtomsSchema.t) : Atom.t :=
  Atom.mk (AtomsSchema.command_string atom) (AtomsSchema.expected_time atom)
    (AtomsSchema.actual_time atom) (AtomsSchema.exit_code atom)
    (AtomsSchema.state atom) (AtomsSchema.atom_id atom)
    (Some (AtomsSchema.subjob_id atom)).

(** The loop that fills the two queues of a reconstructed build. *)
Definition place_subjobs (subjobs : OrderedDict.t Subjob.t)
  : result (Queue.t * Queue.t) :=
  let n := Z.of_nat (length subjobs) in
  foldM
    (fun '(unstarted, finished) '(_, subjob) =>
       if Subjob.completed subjob
       then (finished' <- Queue.put subjob finished ;; Ok (unstarted, finished'))
       else (unstarted' <- Queue.put subjob unstarted ;; Ok (unstarted', finished)))
    subjobs (Queue.new n, Queue.new n).

(** [_reconstruct_build].  [generate_project_type] and [job_config] belong
    to the surrounding system and touch none of the fields kept here. *)
Definition _reconstruct_build (build_id : Z) (allow_incompleted_builds : bool)
  (s : Session.t) : result (option Build.t) :=
  let '(q_build, q_failed_artifact_directories, q_failed_subjob_atom_pairs,
        q_build_subjobs, q_build_atoms) := _get_query_build_object build_id s in
  match q_build with
  | None => Ok None
  | Some q_build =>
      if negb allow_incompleted_builds && negb (BuildSchema.completed q_build)
      then Raise IncompleteBuild
      else
        let build_parameters := BuildSchema.build_parameters q_build in
        let build := new_Build build_parameters in
        let timestamps := fun st =>
          match st with
          | QUEUED => BuildSchema.queued_ts q_build
          | FINISHED => BuildSchema.finished_ts q_build
          | PREPARED => BuildSchema.prepared_ts q_build
          | PREPARING => BuildSchema.preparing_ts q_build
          | ERROR => BuildSchema.error_ts q_build
          | CANCELED => BuildSchema.canceled_ts q_build
          | BUILDING => BuildSchema.building_ts q_build
          end in
        current <- BuildState_of_name (BuildSchema.state q_build) ;;
        let directories :=
          map FailedArtifactDirectoriesSchema.failed_artifact_directory
            q_failed_artifact_directories in
        let pairs :=
          map (fun pair => (FailedSubjobAtomPairsSchema.subjob_id pair,
                            FailedSubjobAtomPairsSchema.atom_id pair))
            q_failed_subjob_atom_pairs in
        let build_artifact :=
          {| BuildArtifact.build_artifact_dir := BuildSchema.build_artifact_dir q_build;
             BuildArtifact._failed_artifact_directories := directories;
             BuildArtifact._failed_subjob_atom_pairs :=
               BuildArtifact._failed_subjob_atom_pairs
                 (BuildArtifact.new (BuildSchema.build_artifact_dir q_build));
             BuildArtifact._q_failed_subjob_atom_pairs := pairs |} in
        let atoms_by_subjob_id :=
          fold_left
            (fun d atom =>
               OrderedDict.setdefault_append (AtomsSchema.subjob_id atom)
                 (atom_of_row atom) d)
            q_build_atoms [] in
        subjobs <-
          foldM
            (fun subjobs subjob =>
               match OrderedDict.get (SubjobsSchema.subjob_id subjob) atoms_by_subjob_id with
               | None => Raise KeyError
               | Some atoms =>
                   let subjob_to_add :=
                     {| Subjob._build_id := Some build_id;
                        Subjob._subjob_id := SubjobsSchema.subjob_id subjob;
                        Subjob._atoms := atoms;
                        Subjob.completed := SubjobsSchema.completed subjob |} in
                   Ok (OrderedDict.set (SubjobsSchema.subjob_id subjob) subjob_to_add subjobs)
               end)
            q_build_subjobs [] ;;
        queues <- place_subjobs subjobs ;;
        Ok (Some
          {| Build._build_id := Some build_id;
             Build.build_parameters := build_parameters;
             Build._state_machine := BuildFsm.mk current timestamps;
             Build._artifacts_tar_file := BuildSchema.artifacts_tar_file q_build;
             Build._artifacts_zip_file := BuildSchema.artifacts_zip_file q_build;
             Build._error_message := BuildSchema.error_message q_build;
             Build._postbuild_tasks_are_finished :=
               BuildSchema.postbuild_tasks_are_finished q_build;
             Build.setup_failures := BuildSchema.setup_failures q_build;
             Build._timing_file_path := BuildSchema.timing_file_path q_build;
             Build._build_artifact := Some build_artifact;
             Build._all_subjobs_by_id := subjobs;
             Build._unstarted_subjobs := Some (fst queues);
             Build._finished_subjobs := Some (snd queues);
             Build._preparation_coin_spent :=
               if BuildSchema.completed q_build then true
               else Build._preparation_coin_spent build |})
  end.

(** [get]: the cache first, the database on a miss; what the database
    yields is cached. *)
Definition get (build_id : Z) (allow_incompleted_builds : bool) (st : t)
  : result (option Build.t) * t :=
  match OrderedDict.get build_id (_cached_builds_by_id st) with
  | Some build => (Ok (Some build), st)
  | None =>
      match _reconstruct_build build_id allow_incompleted_builds (_session st) with
      | Ok (Some build) =>
          (Ok (Some build),
           mk (OrderedDict.set build_id build (_cached_builds_by_id st)) (_session st))
      | r => (r, st)
      end
  end.

(** The loop of [get_range]: [IncompleteBuild] is swallowed, anything else
    leaves the loop. *)
Fixpoint get_range_loop (ids : list Z) (allow_incompleted_builds : bool)
  (builds : list (option Build.t)) (st : t) : result (list (option Build.t)) * t :=
  match ids with
  | [] => (Ok builds, st)
  | build_id :: ids' =>
      match get build_id allow_incompleted_builds st with
      | (Ok build, st') =>
          get_range_loop ids' allow_incompleted_builds (builds ++ [build]) st'
      | (Raise IncompleteBuild, st') =>
          get_range_loop ids' allow_incompleted_builds builds st'
      | (Raise e, st') => (Raise e, st')
      | (Blocks, st') => (Blocks, st')
      end
  end.

Definition get_range (start end_ : Z) (allow_incompleted_builds : bool) (st : t)
  : result (list (option Build.t)) * t :=
  get_range_loop (py_range (start + 1) (end_ + 1)) allow_incompleted_builds [] st.

Definition with_build_id (build : Build.t) (build_id : Z) : Build.t :=
  {| Build._build_id := Some build_id;
     Build.build_parameters := Build.build_parameters build;
     Build._state_machine := Build._state_machine build;
     Build._artifacts_tar_file := Build._artifacts_tar_file build;
     Build._artifacts_zip_file := Build._artifacts_zip_file build;
     Build._error_message := Build._error_message build;
     Build._postbuild_tasks_are_finished := Build._postbuild_tasks_are_finished build;
     Build.setup_failures := Build.setup_failures build;
     Build._timing_file_path := Build._timing_file_path build;
     Build._build_artifact := Build._build_artifact build;
     Build._all_subjobs_by_id := Build._all_subjobs_by_id build;
     Build._unstarted_subjobs := Build._unstarted_subjobs build;
     Build._finished_subjobs := Build._finished_subjobs build;
     Build._preparation_coin_spent := Build._preparation_coin_spent build |}.

(** [add]: returns the build as it is after the call (its id assigned)
    next to the store. *)
Definition add (build : Build.t) (st : t) : Build.t * t :=
  let '(build_id, s) := _store_build build (_session st) in
  let build := with_build_id build build_id in
  (build, mk (OrderedDict.set build_id build (_cached_builds_by_id st)) s).

Definition save (build : Build.t) (st : t) : result unit * t :=
  let '(r, s) := _update_build build (_session st) in
  (r, mk (_cached_builds_by_id st) s).

Fixpoint clean_up_loop (builds : list (Z * Build.t)) (s : Session.t)
  : result unit * Session.t :=
  match builds with
  | [] => (Ok tt, s)
  | (_, build) :: builds' =>
      match _update_build build s with
      | (Ok _, s') => clean_up_loop builds' s'
      | (r, s') => (r, s')
      end
  end.

Definition clean_up (st : t) : result unit * t :=
  match clean_up_loop (_cached_builds_by_id st) (_session st) with
  | (Ok _, s) => (Ok tt, mk (_cached_builds_by_id st) (Session.commit s))
  | (r, s) => (r, mk (_cached_builds_by_id st) s)
  end.

Definition count_all_builds (st : t) : Z :=
  Z.of_nat (length (builds (Session.view (_session st)))).

Definition count_cached_builds (st : t) : Z :=
  Z.of_nat (length (_cached_builds_by_id st)).

(** The store a new process opens on the same database: an empty cache and
    a session that sees what was committed. *)
Definition restart (st : t) : t := new (Session.reopen (_session st)).

End BuildStore.

(** ** A build as rows

    The child rows that stand for the in-memory state of a build under a
    given id, and the inserts that write them. *)

Definition failed_directory_rows (build_id : Z) (build : Build.t)
  : list FailedArtifactDirectoriesSchema.t :=
  match Build._build_artifact build with
  | Some artifact =>
      map (FailedArtifactDirectoriesSchema.mk build_id)
        (BuildArtifact._get_failed_artifact_directories artifact)
  | None => []
  end.

Definition failed_pair_rows (build_id : Z) (build : Build.t)
  : list FailedSubjobAtomPairsSchema.t :=
  match Build._build_artifact build with
  | Some artifact =>
      map (fun '(subjob_id, atom_id) =>
             FailedSubjobAtomPairsSchema.mk build_id subjob_id atom_id)
        (BuildArtifact.get_failed_subjob_and_atom_ids artifact)
  | None => []
  end.

Definition subjob_rows (build_id : Z) (build : Build.t) : list SubjobsSchema.t :=
  map (fun '(subjob_id, subjob) =>
         SubjobsSchema.mk subjob_id build_id (Subjob.completed subjob))
    (Build._all_subjobs_by_id build).

Definition atom_rows (build_id : Z) (build : Build.t) : list AtomsSchema.t :=
  flat_map (fun '(subjob_id, subjob) =>
              map (BuildStore.atom_row build_id subjob_id) (Subjob._atoms subjob))
    (Build._all_subjobs_by_id build).

Definition subjob_and_atom_inserts (build_id : Z) (build : Build.t) : list op :=
  flat_map (fun '(_, subjob) =>
              Insert TSubjobs build_id
              :: map (fun _ => Insert TAtoms build_id) (Subjob._atoms subjob))
    (Build._all_subjobs_by_id build).

(** What [_update_build] sends to the database for a build that has a row:
    per child collection a delete, a commit, and then the inserts. *)
Definition update_ops (build_id : Z) (build : Build.t) : list op :=
  match Build._build_artifact build with
  | Some _ =>
      [Delete TFailedArtifactDirectories build_id; Commit]
      ++ map (fun _ => Insert TFailedArtifactDirectories build_id)
           (failed_directory_rows build_id build)
      ++ [Delete TFailedSubjobAtomPairs build_id; Commit]
      ++ map (fun _ => Insert TFailedSubjobAtomPairs build_id)
           (failed_pair_rows build_id build)
  | None => []
  end
  ++ [Delete TSubjobs build_id; Delete TAtoms build_id; Commit]
  ++ subjob_and_atom_inserts build_id build.

(** Distinct keys, and every subjob filed under its own id. *)
Definition well_keyed (d : OrderedDict.t Subjob.t) : Prop :=
  NoDup (OrderedDict.keys d) /\
  forall k sj, In (k, sj) d -> Subjob._subjob_id sj = k.

(** The atom as a subjob with id [subjob_id] owns it. *)
Definition adopt (subjob_id : Z) (atom : Atom.t) : Atom.t :=
  Atom.mk (Atom.command_string atom) (Atom.expected_time atom)
    (Atom.actual_time atom) (Atom.exit_code atom) (Atom.state atom)
    (Atom.id atom) (Some subjob_id).

(** The build row that stands for a build under a given id. *)
Definition build_row (build_id : Z) (build : Build.t) : BuildSchema.t :=
  BuildStore.assign_fsm build
    (BuildStore.assign_scalars build
       {| BuildSchema.build_id := build_id;
          BuildSchema.completed := false;
          BuildSchema.artifacts_tar_file := None;
          BuildSchema.artifacts_zip_file := None;
          BuildSchema.error_message := None;
          BuildSchema.postbuild_tasks_are_finished := false;
          BuildSchema.setup_failures := 0;
          BuildSchema.timing_file_path := None;
          BuildSchema.build_artifact_dir := None;
          BuildSchema.build_parameters := [];
          BuildSchema.state := "";
          BuildSchema.queued_ts := None;
          BuildSchema.finished_ts := None;
          BuildSchema.prepared_ts := None;
          BuildSchema.preparing_ts := None;
          BuildSchema.error_ts := None;
          BuildSchema.canceled_ts := None;
          BuildSchema.building_ts := None |}).

(** The subjob mapping a build has after a trip through the database
    under a given id: every subjob carries the build id and its key, and
    owns its atoms. *)
Definition restored_subjobs (build_id : Z) (d : OrderedDict.t Subjob.t)
  : OrderedDict.t Subjob.t :=
  map (fun '(subjob_id, subjob) =>
         (subjob_id,
          {| Subjob._build_id := Some build_id;
             Subjob._subjob_id := subjob_id;
             Subjob._atoms := map (adopt subjob_id) (Subjob._atoms subjob);
             Subjob.completed := Subjob.completed subjob |}))
    d.

(** Every child row belongs to a build row. *)
Definition referential_integrity (db : Database) : Prop :=
  (forall r, In r (failed_artifact_directories db) ->
     exists q, In q (builds db) /\
               BuildSchema.build_id q = FailedArtifactDirectoriesSchema.build_id r) /\
  (forall r, In r (failed_subjob_atom_pairs db) ->
     exists q, In q (builds db) /\
               BuildSchema.build_id q = FailedSubjobAtomPairsSchema.build_id r) /\
  (forall r, In r (subjobs db) ->
     exists q, In q (builds db) /\ BuildSchema.build_id q = SubjobsSchema.build_id r) /\
  (forall r, In r (atoms db) ->
     exists q, In q (builds db) /\ BuildSchema.build_id q = AtomsSchema.build_id r).

(** The id has a build row in the database. *)
Definition has_row (build_id : Z) (db : Database) : Prop :=
  exists q, find (fun r => BuildSchema.build_id r =? build_id) (builds db) = Some q.

(** The database holds the state of [build] under the id: its build row,
    and exactly its subjobs and atoms as child rows. *)
Definition stored (build_id : Z) (build : Build.t) (db : Database) : Prop :=
  find (fun r => BuildSchema.build_id r =? build_id) (builds db)
    = Some (build_row build_id build) /\
  filter (fun r => SubjobsSchema.build_id r =? build_id) (subjobs db)
    = subjob_rows build_id build /\
  filter (fun r => AtomsSchema.build_id r =? build_id) (atoms db)
    = atom_rows build_id build.

(** [loaded] has the persisted state of [build]: the id, the request
    parameters, the scalar fields, the state and its timestamps, and the
    subjobs with their atoms. *)
Definition restores (build_id : Z) (build loaded : Build.t) : Prop :=
  Build._build_id loaded = Some build_id /\
  Build.build_parameters loaded = Build.build_parameters build /\
  Build._artifacts_tar_file loaded = Build._artifacts_tar_file build /\
  Build._artifacts_zip_file loaded = Build._artifacts_zip_file build /\
  Build._error_message loaded = Build._error_message build /\
  Build._postbuild_tasks_are_finished loaded = Build._postbuild_tasks_are_finished build /\
  Build.setup_failures loaded = Build.setup_failures build /\
  Build._timing_file_path loaded = Build._timing_file_path build /\
  Build._status loaded = Build._status build /\
  (forall state,
     BuildFsm._transition_timestamps (Build._state_machine loaded) state
     = BuildFsm._transition_timestamps (Build._state_machine build) state) /\
  Build._all_subjobs_by_id loaded
  = restored_subjobs build_id (Build._all_subjobs_by_id build).

(** A build the database can give back: distinct subjob keys, and no
    subjob without atoms. *)
Definition loadable (build : Build.t) : Prop :=
  NoDup (OrderedDict.keys (Build._all_subjobs_by_id build)) /\
  forall k sj, In (k, sj) (Build._all_subjobs_by_id build) -> Subjob._atoms sj <> [].

(** Every cached build carries the id it is cached under, and that id has
    a build row. *)
Definition cache_has_rows (cache : OrderedDict.t Build.t) (db : Database) : Prop :=
  forall k build, In (k, build) cache ->
    Build.build_id build = Some k /\ has_row k db.

(** The build with its subjob mapping emptied. *)
Definition without_subjobs (build : Build.t) : Build.t :=
  {| Build._build_id := Build._build_id build;
     Build.build_parameters := Build.build_parameters build;
     Build._state_machine := Build._state_machine build;
     Build._artifacts_tar_file := Build._artifacts_tar_file build;
     Build._artifacts_zip_file := Build._artifacts_zip_file build;
     Build._error_message := Build._error_message build;
     Build._postbuild_tasks_are_finished := Build._postbuild_tasks_are_finished build;
     Build.setup_failures := Build.setup_failures build;
     Build._timing_file_path := Build._timing_file_path build;
     Build._build_artifact := Build._build_artifact build;
     Build._all_subjobs_by_id := [];
     Build._unstarted_subjobs := Build._unstarted_subjobs build;
     Build._finished_subjobs := Build._finished_subjobs build;
     Build._preparation_coin_spent := Build._preparation_coin_spent build |}.

(** The build carries an id, and that id has a build row. *)
Definition has_own_row (build : Build.t) (db : Database) : Prop :=
  exists build_id, Build.build_id build = Some build_id /\ has_row build_id db.

(** In every build row, [completed] is set exactly when the stored state
    is FINISHED. *)
Definition completed_iff_finished (db : Database) : Prop :=
  forall q, In q (builds db) ->
    BuildSchema.completed q = String.eqb (BuildSchema.state q) "FINISHED".

(** The completed flag the subjob rows of a build persist for a subjob id.
    When several rows carry the id, the last one counts: in the mapping a
    later row replaces the subjob an earlier row put under the id. *)
Definition persisted_completed (rows : list SubjobsSchema.t) (subjob_id : Z) : bool :=
  match find (fun r => SubjobsSchema.subjob_id r =? subjob_id) (rev rows) with
  | Some r => SubjobsSchema.completed r
  | None => false
  end.

(** ** Pagination *)

Module Pagination.

(** [Configuration['pagination_limit' | 'pagination_max_limit']]: the
    default limit and the largest limit, a number of items. *)
Record Configuration : Type := mkConfiguration {
  pagination_limit : Z;
  pagination_max_limit : N
}.

(** The items whose 1-based id, counted from [first_id], lies in [lo, hi]. *)
Fixpoint slice_ids {A : Type} (first_id lo hi : Z) (items : list A) : list A :=
  match items with
  | [] => []
  | x :: items' =>
      if (lo <=? first_id) && (first_id <=? hi)
      then x :: slice_ids (first_id + 1) lo hi items'
      else slice_ids (first_id + 1) lo hi items'
  end.

(** Modelled from the spec: the pagination helper behind [get_builds],
    [get_subjobs] and [get_atoms], which is not part of these sources.
    [offset] defaults to 0, [limit] to the configured default, [limit] is
    clamped to the configured maximum whatever the caller asked for, and
    the items with ids in [offset+1, offset+limit] that exist are
    returned. *)
Definition paginate {A : Type} (conf : Configuration) (offset limit : option Z)
  (items : list A) : list A :=
  let offset := match offset with Some o => o | None => 0 end in
  let limit := match limit with Some l => l | None => pagination_limit conf end in
  let limit := Z.min limit (Z.of_N (pagination_max_limit conf)) in
  slice_ids 1 (offset + 1) (offset + limit) items.

End Pagination.

(** ** The cluster master *)

(** Modelled from the spec: a slave as the master's registry keeps it;
    class [Slave] is not part of these sources. *)
Module Slave.
Record t : Type := mk {
  id : Z;
  url : string;
  is_alive : bool;
  current_build_id : option Z;
  is_shutdown : bool;
  num_executors : Z
}.
End Slave.

(** Modelled from the spec: what the master asks of the external scheduler
    of a build, here the one request the result report makes. *)
Inductive scheduler_call : Type :=
| execute_next_subjob_or_free_executor (build_id : Z) (slave_url : string).

Module ClusterMaster.

(** Modelled from the spec: the master's state, which is not part of these
    sources: the build store, the slave registry, and the requests made to
    the scheduler so far. *)
Record t : Type := mk {
  _build_store : BuildStore.t;
  _all_slaves : list Slave.t;
  scheduler_calls : list scheduler_call
}.

(** Modelled from the spec: [ClusterMaster.get_slave], which is not part of
    these sources.  Exactly one selector must be given; the registry is
    searched by id or by url, and a search that finds nothing is a
    not-found error.  The unit tests name the two exceptions. *)
Definition get_slave (slave_id : option Z) (slave_url : option string) (m : t)
  : result Slave.t :=
  match slave_id, slave_url with
  | Some _, Some _ | None, None => Raise ValueError
  | Some i, None =>
      match find (fun s => Slave.id s =? i) (_all_slaves m) with
      | Some s => Ok s
      | None => Raise ItemNotFoundError
      end
  | None, Some u =>
      match find (fun s => String.eqb (Slave.url s) u) (_all_slaves m) with
      | Some s => Ok s
      | None => Raise ItemNotFoundError
      end
  end.

(** Modelled from the spec: [ClusterMaster.get_build], which is not part of
    these sources: the build of the store, a not-found error when the store
    has none. *)
Definition get_build (build_id : Z) (m : t) : result Build.t * t :=
  match BuildStore.get build_id false (_build_store m) with
  | (Ok (Some build), st) => (Ok build, mk st (_all_slaves m) (scheduler_calls m))
  | (Ok None, st) => (Raise ItemNotFoundError, mk st (_all_slaves m) (scheduler_calls m))
  | (Raise e, st) => (Raise e, mk st (_all_slaves m) (scheduler_calls m))
  | (Blocks, st) => (Blocks, mk st (_all_slaves m) (scheduler_calls m))
  end.

Section ResultReporting.

(** The build's own capability to absorb a reported payload and mark the
    subjob complete; it returns the build as it is afterwards, or raises. *)
Variable complete_subjob : Build.t -> Z -> result Build.t.

(** Modelled from the spec: [ClusterMaster.handle_result_reported_from_slave],
    which is not part of these sources.  The build is located, the report
    is handed to it, and whether or not that raises the scheduler is told to
    run the next subjob or free the executor; only then does an exception
    of the build reach the caller. *)
Definition handle_result_reported_from_slave (slave_url : string)
  (build_id subjob_id : Z) (m : t) : result unit * t :=
  match get_build build_id m with
  | (Ok build, m) =>
      let notify (m : t) :=
        mk (_build_store m) (_all_slaves m)
           (scheduler_calls m ++ [execute_next_subjob_or_free_executor build_id slave_url]) in
      match complete_subjob build subjob_id with
      | Ok build' =>
          let st := _build_store m in
          let st := BuildStore.mk
                      (OrderedDict.set build_id build' (BuildStore._cached_builds_by_id st))
                      (BuildStore._session st) in
          (Ok tt, notify (mk st (_all_slaves m) (scheduler_calls m)))
      | Raise e => (Raise e, notify m)
      | Blocks => (Blocks, m)
      end
  | (Raise e, m) => (Raise e, m)
  | (Blocks, m) => (Blocks, m)
  end.

End ResultReporting.

End ClusterMaster.

(** ** Concrete builds, stores and masters *)

Module Examples.

Definition atom_0 : Atom.t :=
  Atom.mk "make test-a" (Some 12) (Some 15) (Some 0) (Some "COMPLETED") 0 (Some 0).

Definition atom_1 : Atom.t :=
  Atom.mk "make test-b" (Some 7) None None (Some "NOT_STARTED") 1 (Some 0).

Definition atom_2 : Atom.t :=
  Atom.mk "make test-c" None None None (Some "NOT_STARTED") 0 (Some 1).

Definition subjob_0 : Subjob.t := Subjob.mk None 0 [atom_0; atom_1] true.
Definition subjob_1 : Subjob.t := Subjob.mk None 1 [atom_2] false.

(** A subjob that owns no atom. *)
Definition empty_subjob : Subjob.t := Subjob.mk None 0 [] false.

Definition timestamps_building (s : BuildState) : option pytime :=
  match s with
  | QUEUED => Some 100
  | PREPARING => Some 101
  | PREPARED => Some 105
  | BUILDING => Some 106
  | _ => None
  end.

Definition artifact : BuildArtifact.t :=
  {| BuildArtifact.build_artifact_dir := Some "/var/artifacts/1";
     BuildArtifact._failed_artifact_directories := ["/var/artifacts/1/artifact_0_1"];
     BuildArtifact._failed_subjob_atom_pairs := [(0, 1)];
     BuildArtifact._q_failed_subjob_atom_pairs := [] |}.

Definition make_build (build_id : option Z) (artifact : option BuildArtifact.t)
  (subjobs : OrderedDict.t Subjob.t) : Build.t :=
  {| Build._build_id := build_id;
     Build.build_parameters := [("type", "git"); ("job_name", "unit")];
     Build._state_machine := BuildFsm.mk BUILDING timestamps_building;
     Build._artifacts_tar_file := None;
     Build._artifacts_zip_file := None;
     Build._error_message := None;
     Build._postbuild_tasks_are_finished := false;
     Build.setup_failures := 0;
     Build._timing_file_path := Some "/var/timings/unit.json";
     Build._build_artifact := artifact;
     Build._all_subjobs_by_id := subjobs;
     Build._unstarted_subjobs := None;
     Build._finished_subjobs := None;
     Build._preparation_coin_spent := true |}.

(** A build under way, not yet added to a store. *)
Definition building_build : Build.t :=
  make_build None None [(0, subjob_0); (1, subjob_1)].

(** A build one of whose subjobs has no atoms. *)
Definition build_with_empty_subjob : Build.t :=
  make_build None None [(0, empty_subjob)].

(** A build that recorded a failed artifact directory. *)
Definition build_with_artifact : Build.t :=
  make_build None (Some artifact) [(0, subjob_0); (1, subjob_1)].

(** A build that has no subjob yet. *)
Definition build_without_subjobs : Build.t := make_build None None [].

Definition empty_store : BuildStore.t := BuildStore.new Session.fresh.

(** The store after [add(build_without_subjobs)]. *)
Definition store_without_subjobs : BuildStore.t :=
  snd (BuildStore.add build_without_subjobs (BuildStore.new Session.fresh)).

(** The store after [add(building_build)]. *)
Definition store_of_one : BuildStore.t := snd (BuildStore.add building_build empty_store).

(** The store after [add(build_with_artifact)]. *)
Definition store_with_artifact : BuildStore.t :=
  snd (BuildStore.add build_with_artifact empty_store).

(** The build added above once its artifact record has been dropped. *)
Definition build_without_artifact : Build.t :=
  make_build (Some 1) None [(0, subjob_0); (1, subjob_1)].

Definition raphael : Slave.t := Slave.mk 1 "raphael.turtles.gov" true None false 10.
Definition leonardo : Slave.t := Slave.mk 2 "leonardo.turtles.gov" true None false 10.
Definition donatello : Slave.t := Slave.mk 3 "donatello.turtles.gov" true None false 10.

(** The master of the unit tests: three slaves connected in turn. *)
Definition turtles : ClusterMaster.t :=
  ClusterMaster.mk empty_store [raphael; leonardo; donatello] [].

(** A master holding one build in its store's cache. *)
Definition master_of_one : ClusterMaster.t :=
  ClusterMaster.mk store_of_one [raphael] [].

(** A [complete_subjob] whose write fails. *)
Definition failing_complete_subjob (_ : Build.t) (_ : Z) : result Build.t :=
  Raise (RuntimeError "Write failed").

(** The configuration of the unit tests. *)
Definition test_configuration : Pagination.Configuration :=
  Pagination.mkConfiguration 5 10.

Definition twenty_ids : list Z := py_range 1 21.

End Examples.

(** * Properties *)

(** ** Cache hits and misses of get *)

Section GetFacts.

Variable build_id : Z.
Variable st : BuildStore.t.

(** On a cache miss, [get] is [_reconstruct_build], and only a build that
    was reconstructed enters the cache. *)
Lemma get_miss :
  OrderedDict.get build_id (BuildStore._cached_builds_by_id st) = None ->
  forall allow,
    BuildStore.get build_id allow st =
    match BuildStore._reconstruct_build build_id allow (BuildStore._session st) with
    | Ok (Some build) =>
        (Ok (Some build),
         BuildStore.mk
           (OrderedDict.set build_id build (BuildStore._cached_builds_by_id st))
           (BuildStore._session st))
    | r => (r, st)
    end.
Proof.
  intros Hmiss allow. unfold BuildStore.get. now rewrite Hmiss.
Qed.

(** With no build row for the id, reconstruction yields [None]. *)
Lemma _reconstruct_build_no_row :
  find (fun r => BuildSchema.build_id r =? build_id)
    (builds (Session.view (BuildStore._session st))) = None ->
  forall allow,
    BuildStore._reconstruct_build build_id allow (BuildStore._session st) = Ok None.
Proof.
  intros Hrow allow. unfold BuildStore._reconstruct_build,
    BuildStore._get_query_build_object.
  now rewrite Hrow.
Qed.

(** On a miss, a row that was stored unfinished trips the gate. *)
Lemma get_miss_enforces_gate (q : BuildSchema.t) :
  OrderedDict.get build_id (BuildStore._cached_builds_by_id st) = None ->
  find (fun r => BuildSchema.build_id r =? build_id)
    (builds (Session.view (BuildStore._session st))) = Some q ->
  BuildSchema.completed q = false ->
  BuildStore.get build_id false st = (Raise IncompleteBuild, st).
Proof.
  intros Hmiss Hrow Hq. rewrite (get_miss Hmiss).
  unfold BuildStore._reconstruct_build, BuildStore._get_query_build_object.
  rewrite Hrow, Hq. reflexivity.
Qed.

(** With neither a cached build nor a row, [get] answers [None]. *)
Lemma get_miss_no_row :
  OrderedDict.get build_id (BuildStore._cached_builds_by_id st) = None ->
  find (fun r => BuildSchema.build_id r =? build_id)
    (builds (Session.view (BuildStore._session st))) = None ->
  forall allow, BuildStore.get build_id allow st = (Ok None, st).
Proof.
  intros Hmiss Hrow allow.
  rewrite (get_miss Hmiss), (_reconstruct_build_no_row Hrow).
  reflexivity.
Qed.

End GetFacts.

(** C10: a build that sits in the cache is returned as it is, with the
    store unchanged, for either value of [allow_incompleted_builds] and
    whatever state the build is in; no incomplete-build signal is raised on
    a cache hit. *)
Theorem get_cache_hit_ignores_gate :
  forall (build_id : Z) (allow : bool) (st : BuildStore.t) (build : Build.t),
    OrderedDict.get build_id (BuildStore._cached_builds_by_id st) = Some build ->
    BuildStore.get build_id allow st = (Ok (Some build), st).
Proof.
  intros build_id allow st build Hhit. unfold BuildStore.get.
  now rewrite Hhit.
Qed.

(** A cached build that is still [BUILDING], asked for with the gate closed. *)
Lemma get_cache_hit_ignores_gate_witness :
  Build._status (BuildStore.with_build_id Examples.building_build 1) <> FINISHED /\
  BuildStore.get 1 false Examples.store_of_one =
  (Ok (Some (BuildStore.with_build_id Examples.building_build 1)), Examples.store_of_one).
Proof.
  split; [discriminate|].
  apply (@get_cache_hit_ignores_gate 1 false Examples.store_of_one).
  reflexivity.
Defined.

(** The same build, asked for by a store that has to read the database. *)
Example get_after_restart_raises_incomplete :
  BuildStore.get 1 false (BuildStore.restart Examples.store_of_one) =
  (Raise IncompleteBuild, BuildStore.restart Examples.store_of_one).
Proof. reflexivity. Qed.

(** C3, as the code has it: for an id found neither in the cache nor in
    the build table, [get] returns [None] and leaves the store as it was; it
    raises nothing. *)
Theorem get_absent_returns_none :
  forall (build_id : Z) (allow : bool) (st : BuildStore.t),
    OrderedDict.get build_id (BuildStore._cached_builds_by_id st) = None ->
    find (fun r => BuildSchema.build_id r =? build_id)
      (builds (Session.view (BuildStore._session st))) = None ->
    BuildStore.get build_id allow st = (Ok None, st).
Proof.
  intros build_id allow st Hmiss Hrow.
  now apply get_miss_no_row.
Qed.

Lemma get_absent_returns_none_witness :
  BuildStore.get 7 false Examples.store_of_one = (Ok None, Examples.store_of_one).
Proof.
  apply (@get_absent_returns_none 7 false Examples.store_of_one); reflexivity.
Defined.

(** C3, as stated, fails: on an empty store [get] raises no
    [ItemNotFoundError]; it returns [None]. *)
Lemma get_absent_does_not_raise :
  fst (BuildStore.get 1 false Examples.empty_store) <> Raise ItemNotFoundError /\
  fst (BuildStore.get 1 false Examples.empty_store) = Ok None.
Proof. split; [discriminate | reflexivity]. Qed.

(** The not-found error is the master's: [get_build] turns the [None] of
    the store into [ItemNotFoundError]. *)
Lemma get_build_absent_raises :
  forall (build_id : Z) (m : ClusterMaster.t),
    OrderedDict.get build_id
      (BuildStore._cached_builds_by_id (ClusterMaster._build_store m)) = None ->
    find (fun r => BuildSchema.build_id r =? build_id)
      (builds (Session.view (BuildStore._session (ClusterMaster._build_store m)))) = None ->
    fst (ClusterMaster.get_build build_id m) = Raise ItemNotFoundError.
Proof.
  intros build_id m Hmiss Hrow. unfold ClusterMaster.get_build.
  now rewrite (get_miss_no_row _ _ Hmiss Hrow false).
Qed.

(** ** save on a build without a row *)

(** C7: when no build row matches the build's id (a build that was never
    added has no id at all), [save] raises [ItemNotFoundError] and the
    store, its session included, is left exactly as it was. *)
Theorem save_without_row_raises :
  forall (build : Build.t) (st : BuildStore.t),
    (forall build_id, Build.build_id build = Some build_id ->
       find (fun r => BuildSchema.build_id r =? build_id)
         (builds (Session.view (BuildStore._session st))) = None) ->
    BuildStore.save build st = (Raise ItemNotFoundError, st).
Proof.
  intros build [cache s] Hrow.
  unfold BuildStore.save, BuildStore._update_build. simpl.
  destruct (Build.build_id build) as [build_id|] eqn:Hid; [|reflexivity].
  unfold BuildStore._get_query_build_object.
  simpl in Hrow. now rewrite (Hrow build_id eq_refl).
Qed.

(** A build carrying id 5 saved to a store whose only row is build 1. *)
Lemma save_without_row_raises_witness :
  BuildStore.save (BuildStore.with_build_id Examples.building_build 5)
    Examples.store_of_one
  = (Raise ItemNotFoundError, Examples.store_of_one).
Proof.
  apply save_without_row_raises.
  intros build_id H. injection H as <-. reflexivity.
Defined.

(** ** The queues of a reconstructed build *)

(** An invariant of a loop whose body may raise holds of what the loop
    returns. *)
Lemma foldM_invariant {A B : Type} (P : B -> Prop) (f : B -> A -> result B) :
  (forall acc x acc', P acc -> f acc x = Ok acc' -> P acc') ->
  forall l acc r, P acc -> foldM f l acc = Ok r -> P r.
Proof.
  intros Hstep l. induction l as [|x l IH]; intros acc r Hacc Hrun; simpl in Hrun.
  - now injection Hrun as <-.
  - destruct (f acc x) as [acc'| |] eqn:Hf; simpl in Hrun; try discriminate.
    eapply IH; [|exact Hrun]. eapply Hstep; eassumption.
Qed.

Lemma filter_partition_Permutation {A : Type} (p : A -> bool) (l : list A) :
  Permutation (filter (fun x => negb (p x)) l ++ filter p l) l.
Proof.
  induction l as [|x l IH]; simpl; [constructor|].
  destruct (p x); simpl.
  - apply Permutation_sym, Permutation_cons_app, Permutation_sym, IH.
  - now constructor.
Qed.

(** Keys of an ordered dictionary stay distinct under [d[k] = v]. *)
Lemma OrderedDict_set_keys {V : Type} (k : Z) (v : V) (d : OrderedDict.t V) :
  forall k', In k' (OrderedDict.keys (OrderedDict.set k v d)) <->
             k' = k \/ In k' (OrderedDict.keys d).
Proof.
  induction d as [|[k0 v0] d IH]; intros k'; simpl.
  - intuition.
  - destruct (k =? k0) eqn:E; simpl.
    + apply Z.eqb_eq in E. subst k0. intuition.
    + rewrite IH. intuition.
Qed.

Lemma OrderedDict_set_NoDup {V : Type} (k : Z) (v : V) (d : OrderedDict.t V) :
  NoDup (OrderedDict.keys d) -> NoDup (OrderedDict.keys (OrderedDict.set k v d)).
Proof.
  induction d as [|[k0 v0] d IH]; intros Hd; simpl.
  - constructor; [intros [] | constructor].
  - inversion Hd as [|? ? Hnotin Hd']; subst.
    destruct (k =? k0) eqn:E; simpl.
    + apply Z.eqb_eq in E. subst k0. now constructor.
    + constructor; [|now apply IH].
      intros Hin. apply OrderedDict_set_keys in Hin as [->|Hin].
      * now rewrite Z.eqb_refl in E.
      * now apply Hnotin.
Qed.

Lemma OrderedDict_set_In {V : Type} (k : Z) (v : V) (d : OrderedDict.t V) :
  forall k' v', In (k', v') (OrderedDict.set k v d) ->
                (k' = k /\ v' = v) \/ In (k', v') d.
Proof.
  induction d as [|[k0 v0] d IH]; intros k' v' Hin; simpl in Hin.
  - destruct Hin as [Hin|[]]. injection Hin as <- <-. now left.
  - destruct (k =? k0); simpl in Hin.
    + destruct Hin as [Hin|Hin]; [injection Hin as <- <-; now left|].
      right. now right.
    + destruct Hin as [Hin|Hin]; [right; now left|].
      apply IH in Hin as [Hin|Hin]; [now left|right; now right].
Qed.

Lemma well_keyed_ids (d : OrderedDict.t Subjob.t) :
  well_keyed d -> map Subjob._subjob_id (OrderedDict.values d) = OrderedDict.keys d.
Proof.
  intros [_ Hid]. unfold OrderedDict.values, OrderedDict.keys.
  induction d as [|[k sj] d IH]; simpl; [reflexivity|].
  rewrite (Hid k sj (or_introl eq_refl)). f_equal.
  apply IH. intros k' sj' Hin. apply Hid. now right.
Qed.

(** The filling loop never finds a queue full: both queues were made with
    room for every subjob. *)
Lemma place_subjobs_loop (n : Z) (l : OrderedDict.t Subjob.t) :
  forall (unstarted finished : list Subjob.t),
    Z.of_nat (length unstarted + length finished + length l) <= n ->
    foldM
      (fun '(unstarted, finished) '(_, subjob) =>
         if Subjob.completed subjob
         then (finished' <- Queue.put subjob finished ;; Ok (unstarted, finished'))
         else (unstarted' <- Queue.put subjob unstarted ;; Ok (unstarted', finished)))
      l (Queue.mk n unstarted, Queue.mk n finished)
    = Ok (Queue.mk n (unstarted ++ filter (fun sj => negb (Subjob.completed sj))
                                     (OrderedDict.values l)),
          Queue.mk n (finished ++ filter Subjob.completed (OrderedDict.values l))).
Proof.
  induction l as [|[k sj] l IH]; intros unstarted finished Hroom; simpl.
  - now rewrite !app_nil_r.
  - simpl in Hroom. unfold Queue.put, Queue.full. simpl.
    destruct (Subjob.completed sj); simpl.
    + replace (n <=? Z.of_nat (length finished)) with false
        by (symmetry; apply Z.leb_gt; lia).
      rewrite andb_false_r. simpl. rewrite IH.
      * now rewrite <- app_assoc.
      * rewrite length_app. simpl. lia.
    + replace (n <=? Z.of_nat (length unstarted)) with false
        by (symmetry; apply Z.leb_gt; lia).
      rewrite andb_false_r. simpl. rewrite IH.
      * now rewrite <- app_assoc.
      * rewrite length_app. simpl. lia.
Qed.

Lemma place_subjobs_total (subjobs : OrderedDict.t Subjob.t) :
  BuildStore.place_subjobs subjobs =
  Ok (Queue.mk (Z.of_nat (length subjobs))
        (filter (fun sj => negb (Subjob.completed sj)) (OrderedDict.values subjobs)),
      Queue.mk (Z.of_nat (length subjobs))
        (filter Subjob.completed (OrderedDict.values subjobs))).
Proof.
  unfold BuildStore.place_subjobs, Queue.new.
  rewrite place_subjobs_loop; [reflexivity | simpl; lia].
Qed.

(** The dictionary the subjob loop of [_reconstruct_build] builds. *)
Lemma reconstructed_subjobs_well_keyed (build_id : Z)
  (atoms_by_subjob_id : OrderedDict.t (list Atom.t)) (rows : list SubjobsSchema.t) :
  forall subjobs,
    foldM
      (fun subjobs subjob =>
         match OrderedDict.get (SubjobsSchema.subjob_id subjob) atoms_by_subjob_id with
         | None => Raise KeyError
         | Some atoms =>
             Ok (OrderedDict.set (SubjobsSchema.subjob_id subjob)
                   {| Subjob._build_id := Some build_id;
                      Subjob._subjob_id := SubjobsSchema.subjob_id subjob;
                      Subjob._atoms := atoms;
                      Subjob.completed := SubjobsSchema.completed subjob |} subjobs)
         end)
      rows [] = Ok subjobs ->
    well_keyed subjobs.
Proof.
  intros subjobs. apply foldM_invariant.
  - intros acc row acc' [Hnodup Hid] Hstep.
    destruct (OrderedDict.get _ atoms_by_subjob_id) as [atoms|]; [|discriminate].
    injection Hstep as <-. split.
    + now apply OrderedDict_set_NoDup.
    + intros k sj Hin. apply OrderedDict_set_In in Hin as [[-> ->]|Hin];
        [reflexivity | now apply Hid].
  - split; [constructor | intros ? ? []].
Qed.

Lemma OrderedDict_set_In_NoDup {V : Type} (k : Z) (v : V) (d : OrderedDict.t V) :
  NoDup (OrderedDict.keys d) ->
  forall k' v', In (k', v') (OrderedDict.set k v d) ->
                (k' = k /\ v' = v) \/ (k' <> k /\ In (k', v') d).
Proof.
  induction d as [|[k0 v0] d IH]; intros Hnodup k' v' Hin; simpl in Hin.
  - destruct Hin as [Hin|[]]. injection Hin as <- <-. now left.
  - inversion Hnodup as [|? ? Hnotin Hnodup']; subst.
    destruct (k =? k0) eqn:E; simpl in Hin.
    + apply Z.eqb_eq in E. subst k0.
      destruct Hin as [Hin|Hin]; [injection Hin as <- <-; now left|].
      right. split; [|now right]. intros ->. apply Hnotin.
      unfold OrderedDict.keys. apply in_map_iff. now exists (k, v').
    + apply Z.eqb_neq in E.
      destruct Hin as [Hin|Hin].
      * injection Hin as <- <-. right. split; [congruence | now left].
      * apply (IH Hnodup') in Hin as [Hin|[Hne Hin]]; [now left|].
        right. split; [assumption | now right].
Qed.

Lemma find_app_single {A : Type} (p : A -> bool) (l : list A) (x : A) :
  find p (l ++ [x]) =
  match find p l with
  | Some y => Some y
  | None => if p x then Some x else None
  end.
Proof.
  induction l as [|y l IH]; simpl; [reflexivity|].
  now destruct (p y).
Qed.

(** The subjob loop of [_reconstruct_build] and the rows it reads: every
    row's subjob id becomes a key, and the subjob under a key has the flag
    of the last row with that id. *)
Lemma reconstructed_subjobs_follow_rows (build_id : Z)
  (atoms_by_subjob_id : OrderedDict.t (list Atom.t)) (rows : list SubjobsSchema.t) :
  forall acc subjobs_,
    NoDup (OrderedDict.keys acc) ->
    foldM
      (fun subjobs subjob =>
         match OrderedDict.get (SubjobsSchema.subjob_id subjob) atoms_by_subjob_id with
         | None => Raise KeyError
         | Some atoms =>
             Ok (OrderedDict.set (SubjobsSchema.subjob_id subjob)
                   {| Subjob._build_id := Some build_id;
                      Subjob._subjob_id := SubjobsSchema.subjob_id subjob;
                      Subjob._atoms := atoms;
                      Subjob.completed := SubjobsSchema.completed subjob |} subjobs)
         end)
      rows acc = Ok subjobs_ ->
    (forall k, In k (OrderedDict.keys acc) -> In k (OrderedDict.keys subjobs_)) /\
    (forall r, In r rows -> In (SubjobsSchema.subjob_id r) (OrderedDict.keys subjobs_)) /\
    (forall k sj, In (k, sj) subjobs_ ->
       match find (fun r => SubjobsSchema.subjob_id r =? k) (rev rows) with
       | Some r => In r rows /\ Subjob.completed sj = SubjobsSchema.completed r
       | None => In (k, sj) acc
       end).
Proof.
  induction rows as [|row rows IH]; intros acc subjobs_ Hnodup Hrun; simpl in Hrun.
  - injection Hrun as <-. repeat split; auto. intros r [].
  - destruct (OrderedDict.get (SubjobsSchema.subjob_id row) atoms_by_subjob_id)
      as [atoms_|]; simpl in Hrun; [|discriminate].
    apply IH in Hrun as (Hkeys & Hrows & Hflags);
      [|now apply OrderedDict_set_NoDup].
    repeat split.
    + intros k Hk. apply Hkeys, OrderedDict_set_keys. now right.
    + intros r [<-|Hr]; [|now apply Hrows].
      apply Hkeys, OrderedDict_set_keys. now left.
    + intros k sj Hin. specialize (Hflags k sj Hin). simpl rev.
      rewrite find_app_single.
      destruct (find (fun r => SubjobsSchema.subjob_id r =? k) (rev rows)) as [r|].
      * destruct Hflags as [Hr Hflag]. split; [now right | assumption].
      * apply (@OrderedDict_set_In_NoDup _ _ _ acc Hnodup) in Hflags
          as [[-> ->]|[Hne Hold]].
        -- rewrite Z.eqb_refl. split; [now left | reflexivity].
        -- replace (SubjobsSchema.subjob_id row =? k) with false; [assumption|].
           symmetry. apply Z.eqb_neq. congruence.
Qed.

(** C5, as the code has it: when [_reconstruct_build] returns a build,
    every subjob row of the build has its subjob in the mapping, every
    subjob of the mapping stands for a row and has that row's persisted
    completed flag, the finished queue holds exactly the subjobs whose
    persisted flag is set and the unstarted queue exactly the others (both
    in the order of the mapping), and together the queues hold every subjob
    of the mapping once.  Each queue was made with [maxsize] equal to the
    number of subjobs: that many items is its capacity when the build has
    subjobs, and a build without subjobs gets two queues without a bound. *)
Theorem reconstructed_queues_follow_persisted_flags :
  forall (build_id : Z) (allow : bool) (s : Session.t) (build : Build.t),
    BuildStore._reconstruct_build build_id allow s = Ok (Some build) ->
    let rows := filter (fun r => SubjobsSchema.build_id r =? build_id)
                  (subjobs (Session.view s)) in
    let mapping := Build._all_subjobs_by_id build in
    let subjobs := OrderedDict.values mapping in
    let room := match subjobs with
                | [] => None
                | _ :: _ => Some (Z.of_nat (length subjobs))
                end in
    exists unstarted finished,
      Build._unstarted_subjobs build = Some unstarted /\
      Build._finished_subjobs build = Some finished /\
      (forall r, In r rows ->
         In (SubjobsSchema.subjob_id r) (OrderedDict.keys mapping)) /\
      (forall k sj, In (k, sj) mapping ->
         Subjob._subjob_id sj = k /\
         (exists r, In r rows /\ SubjobsSchema.subjob_id r = k) /\
         Subjob.completed sj = persisted_completed rows k) /\
      Queue.items finished
        = filter (fun sj => persisted_completed rows (Subjob._subjob_id sj)) subjobs /\
      Queue.items unstarted
        = filter (fun sj => negb (persisted_completed rows (Subjob._subjob_id sj)))
            subjobs /\
      Permutation (Queue.items unstarted ++ Queue.items finished) subjobs /\
      NoDup (map Subjob._subjob_id (Queue.items unstarted ++ Queue.items finished)) /\
      Queue.maxsize unstarted = Z.of_nat (length subjobs) /\
      Queue.maxsize finished = Z.of_nat (length subjobs) /\
      Queue.capacity unstarted = room /\
      Queue.capacity finished = room.
Proof.
  intros build_id allow s build Hrun. cbv zeta.
  unfold BuildStore._reconstruct_build, BuildStore._get_query_build_object in Hrun.
  set (rows := filter (fun r => SubjobsSchema.build_id r =? build_id)
                 (subjobs (Session.view s))) in *.
  destruct (find (fun r => BuildSchema.build_id r =? build_id)
              (builds (Session.view s))) as [q_build|]; [|discriminate].
  destruct (negb allow && negb (BuildSchema.completed q_build)); [discriminate|].
  destruct (BuildState_of_name (BuildSchema.state q_build)) as [current| |];
    simpl in Hrun; try discriminate.
  match type of Hrun with
  | bind ?loop _ = _ => destruct loop as [subjobs_| |] eqn:Hsubjobs
  end; simpl in Hrun; try discriminate.
  rewrite place_subjobs_total in Hrun. simpl in Hrun.
  injection Hrun as <-. simpl.
  pose proof (reconstructed_subjobs_well_keyed _ _ _ Hsubjobs) as Hkeyed.
  apply reconstructed_subjobs_follow_rows in Hsubjobs as (_ & Hrows & Hflags);
    [|constructor].
  assert (Hsj : forall k sj, In (k, sj) subjobs_ ->
            Subjob._subjob_id sj = k /\
            (exists r, In r rows /\ SubjobsSchema.subjob_id r = k) /\
            Subjob.completed sj = persisted_completed rows k).
  { intros k sj Hin. specialize (Hflags k sj Hin). unfold persisted_completed.
    split; [now apply (proj2 Hkeyed)|].
    destruct (find (fun r => SubjobsSchema.subjob_id r =? k) (rev rows))
      as [r|] eqn:Hfind; [|destruct Hflags].
    destruct Hflags as [Hr Hflag]. split; [|assumption].
    exists r. split; [assumption|].
    apply find_some in Hfind as [_ Hid]. now apply Z.eqb_eq in Hid. }
  assert (Hflag : forall sj, In sj (OrderedDict.values subjobs_) ->
            Subjob.completed sj = persisted_completed rows (Subjob._subjob_id sj)).
  { intros sj Hin. unfold OrderedDict.values in Hin.
    apply in_map_iff in Hin as [[k sj'] [Heq Hin]]. simpl in Heq. subst sj'.
    destruct (Hsj k sj Hin) as (Hid & _ & Hc). now rewrite Hid. }
  do 2 eexists.
  split; [reflexivity|]. split; [reflexivity|]. split; [exact Hrows|].
  split; [exact Hsj|]. simpl.
  split; [now apply filter_ext_in|].
  split; [apply filter_ext_in; intros sj Hin; now rewrite (Hflag sj Hin)|].
  split; [apply filter_partition_Permutation|].
  split.
  { eapply Permutation_NoDup.
    - apply Permutation_map, Permutation_sym, filter_partition_Permutation.
    - rewrite (well_keyed_ids Hkeyed). apply Hkeyed. }
  assert (Hlen : length subjobs_ = length (OrderedDict.values subjobs_))
    by (unfold OrderedDict.values; now rewrite length_map).
  rewrite Hlen. repeat split; unfold Queue.capacity; simpl;
    destruct (OrderedDict.values subjobs_); reflexivity.
Qed.

(** The build of two subjobs, one completed. *)
Lemma reconstructed_queues_follow_persisted_flags_witness :
  exists build,
    BuildStore._reconstruct_build 1 true
      (BuildStore._session (BuildStore.restart Examples.store_of_one)) = Ok (Some build) /\
    let rows := filter (fun r => SubjobsSchema.build_id r =? 1)
                  (subjobs (Session.view
                              (BuildStore._session
                                 (BuildStore.restart Examples.store_of_one)))) in
    let mapping := Build._all_subjobs_by_id build in
    let subjobs := OrderedDict.values mapping in
    let room := match subjobs with
                | [] => None
                | _ :: _ => Some (Z.of_nat (length subjobs))
                end in
    exists unstarted finished,
      Build._unstarted_subjobs build = Some unstarted /\
      Build._finished_subjobs build = Some finished /\
      (forall r, In r rows ->
         In (SubjobsSchema.subjob_id r) (OrderedDict.keys mapping)) /\
      (forall k sj, In (k, sj) mapping ->
         Subjob._subjob_id sj = k /\
         (exists r, In r rows /\ SubjobsSchema.subjob_id r = k) /\
         Subjob.completed sj = persisted_completed rows k) /\
      Queue.items finished
        = filter (fun sj => persisted_completed rows (Subjob._subjob_id sj)) subjobs /\
      Queue.items unstarted
        = filter (fun sj => negb (persisted_completed rows (Subjob._subjob_id sj)))
            subjobs /\
      Permutation (Queue.items unstarted ++ Queue.items finished) subjobs /\
      NoDup (map Subjob._subjob_id (Queue.items unstarted ++ Queue.items finished)) /\
      Queue.maxsize unstarted = Z.of_nat (length subjobs) /\
      Queue.maxsize finished = Z.of_nat (length subjobs) /\
      Queue.capacity unstarted = room /\
      Queue.capacity finished = room.
Proof.
  eexists. split; [reflexivity|].
  apply (@reconstructed_queues_follow_persisted_flags 1 true
           (BuildStore._session (BuildStore.restart Examples.store_of_one))).
  reflexivity.
Defined.

(** The rows of that build and the queues they lead to: subjob 0 was stored
    completed and is the one finished subjob, subjob 1 was not and is the
    one unstarted subjob. *)
Example reconstructed_queues_of_two_subjobs :
  exists build unstarted finished,
    BuildStore._reconstruct_build 1 true
      (BuildStore._session (BuildStore.restart Examples.store_of_one)) = Ok (Some build) /\
    map (fun r => (SubjobsSchema.subjob_id r, SubjobsSchema.completed r))
      (subjobs (Session.view (BuildStore._session
                                (BuildStore.restart Examples.store_of_one))))
      = [(0, true); (1, false)] /\
    Build._unstarted_subjobs build = Some unstarted /\
    Build._finished_subjobs build = Some finished /\
    map Subjob._subjob_id (Queue.items finished) = [0] /\
    map Subjob._subjob_id (Queue.items unstarted) = [1] /\
    Queue.capacity finished = Some 2 /\
    Queue.capacity unstarted = Some 2.
Proof. do 3 eexists. repeat split. Qed.

(** C5, as stated, fails for a build without subjobs: its queues are made
    with [maxsize] 0, which for [queue.Queue] means no bound; their capacity
    is not the subjob count 0, and a [put] on the empty queue goes
    through. *)
Lemma reconstructed_queues_unbounded_without_subjobs :
  exists build unstarted finished,
    BuildStore._reconstruct_build 1 true
      (BuildStore._session (BuildStore.restart Examples.store_without_subjobs))
      = Ok (Some build) /\
    Build._all_subjobs_by_id build = [] /\
    Build._unstarted_subjobs build = Some unstarted /\
    Build._finished_subjobs build = Some finished /\
    Queue.capacity unstarted <> Some 0 /\
    Queue.capacity finished <> Some 0 /\
    Queue.capacity unstarted = None /\
    Queue.capacity finished = None /\
    Queue.put Examples.subjob_0 unstarted
      = Ok (Queue.mk 0 [Examples.subjob_0]).
Proof. do 3 eexists. repeat split; discriminate. Qed.

(** ** save: clear, commit, rewrite *)

Section InsertLoops.

Variable build_id : Z.
Variable build : Build.t.

Lemma add_failed_artifact_directories_spec (s : Session.t) :
  BuildStore.add_failed_artifact_directories build_id build s =
  let v := Session.view s in
  Session.mk (Session.committed s)
    (mkDatabase (builds v)
       (failed_artifact_directories v ++ failed_directory_rows build_id build)
       (failed_subjob_atom_pairs v) (subjobs v) (atoms v))
    (Session.log s ++ map (fun _ => Insert TFailedArtifactDirectories build_id)
                        (failed_directory_rows build_id build)).
Proof.
  unfold BuildStore.add_failed_artifact_directories, failed_directory_rows.
  destruct (Build._build_artifact build) as [artifact|].
  - generalize (BuildArtifact._get_failed_artifact_directories artifact).
    intros dirs. revert s.
    induction dirs as [|d dirs IH]; intros [c [b f p sj a] l]; simpl.
    + now rewrite !app_nil_r.
    + rewrite IH. simpl. now rewrite <- !app_assoc.
  - destruct s as [c [b f p sj a] l]. simpl. now rewrite !app_nil_r.
Qed.

Lemma add_failed_subjob_atom_pairs_spec (s : Session.t) :
  BuildStore.add_failed_subjob_atom_pairs build_id build s =
  let v := Session.view s in
  Session.mk (Session.committed s)
    (mkDatabase (builds v) (failed_artifact_directories v)
       (failed_subjob_atom_pairs v ++ failed_pair_rows build_id build)
       (subjobs v) (atoms v))
    (Session.log s ++ map (fun _ => Insert TFailedSubjobAtomPairs build_id)
                        (failed_pair_rows build_id build)).
Proof.
  unfold BuildStore.add_failed_subjob_atom_pairs, failed_pair_rows.
  destruct (Build._build_artifact build) as [artifact|].
  - generalize (BuildArtifact.get_failed_subjob_and_atom_ids artifact).
    intros pairs. revert s.
    induction pairs as [|[sid aid] pairs IH]; intros [c [b f p sj a] l]; simpl.
    + now rewrite !app_nil_r.
    + rewrite IH. simpl. now rewrite <- !app_assoc.
  - destruct s as [c [b f p sj a] l]. simpl. now rewrite !app_nil_r.
Qed.

Lemma add_atoms_spec (subjob_id : Z) (atoms_ : list Atom.t) (s : Session.t) :
  fold_left
    (fun s atom => Session.add_atom (BuildStore.atom_row build_id subjob_id atom) s)
    atoms_ s =
  let v := Session.view s in
  Session.mk (Session.committed s)
    (mkDatabase (builds v) (failed_artifact_directories v)
       (failed_subjob_atom_pairs v) (subjobs v)
       (atoms v ++ map (BuildStore.atom_row build_id subjob_id) atoms_))
    (Session.log s ++ map (fun _ => Insert TAtoms build_id) atoms_).
Proof.
  revert s. induction atoms_ as [|x xs IH]; intros [c [b f p sj a] l]; simpl.
  - now rewrite !app_nil_r.
  - rewrite IH. simpl. now rewrite <- !app_assoc.
Qed.

Lemma add_subjobs_and_atoms_spec (s : Session.t) :
  BuildStore.add_subjobs_and_atoms build_id build s =
  let v := Session.view s in
  Session.mk (Session.committed s)
    (mkDatabase (builds v) (failed_artifact_directories v)
       (failed_subjob_atom_pairs v)
       (subjobs v ++ subjob_rows build_id build)
       (atoms v ++ atom_rows build_id build))
    (Session.log s ++ subjob_and_atom_inserts build_id build).
Proof.
  unfold BuildStore.add_subjobs_and_atoms, subjob_rows, atom_rows,
    subjob_and_atom_inserts.
  generalize (Build._all_subjobs_by_id build). intros d. revert s.
  induction d as [|[k subjob] d IH]; intros [c [b f p sj a] l]; simpl.
  - now rewrite !app_nil_r.
  - rewrite add_atoms_spec, IH. simpl.
    now rewrite <- !app_assoc.
Qed.

End InsertLoops.

Lemma filter_all {A : Type} (p : A -> bool) (l : list A) :
  (forall x, In x l -> p x = true) -> filter p l = l.
Proof.
  induction l as [|x l IH]; intros Hall; simpl; [reflexivity|].
  rewrite (Hall x (or_introl eq_refl)). f_equal.
  apply IH. intros y Hy. apply Hall. now right.
Qed.

Lemma filter_none {A : Type} (p : A -> bool) (l : list A) :
  (forall x, In x l -> p x = false) -> filter p l = [].
Proof.
  induction l as [|x l IH]; intros Hall; simpl; [reflexivity|].
  rewrite (Hall x (or_introl eq_refl)).
  apply IH. intros y Hy. apply Hall. now right.
Qed.

(** After a bulk delete for an id, appended rows of that id are the only
    rows of that id. *)
Lemma filter_deleted_then_added {A : Type} (p : A -> bool) (old new : list A) :
  (forall x, In x new -> p x = true) ->
  filter p (filter (fun x => negb (p x)) old ++ new) = new.
Proof.
  intros Hnew. rewrite filter_app, (filter_all _ _ Hnew), filter_none; [reflexivity|].
  intros x Hx. apply filter_In in Hx as [_ Hx].
  now destruct (p x).
Qed.

Lemma filter_deleted {A : Type} (p : A -> bool) (old : list A) :
  filter p (filter (fun x => negb (p x)) old) = [].
Proof.
  apply filter_none. intros x Hx. apply filter_In in Hx as [_ Hx].
  now destruct (p x).
Qed.

Section RowsOfBuild.

Variable build_id : Z.
Variable build : Build.t.

Lemma failed_directory_rows_id :
  forall r, In r (failed_directory_rows build_id build) ->
            (FailedArtifactDirectoriesSchema.build_id r =? build_id) = true.
Proof.
  unfold failed_directory_rows. intros r Hr.
  destruct (Build._build_artifact build); [|destruct Hr].
  apply in_map_iff in Hr as [d [<- _]]. apply Z.eqb_refl.
Qed.

Lemma failed_pair_rows_id :
  forall r, In r (failed_pair_rows build_id build) ->
            (FailedSubjobAtomPairsSchema.build_id r =? build_id) = true.
Proof.
  unfold failed_pair_rows. intros r Hr.
  destruct (Build._build_artifact build); [|destruct Hr].
  apply in_map_iff in Hr as [[sid aid] [<- _]]. apply Z.eqb_refl.
Qed.

Lemma subjob_rows_id :
  forall r, In r (subjob_rows build_id build) ->
            (SubjobsSchema.build_id r =? build_id) = true.
Proof.
  unfold subjob_rows. intros r Hr.
  apply in_map_iff in Hr as [[sid sj] [<- _]]. apply Z.eqb_refl.
Qed.

Lemma atom_rows_id :
  forall r, In r (atom_rows build_id build) ->
            (AtomsSchema.build_id r =? build_id) = true.
Proof.
  unfold atom_rows. intros r Hr.
  apply in_flat_map in Hr as [[sid sj] [_ Hr]].
  apply in_map_iff in Hr as [a [<- _]]. apply Z.eqb_refl.
Qed.

End RowsOfBuild.

(** C4, as the code has it: for a build whose id has a row, [save]
    succeeds and sends, in this order, for the failed directories and then
    for the failed pairs (both only when the build has an artifact record)
    a delete, a commit and the inserts, and for the subjobs and atoms the
    two deletes, a commit and the inserts.  Afterwards the rows the
    transaction sees for the build id are exactly the in-memory subjobs and
    atoms (and, with an artifact record, its failed directories and pairs);
    without an artifact record the two failure tables are left untouched.
    The deletion of subjobs and atoms is committed, their insertion is
    not. *)
Theorem save_clears_commits_then_rewrites :
  forall (build : Build.t) (st : BuildStore.t) (build_id : Z) (q : BuildSchema.t),
    Build.build_id build = Some build_id ->
    find (fun r => BuildSchema.build_id r =? build_id)
      (builds (Session.view (BuildStore._session st))) = Some q ->
    exists s',
      BuildStore.save build st = (Ok tt, BuildStore.mk (BuildStore._cached_builds_by_id st) s') /\
      Session.log s' = Session.log (BuildStore._session st) ++ update_ops build_id build /\
      filter (fun r => SubjobsSchema.build_id r =? build_id) (subjobs (Session.view s'))
        = subjob_rows build_id build /\
      filter (fun r => AtomsSchema.build_id r =? build_id) (atoms (Session.view s'))
        = atom_rows build_id build /\
      filter (fun r => SubjobsSchema.build_id r =? build_id) (subjobs (Session.committed s'))
        = [] /\
      filter (fun r => AtomsSchema.build_id r =? build_id) (atoms (Session.committed s'))
        = [] /\
      match Build._build_artifact build with
      | Some _ =>
          filter (fun r => FailedArtifactDirectoriesSchema.build_id r =? build_id)
            (failed_artifact_directories (Session.view s'))
            = failed_directory_rows build_id build /\
          filter (fun r => FailedSubjobAtomPairsSchema.build_id r =? build_id)
            (failed_subjob_atom_pairs (Session.view s'))
            = failed_pair_rows build_id build
      | None =>
          failed_artifact_directories (Session.view s')
            = failed_artifact_directories (Session.view (BuildStore._session st)) /\
          failed_subjob_atom_pairs (Session.view s')
            = failed_subjob_atom_pairs (Session.view (BuildStore._session st))
      end.
Proof.
  intros build [cache s] build_id q Hid Hrow. simpl in Hrow |- *.
  unfold BuildStore.save, BuildStore._update_build. simpl.
  rewrite Hid. unfold BuildStore._get_query_build_object. rewrite Hrow.
  rewrite add_subjobs_and_atoms_spec.
  unfold update_ops.
  destruct (Build._build_artifact build) as [artifact|] eqn:Hart.
  - rewrite add_failed_subjob_atom_pairs_spec, add_failed_artifact_directories_spec.
    destruct s as [c [b f p sj a] l]. simpl.
    eexists. split; [reflexivity|]. simpl.
    repeat split.
    + now rewrite <- !app_assoc.
    + apply filter_deleted_then_added, subjob_rows_id.
    + apply filter_deleted_then_added, atom_rows_id.
    + apply filter_deleted.
    + apply filter_deleted.
    + apply filter_deleted_then_added, failed_directory_rows_id.
    + apply filter_deleted_then_added, failed_pair_rows_id.
  - destruct s as [c [b f p sj a] l]. simpl.
    eexists. split; [reflexivity|]. simpl.
    repeat split.
    + now rewrite <- !app_assoc.
    + apply filter_deleted_then_added, subjob_rows_id.
    + apply filter_deleted_then_added, atom_rows_id.
    + apply filter_deleted.
    + apply filter_deleted.
Qed.

(** The build with an artifact record, saved again after it was added. *)
Lemma save_clears_commits_then_rewrites_witness :
  let build := BuildStore.with_build_id Examples.build_with_artifact 1 in
  let st := Examples.store_with_artifact in
  exists s',
    BuildStore.save build st = (Ok tt, BuildStore.mk (BuildStore._cached_builds_by_id st) s') /\
    Session.log s' = Session.log (BuildStore._session st) ++ update_ops 1 build /\
    filter (fun r => SubjobsSchema.build_id r =? 1) (subjobs (Session.view s'))
      = subjob_rows 1 build /\
    filter (fun r => AtomsSchema.build_id r =? 1) (atoms (Session.view s'))
      = atom_rows 1 build /\
    filter (fun r => SubjobsSchema.build_id r =? 1) (subjobs (Session.committed s')) = [] /\
    filter (fun r => AtomsSchema.build_id r =? 1) (atoms (Session.committed s')) = [] /\
    filter (fun r => FailedArtifactDirectoriesSchema.build_id r =? 1)
      (failed_artifact_directories (Session.view s'))
      = failed_directory_rows 1 build /\
    filter (fun r => FailedSubjobAtomPairsSchema.build_id r =? 1)
      (failed_subjob_atom_pairs (Session.view s'))
      = failed_pair_rows 1 build.
Proof.
  intros build st.
  eapply (@save_clears_commits_then_rewrites build st 1); reflexivity.
Defined.

(** C4, as stated, fails for the failure tables: a build that was added
    with a failed artifact directory and has no artifact record when it is
    saved keeps its old row; [save] issues no delete for that table, though
    the build in memory has no failed directory. *)
Lemma save_without_artifact_keeps_failed_rows :
  let build := Examples.build_without_artifact in
  let st' := snd (BuildStore.save build Examples.store_with_artifact) in
  fst (BuildStore.save build Examples.store_with_artifact) = Ok tt /\
  failed_directory_rows 1 build = [] /\
  filter (fun r => FailedArtifactDirectoriesSchema.build_id r =? 1)
    (failed_artifact_directories (Session.view (BuildStore._session st')))
    = [FailedArtifactDirectoriesSchema.mk 1 "/var/artifacts/1/artifact_0_1"] /\
  ~ In (Delete TFailedArtifactDirectories 1) (Session.log (BuildStore._session st')) /\
  ~ In (Delete TFailedSubjobAtomPairs 1) (Session.log (BuildStore._session st')).
Proof.
  cbv zeta. repeat split; try reflexivity.
  - vm_compute. intuition discriminate.
  - vm_compute. intuition discriminate.
Qed.

(** ** get_range *)

(** The three ways one id can end: its build is appended, an incomplete
    build is skipped, any other exception leaves the loop at once. *)
Lemma get_range_loop_appends (id : Z) (ids : list Z) (allow : bool)
  (acc : list (option Build.t)) (st st' : BuildStore.t) (build : option Build.t) :
  BuildStore.get id allow st = (Ok build, st') ->
  BuildStore.get_range_loop (id :: ids) allow acc st =
  BuildStore.get_range_loop ids allow (acc ++ [build]) st'.
Proof. intros H. simpl. now rewrite H. Qed.

Lemma get_range_loop_skips_incomplete (id : Z) (ids : list Z) (allow : bool)
  (acc : list (option Build.t)) (st st' : BuildStore.t) :
  BuildStore.get id allow st = (Raise IncompleteBuild, st') ->
  BuildStore.get_range_loop (id :: ids) allow acc st =
  BuildStore.get_range_loop ids allow acc st'.
Proof. intros H. simpl. now rewrite H. Qed.

Lemma get_range_loop_propagates (id : Z) (ids : list Z) (allow : bool)
  (acc : list (option Build.t)) (st st' : BuildStore.t) (e : exn) :
  BuildStore.get id allow st = (Raise e, st') ->
  e <> IncompleteBuild ->
  BuildStore.get_range_loop (id :: ids) allow acc st = (Raise e, st').
Proof.
  intros H He. simpl. rewrite H. destruct e; try reflexivity. now destruct He.
Qed.

(** The ids of [get_range(start, end)] are those of (start, end]. *)
Lemma py_range_In (lo hi i : Z) : In i (py_range lo hi) <-> lo <= i < hi.
Proof.
  unfold py_range. rewrite in_map_iff. split.
  - intros [k [<- Hk]]. apply in_seq in Hk. lia.
  - intros Hi. exists (Z.to_nat (i - lo)). split; [lia|].
    apply in_seq. lia.
Qed.

(** C6: [get_range(0, 1)] on a store that holds no build.  There is no
    build with an id in (0, 1], yet the list returned is not empty: the
    [None] that [get] answers for the missing id is appended to it. *)
Theorem get_range_appends_none_for_missing_id :
  BuildStore.get_range 0 1 false Examples.empty_store
  = (Ok [None], Examples.empty_store).
Proof. reflexivity. Qed.

(** With one build stored and three ids asked for, the list has three
    entries, two of them [None]. *)
Example get_range_past_the_last_build :
  exists build,
    fst (BuildStore.get_range 0 3 true (BuildStore.restart Examples.store_of_one))
    = Ok [Some build; None; None].
Proof. eexists. reflexivity. Qed.

(** ** get_range over ids that load or are incomplete *)

Lemma OrderedDict_get_set_other {V : Type} (k k' : Z) (v : V) (d : OrderedDict.t V) :
  k <> k' -> OrderedDict.get k' (OrderedDict.set k v d) = OrderedDict.get k' d.
Proof.
  intros Hne. induction d as [|[k0 v0] d IH]; simpl.
  - destruct (k' =? k) eqn:E; [apply Z.eqb_eq in E; congruence | reflexivity].
  - destruct (k =? k0) eqn:E; simpl.
    + apply Z.eqb_eq in E. subst k0.
      destruct (k' =? k) eqn:E'; [apply Z.eqb_eq in E'; congruence | reflexivity].
    + now rewrite IH.
Qed.

(** [get] never touches the session, and changes the cache at most at the
    id it was asked for. *)
Lemma get_frame (id : Z) (allow : bool) (st : BuildStore.t) :
  BuildStore._session (snd (BuildStore.get id allow st)) = BuildStore._session st /\
  forall k, k <> id ->
    OrderedDict.get k (BuildStore._cached_builds_by_id (snd (BuildStore.get id allow st)))
    = OrderedDict.get k (BuildStore._cached_builds_by_id st).
Proof.
  unfold BuildStore.get.
  destruct (OrderedDict.get id (BuildStore._cached_builds_by_id st)); [now split|].
  destruct (BuildStore._reconstruct_build id allow (BuildStore._session st))
    as [[build|]|e|]; simpl; split; try reflexivity.
  intros k Hk. apply OrderedDict_get_set_other. congruence.
Qed.

(** What [get] answers depends on the session and on the cache at that id
    only. *)
Lemma get_outcome_local (id : Z) (allow : bool) (st1 st2 : BuildStore.t) :
  BuildStore._session st1 = BuildStore._session st2 ->
  OrderedDict.get id (BuildStore._cached_builds_by_id st1)
  = OrderedDict.get id (BuildStore._cached_builds_by_id st2) ->
  fst (BuildStore.get id allow st1) = fst (BuildStore.get id allow st2).
Proof.
  intros Hs Hc. unfold BuildStore.get. rewrite Hs, Hc.
  destruct (OrderedDict.get id (BuildStore._cached_builds_by_id st2)); [reflexivity|].
  destruct (BuildStore._reconstruct_build id allow (BuildStore._session st2))
    as [[build|]|e|]; reflexivity.
Qed.

Lemma py_range_NoDup (lo hi : Z) : NoDup (py_range lo hi).
Proof.
  unfold py_range. apply Finite.Injective_map_NoDup; [|apply seq_NoDup].
  intros i j Hij. lia.
Qed.

(** Over distinct ids each of which either loads or is incomplete, the loop
    returns, in order, what [get] answers on the store it started from,
    the incomplete ids left out. *)
Lemma get_range_loop_spec (allow : bool) (st0 : BuildStore.t) (ids : list Z) :
  NoDup ids ->
  (forall id, In id ids ->
     (exists b, fst (BuildStore.get id allow st0) = Ok b) \/
     fst (BuildStore.get id allow st0) = Raise IncompleteBuild) ->
  forall (acc : list (option Build.t)) (st : BuildStore.t),
    BuildStore._session st = BuildStore._session st0 ->
    (forall id, In id ids ->
       OrderedDict.get id (BuildStore._cached_builds_by_id st)
       = OrderedDict.get id (BuildStore._cached_builds_by_id st0)) ->
    fst (BuildStore.get_range_loop ids allow acc st) =
    Ok (acc ++ flat_map
                 (fun id => match fst (BuildStore.get id allow st0) with
                            | Ok b => [b]
                            | _ => []
                            end) ids).
Proof.
  induction ids as [|id ids IH]; intros Hnodup Hall acc st Hs Hc; simpl.
  - now rewrite app_nil_r.
  - inversion Hnodup as [|? ? Hnotin Hnodup']; subst.
    pose proof (get_outcome_local id allow st st0 Hs (Hc id (or_introl eq_refl)))
      as Hsame.
    destruct (get_frame id allow st) as [Hs' Hc'].
    assert (Hnext : forall k, In k ids ->
              OrderedDict.get k
                (BuildStore._cached_builds_by_id (snd (BuildStore.get id allow st)))
              = OrderedDict.get k (BuildStore._cached_builds_by_id st0)).
    { intros k Hk. rewrite Hc'; [apply Hc; now right|].
      intros ->. contradiction. }
    assert (Hall' : forall k, In k ids ->
              (exists b, fst (BuildStore.get k allow st0) = Ok b) \/
              fst (BuildStore.get k allow st0) = Raise IncompleteBuild)
      by (intros k Hk; apply Hall; now right).
    destruct (BuildStore.get id allow st) as [r st'] eqn:Hget. simpl in *.
    rewrite Hsame.
    destruct (Hall id (or_introl eq_refl)) as [[b Hb]|Hinc].
    + rewrite Hb. simpl.
      rewrite (IH Hnodup' Hall' _ st' (eq_trans Hs' Hs) Hnext).
      now rewrite <- app_assoc.
    + rewrite Hinc. simpl.
      now rewrite (IH Hnodup' Hall' _ st' (eq_trans Hs' Hs) Hnext).
Qed.

(** X18: when every id of (start, end] either loads or is incomplete,
    [get_range] returns, in increasing order of the ids, what [get] answers
    for each of them on the store it was given, and leaves out those that
    are incomplete. *)
Lemma get_range_spec (start end_ : Z) (allow : bool) (st : BuildStore.t) :
  (forall id, start < id <= end_ ->
     (exists b, fst (BuildStore.get id allow st) = Ok b) \/
     fst (BuildStore.get id allow st) = Raise IncompleteBuild) ->
  fst (BuildStore.get_range start end_ allow st) =
  Ok (flat_map
        (fun id => match fst (BuildStore.get id allow st) with
                   | Ok b => [b]
                   | _ => []
                   end) (py_range (start + 1) (end_ + 1))).
Proof.
  intros Hall. unfold BuildStore.get_range.
  rewrite (get_range_loop_spec allow st (py_range_NoDup _ _)); try reflexivity.
  intros id Hid. apply py_range_In in Hid. apply Hall. lia.
Qed.

(** ** Round trip through the database *)

(** C2: a build one of whose subjobs owns no atom is added to an empty
    store; a store reopened on that database cannot load it again:
    [get] raises [KeyError] where it looks the subjob up among the atom
    rows. *)
Theorem get_after_add_raises_for_empty_subjob :
  let st := snd (BuildStore.add Examples.build_with_empty_subjob Examples.empty_store) in
  Build._build_id (fst (BuildStore.add Examples.build_with_empty_subjob Examples.empty_store))
    = Some 1 /\
  BuildStore.get 1 true (BuildStore.restart st) = (Raise KeyError, BuildStore.restart st).
Proof. split; reflexivity. Qed.

(** ** What add leaves in the database *)

Lemma generated_key_fresh (s : Session.t) :
  forall r, In r (builds (Session.view s)) ->
            BuildSchema.build_id r < Session.generated_key s.
Proof.
  unfold Session.generated_key. generalize (builds (Session.view s)).
  intros rows. induction rows as [|r0 rows IH]; intros r Hr;
    cbn [map fold_right In] in *.
  - destruct Hr.
  - destruct Hr as [->|Hr]; [lia|]. specialize (IH r Hr). lia.
Qed.

Lemma find_app_last {A : Type} (p : A -> bool) (old : list A) (x : A) :
  (forall y, In y old -> p y = false) -> p x = true ->
  find p (old ++ [x]) = Some x.
Proof.
  intros Hold Hx. induction old as [|y old IH]; simpl.
  - now rewrite Hx.
  - rewrite (Hold y (or_introl eq_refl)). apply IH.
    intros z Hz. apply Hold. now right.
Qed.

Lemma filter_old_then_added {A : Type} (p : A -> bool) (old new : list A) :
  (forall x, In x old -> p x = false) ->
  (forall x, In x new -> p x = true) ->
  filter p (old ++ new) = new.
Proof.
  intros Hold Hnew.
  now rewrite filter_app, (filter_none _ _ Hold), (filter_all _ _ Hnew).
Qed.

(** [_store_build] returns the generated key; everything it wrote is
    committed: the build row and, under its id, the child rows of the
    build. *)
Lemma _store_build_spec (build : Build.t) (s : Session.t) :
  let build_id := Session.generated_key s in
  let v := Session.view s in
  let db :=
    mkDatabase (builds v ++ [build_row build_id build])
      (failed_artifact_directories v ++ failed_directory_rows build_id build)
      (failed_subjob_atom_pairs v ++ failed_pair_rows build_id build)
      (subjobs v ++ subjob_rows build_id build)
      (atoms v ++ atom_rows build_id build) in
  fst (BuildStore._store_build build s) = build_id /\
  Session.committed (snd (BuildStore._store_build build s)) = db /\
  Session.view (snd (BuildStore._store_build build s)) = db.
Proof.
  unfold BuildStore._store_build. cbv zeta.
  rewrite add_subjobs_and_atoms_spec, add_failed_subjob_atom_pairs_spec,
    add_failed_artifact_directories_spec.
  destruct s as [c [b f p sj a] l]. simpl. auto.
Qed.

Lemma BuildState_name_round_trip (st : BuildState) :
  BuildState_of_name (BuildState_name st) = Ok st.
Proof. destruct st; reflexivity. Qed.

(** ** Grouping the atom rows by subjob *)

Lemma setdefault_append_new {V : Type} (k : Z) (x : V) (d : OrderedDict.t (list V)) :
  ~ In k (OrderedDict.keys d) ->
  OrderedDict.setdefault_append k x d = d ++ [(k, [x])].
Proof.
  induction d as [|[k0 xs] d IH]; intros Hk; simpl; [reflexivity|].
  simpl in Hk. destruct (k =? k0) eqn:E.
  - apply Z.eqb_eq in E. subst. tauto.
  - rewrite IH; tauto.
Qed.

Lemma setdefault_append_last {V : Type} (k : Z) (x : V) (xs : list V)
  (d : OrderedDict.t (list V)) :
  ~ In k (OrderedDict.keys d) ->
  OrderedDict.setdefault_append k x (d ++ [(k, xs)]) = d ++ [(k, xs ++ [x])].
Proof.
  induction d as [|[k0 ys] d IH]; intros Hk; simpl.
  - now rewrite Z.eqb_refl.
  - simpl in Hk. destruct (k =? k0) eqn:E.
    + apply Z.eqb_eq in E. subst. tauto.
    + rewrite IH; tauto.
Qed.

Lemma atom_of_row_atom_row (build_id subjob_id : Z) (atom : Atom.t) :
  BuildStore.atom_of_row (BuildStore.atom_row build_id subjob_id atom)
  = adopt subjob_id atom.
Proof. reflexivity. Qed.

Section Grouping.

Variable build_id : Z.

Let group (d : OrderedDict.t (list Atom.t)) (rows : list AtomsSchema.t) :=
  fold_left
    (fun d atom =>
       OrderedDict.setdefault_append (AtomsSchema.subjob_id atom)
         (BuildStore.atom_of_row atom) d)
    rows d.

(** More atom rows of the subjob that was grouped last join its list. *)
Lemma group_more (k : Z) (atoms_ : list Atom.t) :
  forall (xs : list Atom.t) (d : OrderedDict.t (list Atom.t)),
    ~ In k (OrderedDict.keys d) ->
    group (d ++ [(k, xs)]) (map (BuildStore.atom_row build_id k) atoms_)
    = d ++ [(k, xs ++ map (adopt k) atoms_)].
Proof.
  unfold group.
  induction atoms_ as [|a atoms_ IH]; intros xs d Hk; simpl.
  - now rewrite app_nil_r.
  - rewrite setdefault_append_last by assumption.
    rewrite IH by assumption. now rewrite <- app_assoc.
Qed.

(** The atom rows of a subjob that owns at least one atom open a new
    entry. *)
Lemma group_subjob (k : Z) (atoms_ : list Atom.t) (d : OrderedDict.t (list Atom.t)) :
  atoms_ <> [] ->
  ~ In k (OrderedDict.keys d) ->
  group d (map (BuildStore.atom_row build_id k) atoms_)
  = d ++ [(k, map (adopt k) atoms_)].
Proof.
  intros Hne Hk. destruct atoms_ as [|a atoms_]; [congruence|].
  unfold group. simpl. rewrite setdefault_append_new by assumption.
  apply (group_more k atoms_ [adopt k a] d Hk).
Qed.

(** The atom rows of a subjob that owns none leave no trace. *)
Lemma group_empty_subjob (k : Z) (d : OrderedDict.t (list Atom.t)) :
  group d (map (BuildStore.atom_row build_id k) []) = d.
Proof. reflexivity. Qed.

Lemma group_all (subjobs_ : OrderedDict.t Subjob.t) :
  forall d : OrderedDict.t (list Atom.t),
    NoDup (OrderedDict.keys d ++ OrderedDict.keys subjobs_) ->
    (forall k sj, In (k, sj) subjobs_ -> Subjob._atoms sj <> []) ->
    group d
      (flat_map (fun '(subjob_id, subjob) =>
                   map (BuildStore.atom_row build_id subjob_id) (Subjob._atoms subjob))
         subjobs_)
    = d ++ map (fun '(k, sj) => (k, map (adopt k) (Subjob._atoms sj))) subjobs_.
Proof.
  induction subjobs_ as [|[k sj] subjobs_ IH]; intros d Hnodup Hatoms; simpl.
  - now rewrite app_nil_r.
  - unfold group in *. rewrite fold_left_app.
    pose proof (NoDup_remove_2 _ _ _ Hnodup) as Hk.
    fold (group d (map (BuildStore.atom_row build_id k) (Subjob._atoms sj))).
    rewrite group_subjob.
    + rewrite IH.
      * now rewrite <- app_assoc.
      * unfold OrderedDict.keys in *. rewrite map_app. simpl.
        rewrite <- app_assoc. exact Hnodup.
      * intros k' sj' Hin. apply (Hatoms k' sj'). now right.
    + apply (Hatoms k sj). now left.
    + intros Hin. apply Hk. apply in_or_app. now left.
Qed.

End Grouping.

(** ** Rebuilding the subjob mapping *)

Lemma OrderedDict_get_In {V : Type} (k : Z) (v : V) (d : OrderedDict.t V) :
  NoDup (OrderedDict.keys d) -> In (k, v) d -> OrderedDict.get k d = Some v.
Proof.
  induction d as [|[k0 v0] d IH]; intros Hnodup Hin; simpl in *; [destruct Hin|].
  inversion Hnodup as [|? ? Hnotin Hnodup']; subst.
  destruct Hin as [Hin|Hin].
  - injection Hin as -> ->. now rewrite Z.eqb_refl.
  - destruct (k =? k0) eqn:E; [|now apply IH].
    apply Z.eqb_eq in E. subst k0. exfalso. apply Hnotin.
    unfold OrderedDict.keys. apply in_map_iff. now exists (k, v).
Qed.

Lemma OrderedDict_set_new {V : Type} (k : Z) (v : V) (d : OrderedDict.t V) :
  ~ In k (OrderedDict.keys d) -> OrderedDict.set k v d = d ++ [(k, v)].
Proof.
  induction d as [|[k0 v0] d IH]; intros Hk; simpl; [reflexivity|].
  simpl in Hk. destruct (k =? k0) eqn:E.
  - apply Z.eqb_eq in E. subst. tauto.
  - rewrite IH; tauto.
Qed.

Lemma restored_subjobs_keys (build_id : Z) (d : OrderedDict.t Subjob.t) :
  OrderedDict.keys (restored_subjobs build_id d) = OrderedDict.keys d.
Proof.
  unfold restored_subjobs, OrderedDict.keys. rewrite map_map.
  apply map_ext. now intros [k sj].
Qed.

(** With every subjob's atoms grouped under its id, the subjob loop of
    [_reconstruct_build] rebuilds the mapping entry by entry. *)
Lemma subjob_loop_restores (build_id : Z)
  (atoms_by_subjob_id : OrderedDict.t (list Atom.t)) (d : OrderedDict.t Subjob.t) :
  (forall k sj, In (k, sj) d ->
     OrderedDict.get k atoms_by_subjob_id = Some (map (adopt k) (Subjob._atoms sj))) ->
  forall acc : OrderedDict.t Subjob.t,
    NoDup (OrderedDict.keys acc ++ OrderedDict.keys d) ->
    foldM
      (fun subjobs subjob =>
         match OrderedDict.get (SubjobsSchema.subjob_id subjob) atoms_by_subjob_id with
         | None => Raise KeyError
         | Some atoms =>
             Ok (OrderedDict.set (SubjobsSchema.subjob_id subjob)
                   {| Subjob._build_id := Some build_id;
                      Subjob._subjob_id := SubjobsSchema.subjob_id subjob;
                      Subjob._atoms := atoms;
                      Subjob.completed := SubjobsSchema.completed subjob |} subjobs)
         end)
      (map (fun '(subjob_id, subjob) =>
              SubjobsSchema.mk subjob_id build_id (Subjob.completed subjob)) d)
      acc
    = Ok (acc ++ restored_subjobs build_id d).
Proof.
  induction d as [|[k sj] d IH]; intros Hget acc Hnodup; simpl.
  - now rewrite app_nil_r.
  - rewrite (Hget k sj (or_introl eq_refl)). simpl.
    rewrite OrderedDict_set_new.
    + rewrite IH.
      * now rewrite <- app_assoc.
      * intros k' sj' Hin. apply Hget. now right.
      * unfold OrderedDict.keys in *. rewrite map_app. simpl.
        rewrite <- app_assoc. exact Hnodup.
    + intros Hin. apply (NoDup_remove_2 _ _ _ Hnodup).
      apply in_or_app. now left.
Qed.

Lemma add_spec (build : Build.t) (st : BuildStore.t) :
  BuildStore.add build st =
  let r := BuildStore._store_build build (BuildStore._session st) in
  (BuildStore.with_build_id build (fst r),
   BuildStore.mk
     (OrderedDict.set (fst r) (BuildStore.with_build_id build (fst r))
        (BuildStore._cached_builds_by_id st))
     (snd r)).
Proof.
  unfold BuildStore.add.
  now destruct (BuildStore._store_build build (BuildStore._session st)).
Qed.

(** ** The round trip *)

(** Reconstruction from a database that holds the rows of [build] under a
    fresh id gives back its scalar fields, its state and timestamps, and
    its subjobs with their atoms, provided no subjob is without atoms. *)
Lemma reconstruct_stored (build : Build.t) (build_id : Z) (v : Database) (s : Session.t) :
  Session.view s =
    mkDatabase (builds v ++ [build_row build_id build])
      (failed_artifact_directories v ++ failed_directory_rows build_id build)
      (failed_subjob_atom_pairs v ++ failed_pair_rows build_id build)
      (subjobs v ++ subjob_rows build_id build)
      (atoms v ++ atom_rows build_id build) ->
  (forall r, In r (builds v) -> (BuildSchema.build_id r =? build_id) = false) ->
  (forall r, In r (subjobs v) -> (SubjobsSchema.build_id r =? build_id) = false) ->
  (forall r, In r (atoms v) -> (AtomsSchema.build_id r =? build_id) = false) ->
  NoDup (OrderedDict.keys (Build._all_subjobs_by_id build)) ->
  (forall k sj, In (k, sj) (Build._all_subjobs_by_id build) -> Subjob._atoms sj <> []) ->
  exists loaded,
    BuildStore._reconstruct_build build_id true s = Ok (Some loaded) /\
    Build._build_id loaded = Some build_id /\
    Build.build_parameters loaded = Build.build_parameters build /\
    Build._artifacts_tar_file loaded = Build._artifacts_tar_file build /\
    Build._artifacts_zip_file loaded = Build._artifacts_zip_file build /\
    Build._error_message loaded = Build._error_message build /\
    Build._postbuild_tasks_are_finished loaded = Build._postbuild_tasks_are_finished build /\
    Build.setup_failures loaded = Build.setup_failures build /\
    Build._timing_file_path loaded = Build._timing_file_path build /\
    Build._status loaded = Build._status build /\
    (forall state,
       BuildFsm._transition_timestamps (Build._state_machine loaded) state
       = BuildFsm._transition_timestamps (Build._state_machine build) state) /\
    Build._all_subjobs_by_id loaded
    = restored_subjobs build_id (Build._all_subjobs_by_id build).
Proof.
  intros Hview Hbuilds Hsubjobs Hatoms Hnodup Hnonempty.
  unfold BuildStore._reconstruct_build, BuildStore._get_query_build_object.
  rewrite Hview. cbn [builds subjobs atoms failed_artifact_directories
                        failed_subjob_atom_pairs].
  rewrite (find_app_last _ _ _ Hbuilds) by apply Z.eqb_refl.
  rewrite (filter_old_then_added _ _ _ Hsubjobs (subjob_rows_id build_id build)).
  rewrite (filter_old_then_added _ _ _ Hatoms (atom_rows_id build_id build)).
  cbn [negb andb].
  replace (BuildSchema.state (build_row build_id build))
    with (BuildState_name (Build._status build)) by reflexivity.
  rewrite BuildState_name_round_trip. cbn [bind].
  unfold atom_rows. rewrite (group_all build_id _ []) by assumption.
  cbn [app]. unfold subjob_rows.
  assert (Hgrouped : forall k sj, In (k, sj) (Build._all_subjobs_by_id build) ->
            OrderedDict.get k
              (map (fun '(k, sj) => (k, map (adopt k) (Subjob._atoms sj)))
                 (Build._all_subjobs_by_id build))
            = Some (map (adopt k) (Subjob._atoms sj))).
  { intros k sj Hin. apply OrderedDict_get_In.
    - unfold OrderedDict.keys in *. rewrite map_map.
      erewrite map_ext; [exact Hnodup | now intros [k' sj']].
    - apply in_map_iff. now exists (k, sj). }
  rewrite (subjob_loop_restores build_id _ _ Hgrouped []) by assumption.
  cbn [bind app]. rewrite place_subjobs_total. cbn [bind].
  eexists. split; [reflexivity|].
  repeat split. intros []; reflexivity.
Qed.

(** An atom that already names its subjob is unchanged by the trip. *)
Lemma adopt_own (subjob_id : Z) (atom : Atom.t) :
  Atom.subjob_id atom = Some subjob_id -> adopt subjob_id atom = atom.
Proof. destruct atom. simpl. now intros ->. Qed.

Lemma restored_subjobs_own (build_id : Z) (d : OrderedDict.t Subjob.t) :
  (forall k sj, In (k, sj) d ->
     Subjob._subjob_id sj = k /\
     forall a, In a (Subjob._atoms sj) -> Atom.subjob_id a = Some k) ->
  map (fun '(k, sj) => (k, Subjob._subjob_id sj, Subjob.completed sj, Subjob._atoms sj))
    (restored_subjobs build_id d)
  = map (fun '(k, sj) => (k, Subjob._subjob_id sj, Subjob.completed sj, Subjob._atoms sj)) d.
Proof.
  unfold restored_subjobs. rewrite map_map. intros Hown.
  apply map_ext_in. intros [k sj] Hin. simpl.
  destruct (Hown k sj Hin) as [-> Hatoms].
  repeat f_equal. rewrite <- (map_id (Subjob._atoms sj)) at 2.
  apply map_ext_in. intros a Ha. apply adopt_own. now apply Hatoms.
Qed.

(** X1: the round trip of [add] and [get]: on a database whose child rows all
    belong to build rows, a build whose subjobs each own at least one atom
    is added, and a store reopened on that database loads it under the id
    [add] assigned, with the scalar fields, the state, the timestamps and
    the subjobs with their atoms it was added with. *)
Lemma add_then_get_round_trip (build : Build.t) (st : BuildStore.t) :
  referential_integrity (Session.view (BuildStore._session st)) ->
  NoDup (OrderedDict.keys (Build._all_subjobs_by_id build)) ->
  (forall k sj, In (k, sj) (Build._all_subjobs_by_id build) -> Subjob._atoms sj <> []) ->
  let build_id := Session.generated_key (BuildStore._session st) in
  let st' := BuildStore.restart (snd (BuildStore.add build st)) in
  exists loaded,
    Build._build_id (fst (BuildStore.add build st)) = Some build_id /\
    BuildStore.get build_id true st'
    = (Ok (Some loaded), BuildStore.mk [(build_id, loaded)] (BuildStore._session st')) /\
    Build.build_parameters loaded = Build.build_parameters build /\
    Build._artifacts_tar_file loaded = Build._artifacts_tar_file build /\
    Build._artifacts_zip_file loaded = Build._artifacts_zip_file build /\
    Build._error_message loaded = Build._error_message build /\
    Build._postbuild_tasks_are_finished loaded = Build._postbuild_tasks_are_finished build /\
    Build.setup_failures loaded = Build.setup_failures build /\
    Build._timing_file_path loaded = Build._timing_file_path build /\
    Build._status loaded = Build._status build /\
    (forall state,
       BuildFsm._transition_timestamps (Build._state_machine loaded) state
       = BuildFsm._transition_timestamps (Build._state_machine build) state) /\
    Build._all_subjobs_by_id loaded
    = restored_subjobs build_id (Build._all_subjobs_by_id build).
Proof.
  intros [_ [_ [Hsubjobs Hatoms]]] Hnodup Hnonempty build_id st'.
  subst st'. rewrite add_spec. cbv zeta.
  destruct (_store_build_spec build (BuildStore._session st)) as [Hid [Hcommitted _]].
  fold build_id in Hid, Hcommitted. cbn [fst snd]. rewrite Hid.
  pose proof (generated_key_fresh (BuildStore._session st)) as Hfresh.
  fold build_id in Hfresh.
  assert (Hb : forall r, In r (builds (Session.view (BuildStore._session st))) ->
                 (BuildSchema.build_id r =? build_id) = false).
  { intros r Hr. apply Z.eqb_neq. specialize (Hfresh r Hr). lia. }
  assert (Hs : forall r, In r (subjobs (Session.view (BuildStore._session st))) ->
                 (SubjobsSchema.build_id r =? build_id) = false).
  { intros r Hr. apply Z.eqb_neq. destruct (Hsubjobs r Hr) as [q [Hq Heq]].
    specialize (Hfresh q Hq). lia. }
  assert (Ha : forall r, In r (atoms (Session.view (BuildStore._session st))) ->
                 (AtomsSchema.build_id r =? build_id) = false).
  { intros r Hr. apply Z.eqb_neq. destruct (Hatoms r Hr) as [q [Hq Heq]].
    specialize (Hfresh q Hq). lia. }
  destruct (@reconstruct_stored build build_id
              (Session.view (BuildStore._session st))
              (Session.reopen (snd (BuildStore._store_build build (BuildStore._session st))))
              Hcommitted Hb Hs Ha Hnodup Hnonempty)
    as [loaded [Hload Hfields]].
  exists loaded. split; [reflexivity|]. split.
  - unfold BuildStore.get, BuildStore.restart, BuildStore.new.
    cbn [BuildStore._cached_builds_by_id BuildStore._session OrderedDict.get].
    now rewrite Hload.
  - apply Hfields.
Qed.

(** The build of the examples makes the trip. *)
Example building_build_round_trip :
  exists loaded,
    BuildStore.get 1 true (BuildStore.restart Examples.store_of_one)
    = (Ok (Some loaded),
       BuildStore.mk [(1, loaded)]
         (BuildStore._session (BuildStore.restart Examples.store_of_one))) /\
    Build._status loaded = BUILDING /\
    map (fun '(k, sj) => (k, Subjob.completed sj, Subjob._atoms sj))
      (Build._all_subjobs_by_id loaded)
    = map (fun '(k, sj) => (k, Subjob.completed sj, Subjob._atoms sj))
        (Build._all_subjobs_by_id Examples.building_build).
Proof. eexists. repeat split. Qed.

(** ** Result reporting *)

Lemma get_build_keeps_scheduler_calls (build_id : Z) (m : ClusterMaster.t) :
  ClusterMaster.scheduler_calls (snd (ClusterMaster.get_build build_id m))
  = ClusterMaster.scheduler_calls m.
Proof.
  unfold ClusterMaster.get_build.
  destruct (BuildStore.get build_id false (ClusterMaster._build_store m))
    as [[[build|]|e|] st]; reflexivity.
Qed.

(** A report that the build absorbs is followed by the same single
    notification. *)
Lemma handle_result_reported_from_slave_success
  (complete_subjob : Build.t -> Z -> result Build.t)
  (slave_url : string) (build_id subjob_id : Z) (m m1 : ClusterMaster.t)
  (build build' : Build.t) :
  ClusterMaster.get_build build_id m = (Ok build, m1) ->
  complete_subjob build subjob_id = Ok build' ->
  exists m',
    ClusterMaster.handle_result_reported_from_slave complete_subjob
      slave_url build_id subjob_id m = (Ok tt, m') /\
    ClusterMaster.scheduler_calls m' =
    ClusterMaster.scheduler_calls m
    ++ [execute_next_subjob_or_free_executor build_id slave_url].
Proof.
  intros Hget Hcomplete. unfold ClusterMaster.handle_result_reported_from_slave.
  pose proof (get_build_keeps_scheduler_calls build_id m) as Hcalls.
  rewrite Hget in *. rewrite Hcomplete. simpl in *.
  eexists. split; [reflexivity|]. simpl. now rewrite Hcalls.
Qed.

(** C1: when the build is found and its [complete_subjob] raises [e], the
    call ends with that same [e], and the state the caller is left with
    already has the scheduler notification in it: exactly one
    [execute_next_subjob_or_free_executor], for this build and this slave,
    was added to the calls made so far. *)
Theorem handle_result_reported_from_slave_frees_executor_on_failure :
  forall (complete_subjob : Build.t -> Z -> result Build.t)
         (slave_url : string) (build_id subjob_id : Z) (m m1 : ClusterMaster.t)
         (build : Build.t) (e : exn),
    ClusterMaster.get_build build_id m = (Ok build, m1) ->
    complete_subjob build subjob_id = Raise e ->
    exists m',
      ClusterMaster.handle_result_reported_from_slave complete_subjob
        slave_url build_id subjob_id m = (Raise e, m') /\
      ClusterMaster.scheduler_calls m' =
      ClusterMaster.scheduler_calls m
      ++ [execute_next_subjob_or_free_executor build_id slave_url].
Proof.
  intros complete_subjob slave_url build_id subjob_id m m1 build e Hget Hcomplete.
  unfold ClusterMaster.handle_result_reported_from_slave.
  pose proof (get_build_keeps_scheduler_calls build_id m) as Hcalls.
  rewrite Hget in *. rewrite Hcomplete. simpl in *.
  eexists. split; [reflexivity|]. simpl. now rewrite Hcalls.
Qed.

(** The unit test: the write of [complete_subjob] fails. *)
Lemma handle_result_reported_from_slave_frees_executor_on_failure_witness :
  exists m',
    ClusterMaster.handle_result_reported_from_slave Examples.failing_complete_subjob
      "raphael.turtles.gov" 1 888 Examples.master_of_one
    = (Raise (RuntimeError "Write failed"), m') /\
    ClusterMaster.scheduler_calls m' =
    ClusterMaster.scheduler_calls Examples.master_of_one
    ++ [execute_next_subjob_or_free_executor 1 "raphael.turtles.gov"].
Proof.
  eapply (@handle_result_reported_from_slave_frees_executor_on_failure
            Examples.failing_complete_subjob "raphael.turtles.gov" 1 888
            Examples.master_of_one); reflexivity.
Defined.

(** ** get_slave *)

(** C9: with both selectors or with none, [get_slave] raises the caller
    error [ValueError]; with the id alone it returns a registered slave
    that has this id, or raises [ItemNotFoundError] when no registered
    slave has it; with the url alone likewise for the url. *)
Theorem get_slave_by_exactly_one_selector :
  forall (slave_id : option Z) (slave_url : option string) (m : ClusterMaster.t),
    match slave_id, slave_url with
    | Some _, Some _ | None, None =>
        ClusterMaster.get_slave slave_id slave_url m = Raise ValueError
    | Some i, None =>
        (exists s, ClusterMaster.get_slave slave_id slave_url m = Ok s /\
                   In s (ClusterMaster._all_slaves m) /\ Slave.id s = i)
        \/ (ClusterMaster.get_slave slave_id slave_url m = Raise ItemNotFoundError /\
            forall s, In s (ClusterMaster._all_slaves m) -> Slave.id s <> i)
    | None, Some u =>
        (exists s, ClusterMaster.get_slave slave_id slave_url m = Ok s /\
                   In s (ClusterMaster._all_slaves m) /\ Slave.url s = u)
        \/ (ClusterMaster.get_slave slave_id slave_url m = Raise ItemNotFoundError /\
            forall s, In s (ClusterMaster._all_slaves m) -> Slave.url s <> u)
    end.
Proof.
  intros [i|] [u|] m; simpl; try reflexivity.
  - destruct (find _ (ClusterMaster._all_slaves m)) as [s|] eqn:Hfind.
    + left. exists s. apply find_some in Hfind as [Hin Hid].
      apply Z.eqb_eq in Hid. auto.
    + right. split; [reflexivity|]. intros s Hin Hid.
      pose proof (find_none _ _ Hfind s Hin) as Hno. simpl in Hno.
      apply Z.eqb_neq in Hno. contradiction.
  - destruct (find _ (ClusterMaster._all_slaves m)) as [s|] eqn:Hfind.
    + left. exists s. apply find_some in Hfind as [Hin Hurl].
      apply String.eqb_eq in Hurl. auto.
    + right. split; [reflexivity|]. intros s Hin Hurl.
      pose proof (find_none _ _ Hfind s Hin) as Hno. simpl in Hno.
      apply String.eqb_neq in Hno. contradiction.
Qed.

(** The unit tests of [get_slave]. *)
Example get_slave_tests :
  ClusterMaster.get_slave (Some 2) None Examples.turtles = Ok Examples.leonardo /\
  ClusterMaster.get_slave None (Some "leonardo.turtles.gov") Examples.turtles
    = Ok Examples.leonardo /\
  ClusterMaster.get_slave (Some 400) None Examples.turtles = Raise ItemNotFoundError /\
  ClusterMaster.get_slave None (Some "michelangelo.turtles.gov") Examples.turtles
    = Raise ItemNotFoundError /\
  ClusterMaster.get_slave (Some 1) (Some "raphael.turtles.gov") Examples.turtles
    = Raise ValueError /\
  ClusterMaster.get_slave None None Examples.turtles = Raise ValueError.
Proof. repeat split. Qed.

(** ** Pages *)

Lemma slice_ids_length {A : Type} (lo hi : Z) (items : list A) :
  forall first_id,
    Z.of_nat (length (Pagination.slice_ids first_id lo hi items))
    <= Z.max 0 (hi - Z.max lo first_id + 1).
Proof.
  induction items as [|x items IH]; intros first_id; simpl; [lia|].
  specialize (IH (first_id + 1)).
  destruct (lo <=? first_id) eqn:Hlo; destruct (first_id <=? hi) eqn:Hhi; simpl;
    try apply Z.leb_le in Hlo; try apply Z.leb_le in Hhi;
    try apply Z.leb_gt in Hlo; try apply Z.leb_gt in Hhi; lia.
Qed.

Lemma slice_ids_past_the_end {A : Type} (lo hi : Z) (items : list A) :
  forall first_id,
    first_id + Z.of_nat (length items) <= lo ->
    Pagination.slice_ids first_id lo hi items = [].
Proof.
  induction items as [|x items IH]; intros first_id Hend; simpl; [reflexivity|].
  simpl in Hend.
  replace (lo <=? first_id) with false by (symmetry; apply Z.leb_gt; lia).
  simpl. apply IH. lia.
Qed.

(** C8: for every offset and limit, given or left to their defaults, the
    page has at most the configured maximum of items, and an offset at or
    past the size of the collection gives the empty page, not an error. *)
Theorem paginate_bounded_and_empty_past_the_end :
  forall (A : Type) (conf : Pagination.Configuration) (offset limit : option Z)
         (items : list A),
    Z.of_nat (length (Pagination.paginate conf offset limit items))
      <= Z.of_N (Pagination.pagination_max_limit conf) /\
    (Z.of_nat (length items) <= match offset with Some o => o | None => 0 end ->
     Pagination.paginate conf offset limit items = []).
Proof.
  intros A conf offset limit items. unfold Pagination.paginate.
  set (o := match offset with Some o => o | None => 0 end).
  set (l := match limit with Some l => l | None => Pagination.pagination_limit conf end).
  split.
  - pose proof (slice_ids_length (o + 1)
                  (o + Z.min l (Z.of_N (Pagination.pagination_max_limit conf)))
                  items 1) as Hlen.
    lia.
  - intros Hoffset. apply slice_ids_past_the_end. lia.
Qed.

(** An offset far past twenty items, with a limit and without. *)
Lemma paginate_bounded_and_empty_past_the_end_witness :
  Pagination.paginate Examples.test_configuration (Some 1000) (Some 5)
    Examples.twenty_ids = [] /\
  Pagination.paginate Examples.test_configuration (Some 20) None
    Examples.twenty_ids = [].
Proof.
  split.
  - apply (@paginate_bounded_and_empty_past_the_end Z Examples.test_configuration
             (Some 1000) (Some 5) Examples.twenty_ids).
    simpl. lia.
  - apply (@paginate_bounded_and_empty_past_the_end Z Examples.test_configuration
             (Some 20) None Examples.twenty_ids).
    simpl. lia.
Defined.

(** The pages the unit tests ask for with an offset and a limit, and the
    pages of the defaults. *)
Example paginate_tests :
  Pagination.paginate Examples.test_configuration (Some 3) (Some 5) Examples.twenty_ids
    = [4; 5; 6; 7; 8] /\
  Pagination.paginate Examples.test_configuration (Some 0) (Some 2) Examples.twenty_ids
    = [1; 2] /\
  Pagination.paginate Examples.test_configuration (Some 0) (Some 10) Examples.twenty_ids
    = [1; 2; 3; 4; 5; 6; 7; 8; 9; 10] /\
  Pagination.paginate Examples.test_configuration (Some 0) (Some 50) Examples.twenty_ids
    = [1; 2; 3; 4; 5; 6; 7; 8; 9; 10] /\
  Pagination.paginate Examples.test_configuration (Some 1000) (Some 5) Examples.twenty_ids
    = [] /\
  Pagination.paginate Examples.test_configuration (Some 18) None Examples.twenty_ids
    = [19; 20] /\
  Pagination.paginate Examples.test_configuration None None Examples.twenty_ids
    = [1; 2; 3; 4; 5].
Proof. repeat split. Qed.

(** * More of the build store *)

(** ** What _update_build leaves in the session *)

Lemma update_first_compose (build_id : Z) (f g : BuildSchema.t -> BuildSchema.t)
  (rows : list BuildSchema.t) :
  (forall r, BuildSchema.build_id (f r) = BuildSchema.build_id r) ->
  Session.update_first build_id g (Session.update_first build_id f rows)
  = Session.update_first build_id (fun r => g (f r)) rows.
Proof.
  intros Hf. induction rows as [|r rows IH]; simpl; [reflexivity|].
  destruct (BuildSchema.build_id r =? build_id) eqn:E; simpl.
  - now rewrite Hf, E.
  - now rewrite E, IH.
Qed.

(** The two groups of assignments together rewrite every column but the
    key. *)
Lemma assignments_make_build_row (build : Build.t) (q : BuildSchema.t) :
  BuildStore.assign_fsm build (BuildStore.assign_scalars build q)
  = build_row (BuildSchema.build_id q) build.
Proof. reflexivity. Qed.

Lemma update_first_ids (build_id : Z) (f : BuildSchema.t -> BuildSchema.t)
  (rows : list BuildSchema.t) :
  (forall r, BuildSchema.build_id (f r) = BuildSchema.build_id r) ->
  map BuildSchema.build_id (Session.update_first build_id f rows)
  = map BuildSchema.build_id rows.
Proof.
  intros Hf. induction rows as [|r rows IH]; simpl; [reflexivity|].
  destruct (BuildSchema.build_id r =? build_id); simpl.
  - now rewrite Hf.
  - now rewrite IH.
Qed.

Lemma find_update_first_same (build_id : Z) (f : BuildSchema.t -> BuildSchema.t)
  (rows : list BuildSchema.t) :
  (forall r, BuildSchema.build_id (f r) = BuildSchema.build_id r) ->
  find (fun r => BuildSchema.build_id r =? build_id)
    (Session.update_first build_id f rows)
  = option_map f (find (fun r => BuildSchema.build_id r =? build_id) rows).
Proof.
  intros Hf. induction rows as [|r rows IH]; simpl; [reflexivity|].
  destruct (BuildSchema.build_id r =? build_id) eqn:E; simpl.
  - now rewrite Hf, E.
  - now rewrite E, IH.
Qed.

Lemma find_update_first_other (build_id other : Z) (f : BuildSchema.t -> BuildSchema.t)
  (rows : list BuildSchema.t) :
  (forall r, BuildSchema.build_id (f r) = BuildSchema.build_id r) ->
  other <> build_id ->
  find (fun r => BuildSchema.build_id r =? other)
    (Session.update_first build_id f rows)
  = find (fun r => BuildSchema.build_id r =? other) rows.
Proof.
  intros Hf Hne. induction rows as [|r rows IH]; simpl; [reflexivity|].
  destruct (BuildSchema.build_id r =? build_id) eqn:E; simpl.
  - rewrite Hf. apply Z.eqb_eq in E.
    replace (BuildSchema.build_id r =? other) with false; [reflexivity|].
    symmetry. apply Z.eqb_neq. congruence.
  - now rewrite IH.
Qed.

(** The view and the committed database after [_update_build] of a build
    whose id has a row. *)
Lemma _update_build_spec (build : Build.t) (s : Session.t) (build_id : Z)
  (q : BuildSchema.t) :
  Build.build_id build = Some build_id ->
  find (fun r => BuildSchema.build_id r =? build_id) (builds (Session.view s)) = Some q ->
  let v := Session.view s in
  let rows := Session.update_first build_id
                (fun r => build_row (BuildSchema.build_id r) build) (builds v) in
  let dirs :=
    match Build._build_artifact build with
    | Some _ =>
        filter (fun r => negb (FailedArtifactDirectoriesSchema.build_id r =? build_id))
          (failed_artifact_directories v) ++ failed_directory_rows build_id build
    | None => failed_artifact_directories v
    end in
  let pairs :=
    match Build._build_artifact build with
    | Some _ =>
        filter (fun r => negb (FailedSubjobAtomPairsSchema.build_id r =? build_id))
          (failed_subjob_atom_pairs v) ++ failed_pair_rows build_id build
    | None => failed_subjob_atom_pairs v
    end in
  let kept_subjobs :=
    filter (fun r => negb (SubjobsSchema.build_id r =? build_id)) (subjobs v) in
  let kept_atoms :=
    filter (fun r => negb (AtomsSchema.build_id r =? build_id)) (atoms v) in
  fst (BuildStore._update_build build s) = Ok tt /\
  Session.view (snd (BuildStore._update_build build s))
    = mkDatabase rows dirs pairs
        (kept_subjobs ++ subjob_rows build_id build)
        (kept_atoms ++ atom_rows build_id build) /\
  Session.committed (snd (BuildStore._update_build build s))
    = mkDatabase rows dirs pairs kept_subjobs kept_atoms.
Proof.
  intros Hid Hrow. cbv zeta.
  unfold BuildStore._update_build. rewrite Hid.
  unfold BuildStore._get_query_build_object. rewrite Hrow.
  rewrite add_subjobs_and_atoms_spec.
  assert (Hkey : forall r, BuildSchema.build_id (BuildStore.assign_scalars build r)
                           = BuildSchema.build_id r) by reflexivity.
  destruct (Build._build_artifact build) as [artifact|] eqn:Hart.
  - rewrite add_failed_subjob_atom_pairs_spec, add_failed_artifact_directories_spec.
    destruct s as [c [b f p sj a] l]. cbn -[Session.update_first build_row].
    rewrite (update_first_compose _ _ _ _ Hkey). auto.
  - destruct s as [c [b f p sj a] l]. cbn -[Session.update_first build_row].
    rewrite (update_first_compose _ _ _ _ Hkey). auto.
Qed.

Lemma has_row_ids (build_id : Z) (db : Database) :
  has_row build_id db <-> In build_id (map BuildSchema.build_id (builds db)).
Proof.
  unfold has_row. split.
  - intros [q Hq]. apply find_some in Hq as [Hin Hid].
    apply Z.eqb_eq in Hid. apply in_map_iff. now exists q.
  - intros Hin. apply in_map_iff in Hin as [q [Hid Hin]].
    destruct (find (fun r => BuildSchema.build_id r =? build_id) (builds db))
      as [q'|] eqn:Hfind; [now exists q'|].
    pose proof (find_none _ _ Hfind q Hin) as Hno. simpl in Hno.
    apply Z.eqb_neq in Hno. contradiction.
Qed.

Lemma no_row_find (build_id : Z) (db : Database) :
  ~ has_row build_id db <->
  find (fun r => BuildSchema.build_id r =? build_id) (builds db) = None.
Proof.
  unfold has_row. split.
  - intros Hno. destruct (find _ (builds db)) as [q|]; [|reflexivity].
    exfalso. apply Hno. now exists q.
  - intros Hnone [q Hq]. congruence.
Qed.

(** [_update_build] has two outcomes: the build has no row and nothing
    happens, or it has one and the update goes through. *)
Lemma _update_build_cases (build : Build.t) (s : Session.t) :
  (BuildStore._update_build build s = (Raise ItemNotFoundError, s) /\
   forall build_id, Build.build_id build = Some build_id ->
                    ~ has_row build_id (Session.view s))
  \/ (exists build_id q,
        Build.build_id build = Some build_id /\
        find (fun r => BuildSchema.build_id r =? build_id) (builds (Session.view s))
          = Some q /\
        fst (BuildStore._update_build build s) = Ok tt).
Proof.
  destruct (Build.build_id build) as [build_id|] eqn:Hid.
  - destruct (find (fun r => BuildSchema.build_id r =? build_id)
                (builds (Session.view s))) as [q|] eqn:Hrow.
    + right. exists build_id, q. repeat split; try assumption.
      now apply (_update_build_spec build s Hid Hrow).
    + left. split.
      * unfold BuildStore._update_build, BuildStore._get_query_build_object.
        now rewrite Hid, Hrow.
      * intros k Hk. injection Hk as <-. now apply no_row_find.
  - left. split.
    + unfold BuildStore._update_build. now rewrite Hid.
    + intros k Hk. discriminate.
Qed.

(** No build row appears or disappears in [_update_build]. *)
Lemma _update_build_keeps_ids (build : Build.t) (s : Session.t) :
  map BuildSchema.build_id (builds (Session.view (snd (BuildStore._update_build build s))))
  = map BuildSchema.build_id (builds (Session.view s)).
Proof.
  destruct (_update_build_cases build s) as [[Hraise _]|[build_id [q [Hid [Hrow _]]]]].
  - now rewrite Hraise.
  - destruct (_update_build_spec build s Hid Hrow) as [_ [Hview _]].
    rewrite Hview. cbn [builds]. now apply update_first_ids.
Qed.

Lemma filter_filter_implied {A : Type} (p q : A -> bool) (l : list A) :
  (forall x, p x = true -> q x = true) ->
  filter p (filter q l) = filter p l.
Proof.
  intros Himp. induction l as [|x l IH]; simpl; [reflexivity|].
  destruct (q x) eqn:Hq; simpl.
  - now rewrite IH.
  - destruct (p x) eqn:Hp; [|exact IH].
    rewrite (Himp x Hp) in Hq. discriminate.
Qed.

(** Rows of another build pass through a delete for this one and the
    inserts that follow it. *)
Lemma filter_other_build {A : Type} (id_of : A -> Z) (build_id other : Z)
  (old new : list A) :
  other <> build_id ->
  (forall x, In x new -> (id_of x =? build_id) = true) ->
  filter (fun x => id_of x =? other)
    (filter (fun x => negb (id_of x =? build_id)) old ++ new)
  = filter (fun x => id_of x =? other) old.
Proof.
  intros Hne Hnew. rewrite filter_app, filter_filter_implied.
  - rewrite (filter_none (fun x => id_of x =? other) new); [apply app_nil_r|].
    intros x Hx. apply Hnew in Hx. apply Z.eqb_eq in Hx.
    apply Z.eqb_neq. congruence.
  - intros x Hx. apply Z.eqb_eq in Hx. apply negb_true_iff, Z.eqb_neq. congruence.
Qed.

(** What the database answers for another id is the same before and
    after [_update_build]. *)
Lemma _update_build_other_id (build : Build.t) (s : Session.t) (other : Z) :
  Build.build_id build <> Some other ->
  BuildStore._get_query_build_object other (snd (BuildStore._update_build build s))
  = BuildStore._get_query_build_object other s.
Proof.
  intros Hother.
  destruct (_update_build_cases build s) as [[Hraise _]|[build_id [q [Hid [Hrow _]]]]].
  - now rewrite Hraise.
  - assert (Hne : other <> build_id) by congruence.
    destruct (_update_build_spec build s Hid Hrow) as [_ [Hview _]].
    unfold BuildStore._get_query_build_object. rewrite Hview.
    cbn [builds subjobs atoms failed_artifact_directories failed_subjob_atom_pairs].
    rewrite (@find_update_first_other build_id other
               (fun r => build_row (BuildSchema.build_id r) build) _
               (fun r => eq_refl) Hne).
    rewrite (filter_other_build SubjobsSchema.build_id _ _ Hne (subjob_rows_id build_id build)).
    rewrite (filter_other_build AtomsSchema.build_id _ _ Hne (atom_rows_id build_id build)).
    destruct (Build._build_artifact build) eqn:Hart.
    + rewrite (filter_other_build FailedArtifactDirectoriesSchema.build_id _ _ Hne
                 (failed_directory_rows_id build_id build)).
      now rewrite (filter_other_build FailedSubjobAtomPairsSchema.build_id _ _ Hne
                     (failed_pair_rows_id build_id build)).
    + reflexivity.
Qed.

(** ** Reconstruction reads the rows of one id *)

Lemma _reconstruct_build_reads_query (build_id : Z) (allow : bool) (s1 s2 : Session.t) :
  BuildStore._get_query_build_object build_id s1
  = BuildStore._get_query_build_object build_id s2 ->
  BuildStore._reconstruct_build build_id allow s1
  = BuildStore._reconstruct_build build_id allow s2.
Proof.
  intros Hquery. unfold BuildStore._reconstruct_build. now rewrite Hquery.
Qed.

Lemma save_session (build : Build.t) (st : BuildStore.t) :
  BuildStore.save build st =
  (fst (BuildStore._update_build build (BuildStore._session st)),
   BuildStore.mk (BuildStore._cached_builds_by_id st)
     (snd (BuildStore._update_build build (BuildStore._session st)))).
Proof.
  unfold BuildStore.save.
  now destruct (BuildStore._update_build build (BuildStore._session st)).
Qed.

(** X10: saving one build leaves what a reconstruction of any other id
    yields as it was. *)
Theorem save_leaves_other_builds :
  forall (build : Build.t) (st : BuildStore.t) (other : Z) (allow : bool),
    Build.build_id build <> Some other ->
    BuildStore._reconstruct_build other allow
      (BuildStore._session (snd (BuildStore.save build st)))
    = BuildStore._reconstruct_build other allow (BuildStore._session st).
Proof.
  intros build st other allow Hother. rewrite save_session. cbn [snd BuildStore._session].
  apply _reconstruct_build_reads_query. now apply _update_build_other_id.
Qed.

(** From a database that holds the state of a loadable build under an
    id, reconstruction gives that state back; with the gate closed it does
    so for a finished build. *)
Lemma reconstruct_of_stored (build : Build.t) (build_id : Z) (allow : bool)
  (s : Session.t) :
  stored build_id build (Session.view s) ->
  loadable build ->
  allow = true \/ Build._status build = FINISHED ->
  exists loaded,
    BuildStore._reconstruct_build build_id allow s = Ok (Some loaded) /\
    restores build_id build loaded.
Proof.
  intros [Hfind [Hsubjobs Hatoms]] [Hnodup Hnonempty] Hgate.
  unfold BuildStore._reconstruct_build, BuildStore._get_query_build_object.
  rewrite Hfind, Hsubjobs, Hatoms.
  replace (negb allow && negb (BuildSchema.completed (build_row build_id build)))
    with false.
  2:{ destruct Hgate as [->|Hfinished]; [reflexivity|].
      replace (BuildSchema.completed (build_row build_id build))
        with (BuildState_eqb (Build._status build) FINISHED) by reflexivity.
      rewrite Hfinished. now destruct allow. }
  replace (BuildSchema.state (build_row build_id build))
    with (BuildState_name (Build._status build)) by reflexivity.
  rewrite BuildState_name_round_trip. cbn [bind].
  unfold atom_rows. rewrite (group_all build_id _ []) by assumption.
  cbn [app]. unfold subjob_rows.
  assert (Hgrouped : forall k sj, In (k, sj) (Build._all_subjobs_by_id build) ->
            OrderedDict.get k
              (map (fun '(k, sj) => (k, map (adopt k) (Subjob._atoms sj)))
                 (Build._all_subjobs_by_id build))
            = Some (map (adopt k) (Subjob._atoms sj))).
  { intros k sj Hin. apply OrderedDict_get_In.
    - unfold OrderedDict.keys in *. rewrite map_map.
      erewrite map_ext; [exact Hnodup | now intros [k' sj']].
    - apply in_map_iff. now exists (k, sj). }
  rewrite (subjob_loop_restores build_id _ _ Hgrouped []) by assumption.
  cbn [bind app]. rewrite place_subjobs_total. cbn [bind].
  eexists. split; [reflexivity|].
  unfold restores. repeat split. intros []; reflexivity.
Qed.

(** With the gate closed, a stored build that is not finished is refused. *)
Lemma reconstruct_of_stored_unfinished (build : Build.t) (build_id : Z) (s : Session.t) :
  find (fun r => BuildSchema.build_id r =? build_id) (builds (Session.view s))
    = Some (build_row build_id build) ->
  Build._status build <> FINISHED ->
  BuildStore._reconstruct_build build_id false s = Raise IncompleteBuild.
Proof.
  intros Hfind Hstate.
  unfold BuildStore._reconstruct_build, BuildStore._get_query_build_object.
  rewrite Hfind.
  replace (BuildSchema.completed (build_row build_id build))
    with (BuildState_eqb (Build._status build) FINISHED) by reflexivity.
  destruct (Build._status build); try reflexivity. now destruct Hstate.
Qed.

(** After [_update_build] the view holds the state of the build. *)
Lemma _update_build_stores (build : Build.t) (s : Session.t) (build_id : Z) :
  Build.build_id build = Some build_id ->
  has_row build_id (Session.view s) ->
  stored build_id build (Session.view (snd (BuildStore._update_build build s))).
Proof.
  intros Hid [q Hrow].
  destruct (_update_build_spec build s Hid Hrow) as [_ [Hview _]].
  unfold stored. rewrite Hview. cbn [builds subjobs atoms].
  repeat split.
  - rewrite (@find_update_first_same build_id
               (fun r => build_row (BuildSchema.build_id r) build) _
               (fun r => eq_refl)).
    rewrite Hrow. simpl. apply find_some in Hrow as [_ Hq].
    apply Z.eqb_eq in Hq. now rewrite Hq.
  - apply filter_deleted_then_added, subjob_rows_id.
  - apply filter_deleted_then_added, atom_rows_id.
Qed.

Lemma stored_reads_query (build_id : Z) (build : Build.t) (s1 s2 : Session.t) :
  BuildStore._get_query_build_object build_id s1
  = BuildStore._get_query_build_object build_id s2 ->
  stored build_id build (Session.view s2) -> stored build_id build (Session.view s1).
Proof.
  unfold BuildStore._get_query_build_object, stored.
  intros Hquery [Hfind [Hsubjobs Hatoms]].
  injection Hquery as H1 _ _ H4 H5. now rewrite H1, H4, H5.
Qed.

(** ** save, and what survives a restart *)

(** X8: after [save] of a loadable build whose id has a row, the rows the
    session sees give the build back: reconstruction of its id succeeds
    with the parameters, scalar fields, state, timestamps and subjobs with
    atoms of the build that was saved. *)
Theorem save_then_reconstruct :
  forall (build : Build.t) (st : BuildStore.t) (build_id : Z),
    Build.build_id build = Some build_id ->
    has_row build_id (Session.view (BuildStore._session st)) ->
    loadable build ->
    exists loaded,
      fst (BuildStore.save build st) = Ok tt /\
      BuildStore._reconstruct_build build_id true
        (BuildStore._session (snd (BuildStore.save build st))) = Ok (Some loaded) /\
      restores build_id build loaded.
Proof.
  intros build st build_id Hid Hrow Hloadable. rewrite save_session.
  cbn [fst snd BuildStore._session].
  destruct (@reconstruct_of_stored build build_id true
              (snd (BuildStore._update_build build (BuildStore._session st)))
              (_update_build_stores build _ Hid Hrow) Hloadable (or_introl eq_refl))
    as [loaded [Hload Hrestores]].
  exists loaded. repeat split; try assumption; try apply Hrestores.
  destruct Hrow as [q Hq].
  now apply (_update_build_spec build (BuildStore._session st) Hid Hq).
Qed.

Lemma save_then_reconstruct_witness :
  let build := BuildStore.with_build_id Examples.build_with_artifact 1 in
  exists loaded,
    fst (BuildStore.save build Examples.store_with_artifact) = Ok tt /\
    BuildStore._reconstruct_build 1 true
      (BuildStore._session (snd (BuildStore.save build Examples.store_with_artifact)))
      = Ok (Some loaded) /\
    restores 1 build loaded.
Proof.
  intros build.
  apply (@save_then_reconstruct build Examples.store_with_artifact 1).
  - reflexivity.
  - eexists. reflexivity.
  - split.
    + repeat constructor; simpl; intuition discriminate.
    + intros k sj [H|[H|[]]]; injection H as <- <-; discriminate.
Defined.

Lemma save_leaves_other_builds_witness :
  BuildStore._reconstruct_build 1 true
    (BuildStore._session
       (snd (BuildStore.save (BuildStore.with_build_id Examples.building_build 5)
               Examples.store_of_one)))
  = BuildStore._reconstruct_build 1 true (BuildStore._session Examples.store_of_one).
Proof.
  apply (@save_leaves_other_builds
           (BuildStore.with_build_id Examples.building_build 5)
           Examples.store_of_one 1 true).
  discriminate.
Defined.

(** X9: [save] commits its deletes but not its inserts.  A store reopened
    right after a [save] loads the build with the saved build row and
    without any subjob. *)
Theorem save_then_restart_loses_subjobs :
  forall (build : Build.t) (st : BuildStore.t) (build_id : Z),
    Build.build_id build = Some build_id ->
    has_row build_id (Session.view (BuildStore._session st)) ->
    exists loaded,
      fst (BuildStore.get build_id true
             (BuildStore.restart (snd (BuildStore.save build st))))
        = Ok (Some loaded) /\
      restores build_id (without_subjobs build) loaded /\
      Build._all_subjobs_by_id loaded = [].
Proof.
  intros build st build_id Hid [q Hrow]. rewrite save_session. cbn [snd].
  destruct (_update_build_spec build (BuildStore._session st) Hid Hrow)
    as [_ [_ Hcommitted]].
  assert (Hstored : stored build_id (without_subjobs build)
            (Session.view
               (Session.reopen
                  (snd (BuildStore._update_build build (BuildStore._session st)))))).
  { unfold stored. cbn [Session.view Session.reopen]. rewrite Hcommitted.
    cbn [builds subjobs atoms]. repeat split.
    - rewrite (@find_update_first_same build_id
                 (fun r => build_row (BuildSchema.build_id r) build) _
                 (fun r => eq_refl)).
      rewrite Hrow. simpl. apply find_some in Hrow as [_ Hq].
      apply Z.eqb_eq in Hq. now rewrite Hq.
    - apply filter_deleted.
    - apply filter_deleted. }
  assert (Hloadable : loadable (without_subjobs build))
    by (split; [constructor | intros k sj []]).
  destruct (reconstruct_of_stored _ Hstored Hloadable (or_introl eq_refl))
    as [loaded [Hload Hrestores]].
  exists loaded. split; [|split; [exact Hrestores|]].
  - unfold BuildStore.get, BuildStore.restart, BuildStore.new.
    cbn [BuildStore._cached_builds_by_id BuildStore._session OrderedDict.get].
    now rewrite Hload.
  - destruct Hrestores as (_ & _ & _ & _ & _ & _ & _ & _ & _ & _ & Hsubjobs).
    exact Hsubjobs.
Qed.

Lemma save_then_restart_loses_subjobs_witness :
  let build := BuildStore.with_build_id Examples.building_build 1 in
  exists loaded,
    fst (BuildStore.get 1 true
           (BuildStore.restart (snd (BuildStore.save build Examples.store_of_one))))
      = Ok (Some loaded) /\
    restores 1 (without_subjobs build) loaded /\
    Build._all_subjobs_by_id loaded = [].
Proof.
  intros build.
  apply (@save_then_restart_loses_subjobs build Examples.store_of_one 1).
  - reflexivity.
  - eexists. reflexivity.
Defined.

(** ** clean_up *)

Lemma has_row_after_update (build : Build.t) (s : Session.t) (k : Z) :
  has_row k (Session.view (snd (BuildStore._update_build build s)))
  <-> has_row k (Session.view s).
Proof. now rewrite !has_row_ids, _update_build_keeps_ids. Qed.

Lemma clean_up_loop_next (k : Z) (build : Build.t) (l : OrderedDict.t Build.t)
  (s : Session.t) :
  fst (BuildStore._update_build build s) = Ok tt ->
  BuildStore.clean_up_loop ((k, build) :: l) s
  = BuildStore.clean_up_loop l (snd (BuildStore._update_build build s)).
Proof.
  simpl. destruct (BuildStore._update_build build s) as [r s1]. simpl.
  now intros ->.
Qed.

Lemma clean_up_loop_stops (k : Z) (build : Build.t) (l : OrderedDict.t Build.t)
  (s : Session.t) :
  BuildStore._update_build build s = (Raise ItemNotFoundError, s) ->
  BuildStore.clean_up_loop ((k, build) :: l) s = (Raise ItemNotFoundError, s).
Proof. simpl. now intros ->. Qed.

(** The loop of [clean_up] over builds that all have rows: it succeeds,
    and afterwards the view holds the state of each of them. *)
Lemma clean_up_loop_stores (l : OrderedDict.t Build.t) :
  forall s : Session.t,
    NoDup (OrderedDict.keys l) ->
    cache_has_rows l (Session.view s) ->
    exists s',
      BuildStore.clean_up_loop l s = (Ok tt, s') /\
      (forall k build, In (k, build) l -> stored k build (Session.view s')) /\
      (forall k build, ~ In k (OrderedDict.keys l) ->
         stored k build (Session.view s) -> stored k build (Session.view s')).
Proof.
  induction l as [|[k build] l IH]; intros s Hnodup Hrows.
  - exists s. split; [reflexivity|]. split; [intros ? ? [] | auto].
  - inversion Hnodup as [|? ? Hnotin Hnodup']; subst.
    destruct (Hrows k build (or_introl eq_refl)) as [Hid Hrow].
    pose proof (_update_build_stores build s Hid Hrow) as Hstored.
    destruct Hrow as [q Hq].
    destruct (_update_build_spec build s Hid Hq) as [Hok _].
    destruct (IH (snd (BuildStore._update_build build s)) Hnodup')
      as [s' [Hloop [Hall Hkeep]]].
    { intros k' build' Hin. destruct (Hrows k' build' (or_intror Hin)) as [Hid' Hrow'].
      split; [assumption|]. now apply has_row_after_update. }
    exists s'. rewrite (@clean_up_loop_next k build l s Hok).
    split; [exact Hloop|]. split.
    + intros k' build' [Heq|Hin].
      * injection Heq as <- <-. now apply Hkeep.
      * now apply Hall.
    + intros k' build' Hnot Hst. simpl in Hnot. apply Hkeep; [tauto|].
      apply (@stored_reads_query k' build' _ s); [|assumption].
      apply _update_build_other_id. rewrite Hid. intros Heq.
      injection Heq as ->. tauto.
Qed.

Lemma has_own_row_after_update (build other : Build.t) (s : Session.t) :
  has_own_row other (Session.view (snd (BuildStore._update_build build s)))
  <-> has_own_row other (Session.view s).
Proof.
  unfold has_own_row. split; intros [k [Hk Hrow]]; exists k; split; try assumption;
    now apply (has_row_after_update build s k).
Qed.

(** The loop either updates every build, all of which have a row, or
    stops with [ItemNotFoundError] at one that has none. *)
Lemma clean_up_loop_outcome (l : OrderedDict.t Build.t) :
  forall s : Session.t,
    (fst (BuildStore.clean_up_loop l s) = Ok tt /\
     forall k build, In (k, build) l -> has_own_row build (Session.view s))
    \/ (fst (BuildStore.clean_up_loop l s) = Raise ItemNotFoundError /\
        exists k build, In (k, build) l /\ ~ has_own_row build (Session.view s)).
Proof.
  induction l as [|[k build] l IH]; intros s.
  - left. split; [reflexivity | intros ? ? []].
  - destruct (_update_build_cases build s)
      as [[Hraise Hno]|[build_id [q [Hid [Hrow Hok]]]]].
    + right. rewrite (@clean_up_loop_stops k build l s Hraise). split; [reflexivity|].
      exists k, build. split; [now left|].
      intros [i [Hi Hhas]]. exact (Hno i Hi Hhas).
    + rewrite (@clean_up_loop_next k build l s Hok).
      destruct (IH (snd (BuildStore._update_build build s)))
        as [[Hloop Hall]|[Hloop [k' [build' [Hin Hbad]]]]].
      * left. split; [exact Hloop|]. intros k' build' [Heq|Hin].
        -- injection Heq as <- <-. exists build_id. split; [assumption|].
           exists q. exact Hrow.
        -- apply (has_own_row_after_update build build' s).
           exact (Hall k' build' Hin).
      * right. split; [exact Hloop|]. exists k', build'. split; [now right|].
        intros Hhas. apply Hbad. now apply has_own_row_after_update.
Qed.

Lemma clean_up_outcome (st : BuildStore.t) :
  fst (BuildStore.clean_up st)
  = fst (BuildStore.clean_up_loop (BuildStore._cached_builds_by_id st)
           (BuildStore._session st)).
Proof.
  unfold BuildStore.clean_up.
  destruct (BuildStore.clean_up_loop _ _) as [[[]|e|] s]; reflexivity.
Qed.

(** X12: [clean_up] needs a row for every cached build.  If some cached
    build carries no id, or an id without a build row, [clean_up] raises
    [ItemNotFoundError]; so when it returns, every cached build had a row. *)
Theorem clean_up_raises_without_row :
  forall st : BuildStore.t,
    ((exists k build,
        In (k, build) (BuildStore._cached_builds_by_id st) /\
        ~ has_own_row build (Session.view (BuildStore._session st))) ->
     fst (BuildStore.clean_up st) = Raise ItemNotFoundError) /\
    (fst (BuildStore.clean_up st) = Ok tt ->
     forall k build, In (k, build) (BuildStore._cached_builds_by_id st) ->
                     has_own_row build (Session.view (BuildStore._session st))).
Proof.
  intros st. rewrite clean_up_outcome.
  destruct (clean_up_loop_outcome (BuildStore._cached_builds_by_id st)
              (BuildStore._session st))
    as [[Hok Hall]|[Hraise [k [build [Hin Hbad]]]]].
  - split; [|intros _; exact Hall].
    intros [k [build [Hin Hbad]]]. exfalso. apply Hbad. now apply (Hall k build).
  - split; [intros _; exact Hraise|]. rewrite Hraise. discriminate.
Qed.

(** A store that caches build 1, which has a row, and a build carrying id
    5, which has none. *)
Lemma clean_up_raises_without_row_witness :
  fst (BuildStore.clean_up
         (BuildStore.mk
            [(1, BuildStore.with_build_id Examples.building_build 1);
             (5, BuildStore.with_build_id Examples.building_build 5)]
            (BuildStore._session Examples.store_of_one)))
  = Raise ItemNotFoundError.
Proof.
  apply (@clean_up_raises_without_row
           (BuildStore.mk
              [(1, BuildStore.with_build_id Examples.building_build 1);
               (5, BuildStore.with_build_id Examples.building_build 5)]
              (BuildStore._session Examples.store_of_one))).
  exists 5, (BuildStore.with_build_id Examples.building_build 5).
  split; [right; now left|].
  intros [i [Hi [q Hq]]]. injection Hi as <-. discriminate Hq.
Defined.

(** X13: the shutdown flush.  When the cache has distinct keys and every
    cached build carries its key as id and has a row, [clean_up] succeeds,
    leaves nothing uncommitted, and a store reopened on the database loads
    every loadable cached build as it was in the cache. *)
Theorem clean_up_then_restart :
  forall st : BuildStore.t,
    NoDup (OrderedDict.keys (BuildStore._cached_builds_by_id st)) ->
    cache_has_rows (BuildStore._cached_builds_by_id st)
      (Session.view (BuildStore._session st)) ->
    exists st',
      BuildStore.clean_up st = (Ok tt, st') /\
      Session.committed (BuildStore._session st') = Session.view (BuildStore._session st') /\
      forall k build,
        In (k, build) (BuildStore._cached_builds_by_id st) ->
        loadable build ->
        exists loaded,
          fst (BuildStore.get k true (BuildStore.restart st')) = Ok (Some loaded) /\
          restores k build loaded.
Proof.
  intros [cache s] Hnodup Hrows. simpl in *.
  destruct (@clean_up_loop_stores cache s Hnodup Hrows) as [s' [Hloop [Hall _]]].
  unfold BuildStore.clean_up. simpl. rewrite Hloop.
  eexists. split; [reflexivity|]. split; [reflexivity|].
  intros k build Hin Hloadable.
  destruct (@reconstruct_of_stored build k true
              (Session.reopen (Session.commit s'))
              (Hall k build Hin) Hloadable (or_introl eq_refl))
    as [loaded [Hload Hrestores]].
  exists loaded. split; [|exact Hrestores].
  unfold BuildStore.get, BuildStore.restart, BuildStore.new.
  cbn [BuildStore._cached_builds_by_id BuildStore._session OrderedDict.get].
  now rewrite Hload.
Qed.

Lemma clean_up_then_restart_witness :
  exists st',
    BuildStore.clean_up Examples.store_of_one = (Ok tt, st') /\
    Session.committed (BuildStore._session st') = Session.view (BuildStore._session st') /\
    forall k build,
      In (k, build) (BuildStore._cached_builds_by_id Examples.store_of_one) ->
      loadable build ->
      exists loaded,
        fst (BuildStore.get k true (BuildStore.restart st')) = Ok (Some loaded) /\
        restores k build loaded.
Proof.
  apply (@clean_up_then_restart Examples.store_of_one).
  - repeat constructor. intros [].
  - intros k build [H|[]]. injection H as <- <-. split; [reflexivity|].
    eexists. reflexivity.
Defined.

(** ** add *)

Lemma find_app_not_last {A : Type} (p : A -> bool) (old : list A) (x : A) :
  p x = false -> find p (old ++ [x]) = find p old.
Proof.
  intros Hx. induction old as [|y old IH]; simpl.
  - now rewrite Hx.
  - now destruct (p y).
Qed.

Lemma filter_app_other {A : Type} (p : A -> bool) (old new : list A) :
  (forall x, In x new -> p x = false) -> filter p (old ++ new) = filter p old.
Proof.
  intros Hnew. now rewrite filter_app, (filter_none _ _ Hnew), app_nil_r.
Qed.

Section AddFacts.

Variable build : Build.t.
Variable s : Session.t.

Let build_id := Session.generated_key s.
Let s' := snd (BuildStore._store_build build s).

Lemma other_id_eqb (other k : Z) :
  other <> build_id -> (k =? build_id) = true -> (k =? other) = false.
Proof.
  intros Hne Hk. apply Z.eqb_eq in Hk. apply Z.eqb_neq. congruence.
Qed.

(** What the database answers for any id other than the generated one is
    the same before and after [_store_build]. *)
Lemma _store_build_other_id (other : Z) :
  other <> build_id ->
  BuildStore._get_query_build_object other s'
  = BuildStore._get_query_build_object other s.
Proof.
  intros Hne. subst s'.
  destruct (_store_build_spec build s) as [_ [_ Hview]]. fold build_id in Hview.
  unfold BuildStore._get_query_build_object. rewrite Hview.
  cbn [builds subjobs atoms failed_artifact_directories failed_subjob_atom_pairs].
  rewrite find_app_not_last
    by (apply (@other_id_eqb other _ Hne); apply Z.eqb_refl).
  rewrite !filter_app_other; try reflexivity;
    intros r Hr; apply (@other_id_eqb other _ Hne);
    first [ now apply (subjob_rows_id build_id build)
          | now apply (atom_rows_id build_id build)
          | now apply (failed_pair_rows_id build_id build)
          | now apply (failed_directory_rows_id build_id build) ].
Qed.

(** The build row [_store_build] wrote is the one found under the new id. *)
Lemma _store_build_row :
  find (fun r => BuildSchema.build_id r =? build_id) (builds (Session.committed s'))
  = Some (build_row build_id build).
Proof.
  subst s'. destruct (_store_build_spec build s) as [_ [Hcommitted _]].
  fold build_id in Hcommitted. rewrite Hcommitted. cbn [builds].
  apply find_app_last; [|apply Z.eqb_refl].
  intros r Hr. apply Z.eqb_neq.
  pose proof (generated_key_fresh s r Hr). fold build_id in H. lia.
Qed.

(** On a database with referential integrity, what [_store_build]
    committed holds the state of the build under the new id. *)
Lemma _store_build_stores :
  referential_integrity (Session.view s) ->
  stored build_id build (Session.committed s').
Proof.
  intros [_ [_ [Hsubjobs Hatoms]]]. split; [apply _store_build_row|].
  subst s'. destruct (_store_build_spec build s) as [_ [Hcommitted _]].
  fold build_id in Hcommitted. rewrite Hcommitted. cbn [subjobs atoms].
  pose proof (generated_key_fresh s) as Hfresh. fold build_id in Hfresh.
  split.
  - apply filter_old_then_added; [|apply subjob_rows_id].
    intros r Hr. apply Z.eqb_neq. destruct (Hsubjobs r Hr) as [q [Hq Heq]].
    specialize (Hfresh q Hq). lia.
  - apply filter_old_then_added; [|apply atom_rows_id].
    intros r Hr. apply Z.eqb_neq. destruct (Hatoms r Hr) as [q [Hq Heq]].
    specialize (Hfresh q Hq). lia.
Qed.

End AddFacts.

(** X5: adding a build leaves what a reconstruction of any id other than
    the newly generated one yields as it was. *)
Theorem add_leaves_other_builds :
  forall (build : Build.t) (st : BuildStore.t) (other : Z) (allow : bool),
    other <> Session.generated_key (BuildStore._session st) ->
    BuildStore._reconstruct_build other allow
      (BuildStore._session (snd (BuildStore.add build st)))
    = BuildStore._reconstruct_build other allow (BuildStore._session st).
Proof.
  intros build st other allow Hother. rewrite add_spec. cbn [snd BuildStore._session].
  apply _reconstruct_build_reads_query. now apply _store_build_other_id.
Qed.

Lemma add_leaves_other_builds_witness :
  BuildStore._reconstruct_build 1 true
    (BuildStore._session
       (snd (BuildStore.add Examples.build_with_empty_subjob Examples.store_of_one)))
  = BuildStore._reconstruct_build 1 true (BuildStore._session Examples.store_of_one).
Proof.
  apply (@add_leaves_other_builds Examples.build_with_empty_subjob
           Examples.store_of_one 1 true).
  discriminate.
Defined.

(** ** Referential integrity is kept *)

Lemma referential_integrity_ids (db : Database) :
  referential_integrity db <->
  (forall r, In r (failed_artifact_directories db) ->
     In (FailedArtifactDirectoriesSchema.build_id r) (map BuildSchema.build_id (builds db))) /\
  (forall r, In r (failed_subjob_atom_pairs db) ->
     In (FailedSubjobAtomPairsSchema.build_id r) (map BuildSchema.build_id (builds db))) /\
  (forall r, In r (subjobs db) ->
     In (SubjobsSchema.build_id r) (map BuildSchema.build_id (builds db))) /\
  (forall r, In r (atoms db) ->
     In (AtomsSchema.build_id r) (map BuildSchema.build_id (builds db))).
Proof.
  unfold referential_integrity.
  split; intros (H1 & H2 & H3 & H4); repeat split; intros r Hr;
    first [ specialize (H1 r Hr); revert H1
          | specialize (H2 r Hr); revert H2
          | specialize (H3 r Hr); revert H3
          | specialize (H4 r Hr); revert H4 ];
    rewrite in_map_iff; intros [q Hq]; exists q; tauto.
Qed.

(** Child rows of an id that has a build row, added to child rows that
    all have one: each row of the result has one. *)
Lemma rows_have_ids {A : Type} (id_of : A -> Z) (ids : list Z) (build_id : Z)
  (old new : list A) :
  In build_id ids ->
  (forall r, In r old -> In (id_of r) ids) ->
  (forall r, In r new -> (id_of r =? build_id) = true) ->
  forall r, In r (old ++ new) -> In (id_of r) ids.
Proof.
  intros Hid Hold Hnew r Hr. apply in_app_or in Hr as [Hr|Hr].
  - now apply Hold.
  - apply Hnew in Hr. apply Z.eqb_eq in Hr. now rewrite Hr.
Qed.

Lemma kept_rows_have_ids {A : Type} (id_of : A -> Z) (ids : list Z) (p : A -> bool)
  (old : list A) :
  (forall r, In r old -> In (id_of r) ids) ->
  forall r, In r (filter p old) -> In (id_of r) ids.
Proof. intros Hold r Hr. apply filter_In in Hr as [Hr _]. now apply Hold. Qed.

(** X7: [add] keeps referential integrity: if every child row the session
    sees belongs to a build row, the same holds after [add]. *)
Theorem add_keeps_referential_integrity :
  forall (build : Build.t) (st : BuildStore.t),
    referential_integrity (Session.view (BuildStore._session st)) ->
    referential_integrity
      (Session.view (BuildStore._session (snd (BuildStore.add build st)))).
Proof.
  intros build st Hri. rewrite add_spec. cbn [snd BuildStore._session].
  destruct (_store_build_spec build (BuildStore._session st)) as [_ [_ Hview]].
  rewrite Hview. apply referential_integrity_ids in Hri as (H1 & H2 & H3 & H4).
  apply referential_integrity_ids.
  cbn [builds subjobs atoms failed_artifact_directories failed_subjob_atom_pairs].
  rewrite map_app. cbn [map].
  assert (Hnew : In (Session.generated_key (BuildStore._session st))
                   (map BuildSchema.build_id
                      (builds (Session.view (BuildStore._session st)))
                    ++ [BuildSchema.build_id
                          (build_row (Session.generated_key (BuildStore._session st))
                             build)]))
    by (apply in_or_app; right; now left).
  repeat split.
  - eapply rows_have_ids;
      [ exact Hnew
      | intros r Hr; apply in_or_app; left; now apply H1
      | apply failed_directory_rows_id ].
  - eapply rows_have_ids;
      [ exact Hnew
      | intros r Hr; apply in_or_app; left; now apply H2
      | apply failed_pair_rows_id ].
  - eapply rows_have_ids;
      [ exact Hnew
      | intros r Hr; apply in_or_app; left; now apply H3
      | apply subjob_rows_id ].
  - eapply rows_have_ids;
      [ exact Hnew
      | intros r Hr; apply in_or_app; left; now apply H4
      | apply atom_rows_id ].
Qed.

Lemma add_keeps_referential_integrity_witness :
  referential_integrity
    (Session.view
       (BuildStore._session
          (snd (BuildStore.add Examples.build_with_artifact Examples.store_of_one)))).
Proof.
  apply (@add_keeps_referential_integrity Examples.build_with_artifact
           Examples.store_of_one).
  apply referential_integrity_ids. vm_compute. intuition (subst; auto).
Defined.

(** X11: [save] keeps referential integrity, whether it updates the build or
    raises. *)
Theorem save_keeps_referential_integrity :
  forall (build : Build.t) (st : BuildStore.t),
    referential_integrity (Session.view (BuildStore._session st)) ->
    referential_integrity
      (Session.view (BuildStore._session (snd (BuildStore.save build st)))).
Proof.
  intros build st Hri. rewrite save_session. cbn [snd BuildStore._session].
  destruct (_update_build_cases build (BuildStore._session st))
    as [[Hraise _]|[build_id [q [Hid [Hrow _]]]]].
  - now rewrite Hraise.
  - pose proof (_update_build_keeps_ids build (BuildStore._session st)) as Hids.
    destruct (_update_build_spec build (BuildStore._session st) Hid Hrow)
      as [_ [Hview _]].
    apply referential_integrity_ids in Hri as (H1 & H2 & H3 & H4).
    apply referential_integrity_ids. rewrite Hids. rewrite Hview.
    cbn [subjobs atoms failed_artifact_directories failed_subjob_atom_pairs].
    assert (Hhas : In build_id
                     (map BuildSchema.build_id
                        (builds (Session.view (BuildStore._session st)))))
      by (apply has_row_ids; now exists q).
    repeat split.
    + destruct (Build._build_artifact build); [|exact H1].
      eapply rows_have_ids;
        [ exact Hhas | now apply kept_rows_have_ids | apply failed_directory_rows_id ].
    + destruct (Build._build_artifact build); [|exact H2].
      eapply rows_have_ids;
        [ exact Hhas | now apply kept_rows_have_ids | apply failed_pair_rows_id ].
    + eapply rows_have_ids;
        [ exact Hhas | now apply kept_rows_have_ids | apply subjob_rows_id ].
    + eapply rows_have_ids;
        [ exact Hhas | now apply kept_rows_have_ids | apply atom_rows_id ].
Qed.

Lemma save_keeps_referential_integrity_witness :
  referential_integrity
    (Session.view
       (BuildStore._session
          (snd (BuildStore.save (BuildStore.with_build_id Examples.build_with_artifact 1)
                  Examples.store_with_artifact)))).
Proof.
  apply (@save_keeps_referential_integrity
           (BuildStore.with_build_id Examples.build_with_artifact 1)
           Examples.store_with_artifact).
  apply referential_integrity_ids. vm_compute. intuition (subst; auto).
Defined.

(** ** The cache *)

Lemma OrderedDict_get_set_same {V : Type} (k : Z) (v : V) (d : OrderedDict.t V) :
  OrderedDict.get k (OrderedDict.set k v d) = Some v.
Proof.
  induction d as [|[k0 v0] d IH]; simpl.
  - now rewrite Z.eqb_refl.
  - destruct (k =? k0) eqn:E; simpl.
    + now rewrite Z.eqb_refl.
    + now rewrite E.
Qed.

Lemma OrderedDict_get_None {V : Type} (k : Z) (d : OrderedDict.t V) :
  OrderedDict.get k d = None -> ~ In k (OrderedDict.keys d).
Proof.
  induction d as [|[k0 v0] d IH]; simpl; [tauto|].
  destruct (k =? k0) eqn:E; [discriminate|].
  intros Hget [Heq|Hin]; [|now apply IH].
  subst. now rewrite Z.eqb_refl in E.
Qed.

(** X6: a build just added is served from the cache: [get] of the id that
    [add] assigned returns that build, with its id set, for either value of
    the gate, and leaves the store as [add] left it. *)
Theorem add_then_get_same_store :
  forall (build : Build.t) (st : BuildStore.t) (allow : bool),
    let added := fst (BuildStore.add build st) in
    let build_id := Session.generated_key (BuildStore._session st) in
    Build._build_id added = Some build_id /\
    BuildStore.get build_id allow (snd (BuildStore.add build st))
    = (Ok (Some added), snd (BuildStore.add build st)).
Proof.
  intros build st allow. cbv zeta. rewrite add_spec. cbv zeta.
  destruct (_store_build_spec build (BuildStore._session st)) as [Hid _].
  cbn [fst snd]. rewrite Hid. split; [reflexivity|].
  unfold BuildStore.get. cbn [BuildStore._cached_builds_by_id].
  now rewrite OrderedDict_get_set_same.
Qed.

(** X14: once [get] has returned a build, asking again returns the same
    build and changes nothing, whatever the gate says the second time: a
    build loaded with incomplete builds allowed is afterwards returned
    with the gate closed too. *)
Theorem get_again_returns_same :
  forall (build_id : Z) (allow allow' : bool) (st st' : BuildStore.t) (build : Build.t),
    BuildStore.get build_id allow st = (Ok (Some build), st') ->
    BuildStore.get build_id allow' st' = (Ok (Some build), st').
Proof.
  intros build_id allow allow' st st' build Hget.
  unfold BuildStore.get in Hget.
  destruct (OrderedDict.get build_id (BuildStore._cached_builds_by_id st))
    as [cached|] eqn:Hcache.
  - injection Hget as <- <-. unfold BuildStore.get. now rewrite Hcache.
  - destruct (BuildStore._reconstruct_build build_id allow (BuildStore._session st))
      as [[loaded|]|e|]; try discriminate.
    injection Hget as <- <-. unfold BuildStore.get.
    cbn [BuildStore._cached_builds_by_id]. now rewrite OrderedDict_get_set_same.
Qed.

Lemma get_again_returns_same_witness :
  exists build st',
    BuildStore.get 1 true (BuildStore.restart Examples.store_of_one)
      = (Ok (Some build), st') /\
    Build._status build = BUILDING /\
    BuildStore.get 1 false st' = (Ok (Some build), st').
Proof.
  eexists. eexists. split; [reflexivity|]. split; [reflexivity|].
  apply (@get_again_returns_same 1 true false
           (BuildStore.restart Examples.store_of_one)).
  reflexivity.
Defined.

(** X15: a build that [get] reconstructs goes to the end of the cache, after
    the builds already there, and the session is not touched. *)
Theorem get_miss_appends_to_cache :
  forall (build_id : Z) (allow : bool) (st : BuildStore.t) (build : Build.t),
    OrderedDict.get build_id (BuildStore._cached_builds_by_id st) = None ->
    BuildStore._reconstruct_build build_id allow (BuildStore._session st)
      = Ok (Some build) ->
    BuildStore.get build_id allow st
    = (Ok (Some build),
       BuildStore.mk (BuildStore._cached_builds_by_id st ++ [(build_id, build)])
         (BuildStore._session st)) /\
    BuildStore.count_cached_builds (snd (BuildStore.get build_id allow st))
    = BuildStore.count_cached_builds st + 1.
Proof.
  intros build_id allow st build Hmiss Hload.
  rewrite (get_miss _ _ Hmiss), Hload.
  rewrite (@OrderedDict_set_new _ build_id build _
             (@OrderedDict_get_None _ build_id _ Hmiss)).
  split; [reflexivity|].
  unfold BuildStore.count_cached_builds. cbn [snd BuildStore._cached_builds_by_id].
  rewrite length_app. simpl. lia.
Qed.

Lemma get_miss_appends_to_cache_witness :
  exists build,
    BuildStore.get 1 true
      (BuildStore.mk [(7, Examples.building_build)]
         (BuildStore._session Examples.store_of_one))
    = (Ok (Some build),
       BuildStore.mk ([(7, Examples.building_build)] ++ [(1, build)])
         (BuildStore._session Examples.store_of_one)) /\
    BuildStore.count_cached_builds
      (snd (BuildStore.get 1 true
              (BuildStore.mk [(7, Examples.building_build)]
                 (BuildStore._session Examples.store_of_one))))
    = BuildStore.count_cached_builds
        (BuildStore.mk [(7, Examples.building_build)]
           (BuildStore._session Examples.store_of_one)) + 1.
Proof.
  eexists.
  apply (@get_miss_appends_to_cache 1 true
           (BuildStore.mk [(7, Examples.building_build)]
              (BuildStore._session Examples.store_of_one))); reflexivity.
Defined.

(** X16: [get] reads only: the session is the same afterwards, and the
    cache answers as before for every other id. *)
Theorem get_never_writes :
  forall (build_id : Z) (allow : bool) (st : BuildStore.t),
    BuildStore._session (snd (BuildStore.get build_id allow st))
    = BuildStore._session st /\
    forall k, k <> build_id ->
      OrderedDict.get k (BuildStore._cached_builds_by_id
                           (snd (BuildStore.get build_id allow st)))
      = OrderedDict.get k (BuildStore._cached_builds_by_id st).
Proof. intros. apply get_frame. Qed.

(** X20: the number of builds in the database grows by one with [add] and is
    left alone by [save] and by [get]. *)
Theorem count_all_builds_changes_only_with_add :
  forall (build : Build.t) (st : BuildStore.t) (build_id : Z) (allow : bool),
    BuildStore.count_all_builds (snd (BuildStore.add build st))
    = BuildStore.count_all_builds st + 1 /\
    BuildStore.count_all_builds (snd (BuildStore.save build st))
    = BuildStore.count_all_builds st /\
    BuildStore.count_all_builds (snd (BuildStore.get build_id allow st))
    = BuildStore.count_all_builds st.
Proof.
  intros build st build_id allow. unfold BuildStore.count_all_builds. repeat split.
  - rewrite add_spec. cbn [snd BuildStore._session].
    destruct (_store_build_spec build (BuildStore._session st)) as [_ [_ Hview]].
    rewrite Hview. cbn [builds]. rewrite length_app. simpl. lia.
  - rewrite save_session. cbn [snd BuildStore._session].
    rewrite <- (length_map BuildSchema.build_id), _update_build_keeps_ids.
    now rewrite length_map.
  - now rewrite (proj1 (get_frame build_id allow st)).
Qed.

(** ** What the answers of reconstruction and get_range mean *)

Lemma setdefault_append_get_None {V : Type} (k k' : Z) (x : V)
  (d : OrderedDict.t (list V)) :
  OrderedDict.get k (OrderedDict.setdefault_append k' x d) = None ->
  k' <> k /\ OrderedDict.get k d = None.
Proof.
  induction d as [|[k0 xs] d IH]; simpl.
  - destruct (k =? k') eqn:E; [discriminate|].
    intros _. apply Z.eqb_neq in E. split; congruence.
  - destruct (k' =? k0) eqn:E'; simpl.
    + apply Z.eqb_eq in E'. subst k0.
      destruct (k =? k') eqn:E; [discriminate|].
      intros Hget. apply Z.eqb_neq in E. split; [congruence | assumption].
    + destruct (k =? k0); [discriminate | exact IH].
Qed.

(** A subjob id missing from the grouped atoms is the id of no atom row. *)
Lemma grouped_atoms_get_None (k : Z) (rows : list AtomsSchema.t) :
  forall d : OrderedDict.t (list Atom.t),
    OrderedDict.get k
      (fold_left
         (fun d atom =>
            OrderedDict.setdefault_append (AtomsSchema.subjob_id atom)
              (BuildStore.atom_of_row atom) d)
         rows d) = None ->
    OrderedDict.get k d = None /\
    forall a, In a rows -> AtomsSchema.subjob_id a <> k.
Proof.
  induction rows as [|row rows IH]; intros d Hget; simpl in *.
  - split; [assumption | intros a []].
  - apply IH in Hget as [Hget Hrest].
    apply setdefault_append_get_None in Hget as [Hne Hget].
    split; [assumption|]. intros a [<-|Ha]; [assumption | now apply Hrest].
Qed.

(** The subjob loop raises only [KeyError], at a subjob row whose id is
    missing from the grouped atoms. *)
Lemma subjob_loop_raises (build_id : Z)
  (atoms_by_subjob_id : OrderedDict.t (list Atom.t)) (rows : list SubjobsSchema.t) :
  forall acc e,
    foldM
      (fun subjobs subjob =>
         match OrderedDict.get (SubjobsSchema.subjob_id subjob) atoms_by_subjob_id with
         | None => Raise KeyError
         | Some atoms =>
             Ok (OrderedDict.set (SubjobsSchema.subjob_id subjob)
                   {| Subjob._build_id := Some build_id;
                      Subjob._subjob_id := SubjobsSchema.subjob_id subjob;
                      Subjob._atoms := atoms;
                      Subjob.completed := SubjobsSchema.completed subjob |} subjobs)
         end)
      rows acc = Raise e ->
    e = KeyError /\
    exists r, In r rows /\
              OrderedDict.get (SubjobsSchema.subjob_id r) atoms_by_subjob_id = None.
Proof.
  induction rows as [|row rows IH]; intros acc e Hrun; simpl in Hrun; [discriminate|].
  destruct (OrderedDict.get (SubjobsSchema.subjob_id row) atoms_by_subjob_id)
    as [atoms_|] eqn:Hget; simpl in Hrun.
  - apply IH in Hrun as [He [r [Hr Hnone]]]. split; [assumption|].
    exists r. split; [now right | assumption].
  - injection Hrun as <-. split; [reflexivity|]. exists row. split; [now left | assumption].
Qed.

Lemma BuildState_of_name_raises (n : string) (e : exn) :
  BuildState_of_name n = Raise e -> e = KeyError.
Proof.
  unfold BuildState_of_name.
  repeat match goal with
         | |- context [if ?b then _ else _] => destruct b; [discriminate|]
         end.
  now intros [= <-].
Qed.

(** X17: what the answers of [_reconstruct_build] mean.  When it returns
    [None], the id has no build row; when it returns a build, the id has a
    row and the build carries the id; when it raises [IncompleteBuild], the
    gate was closed and the row was stored not completed; when it raises
    [KeyError], the row exists and either its state column is not the name
    of a [BuildState], or some subjob row of the build has no atom row. *)
Theorem reconstruct_build_answers :
  forall (build_id : Z) (allow : bool) (s : Session.t),
    match BuildStore._reconstruct_build build_id allow s with
    | Ok None => ~ has_row build_id (Session.view s)
    | Ok (Some build) =>
        has_row build_id (Session.view s) /\ Build._build_id build = Some build_id
    | Raise IncompleteBuild =>
        allow = false /\
        exists q, find (fun r => BuildSchema.build_id r =? build_id)
                    (builds (Session.view s)) = Some q /\
                  BuildSchema.completed q = false
    | Raise KeyError =>
        exists q,
          find (fun r => BuildSchema.build_id r =? build_id)
            (builds (Session.view s)) = Some q /\
          (BuildState_of_name (BuildSchema.state q) = Raise KeyError \/
           exists r,
             In r (filter (fun r => SubjobsSchema.build_id r =? build_id)
                     (subjobs (Session.view s))) /\
             forall a,
               In a (filter (fun r => AtomsSchema.build_id r =? build_id)
                       (atoms (Session.view s))) ->
               AtomsSchema.subjob_id a <> SubjobsSchema.subjob_id r)
    | _ => True
    end.
Proof.
  intros build_id allow s.
  unfold BuildStore._reconstruct_build, BuildStore._get_query_build_object.
  destruct (find (fun r => BuildSchema.build_id r =? build_id)
              (builds (Session.view s))) as [q|] eqn:Hrow.
  2:{ now apply no_row_find. }
  assert (Hhas : has_row build_id (Session.view s)) by now exists q.
  destruct allow, (BuildSchema.completed q) eqn:Hcompleted; cbn [negb andb];
    try (split; [reflexivity|]; exists q; now split).
  all: destruct (BuildState_of_name (BuildSchema.state q)) as [st|e|] eqn:Hstate;
    cbn [bind];
    [ | pose proof (BuildState_of_name_raises _ Hstate) as He; subst e;
        exists q; split; [reflexivity | now left]
      | exact I ].
  all: match goal with
       | |- context [foldM ?f ?l ?acc] =>
           destruct (foldM f l acc) as [subjobs_|e|] eqn:Hloop
       end;
    cbn [bind];
    [ rewrite place_subjobs_total; cbn [bind]; now split
    | apply subjob_loop_raises in Hloop as [-> [r [Hr Hnone]]];
      exists q; split; [reflexivity|]; right; exists r; split; [assumption|];
      now apply (grouped_atoms_get_None _ _ _ Hnone)
    | exact I ].
Qed.

(** The loop of [get_range]: the session is left alone, a list returned is
    no longer than the ids walked plus what was collected before, and
    [IncompleteBuild] does not leave the loop. *)
Lemma get_range_loop_bounds (allow : bool) (ids : list Z) :
  forall (acc : list (option Build.t)) (st : BuildStore.t),
    BuildStore._session (snd (BuildStore.get_range_loop ids allow acc st))
      = BuildStore._session st /\
    (forall l, fst (BuildStore.get_range_loop ids allow acc st) = Ok l ->
               (length l <= length acc + length ids)%nat) /\
    fst (BuildStore.get_range_loop ids allow acc st) <> Raise IncompleteBuild.
Proof.
  induction ids as [|id ids IH]; intros acc st; simpl.
  - repeat split; [|discriminate]. intros l Hl. injection Hl as <-. lia.
  - pose proof (proj1 (get_frame id allow st)) as Hs.
    destruct (BuildStore.get id allow st) as [[b|e|] st']; simpl in Hs.
    + destruct (IH (acc ++ [b]) st') as (Hs' & Hlen & Hinc).
      split; [congruence|]. split; [|assumption].
      intros l Hl. apply Hlen in Hl. rewrite length_app in Hl. simpl in Hl. lia.
    + destruct (IH acc st') as (Hs' & Hlen & Hinc).
      destruct e; simpl; try (repeat split; [assumption | discriminate | discriminate]).
      split; [congruence|]. split; [|assumption].
      intros l Hl. apply Hlen in Hl. lia.
    + repeat split; [assumption | discriminate | discriminate].
Qed.

(** X19: a list that [get_range] returns has at most [end - start]
    entries (none when [end <= start]); [IncompleteBuild] never leaves
    [get_range]; and [get_range] leaves the session as it was. *)
Theorem get_range_bounds :
  forall (start end_ : Z) (allow : bool) (st : BuildStore.t),
    BuildStore._session (snd (BuildStore.get_range start end_ allow st))
      = BuildStore._session st /\
    (forall l, fst (BuildStore.get_range start end_ allow st) = Ok l ->
               Z.of_nat (length l) <= Z.max 0 (end_ - start)) /\
    fst (BuildStore.get_range start end_ allow st) <> Raise IncompleteBuild.
Proof.
  intros start end_ allow st. unfold BuildStore.get_range.
  destruct (get_range_loop_bounds allow (py_range (start + 1) (end_ + 1)) [] st)
    as (Hs & Hlen & Hinc).
  split; [exact Hs|]. split; [|exact Hinc].
  intros l Hl. apply Hlen in Hl.
  unfold py_range in Hl. rewrite length_map, length_seq in Hl. simpl in Hl. lia.
Qed.

(** Three ids asked of a store whose database holds one unfinished build,
    with the gate closed: the incomplete build is left out. *)
Example get_range_skips_incomplete_build :
  fst (BuildStore.get_range 0 3 false (BuildStore.restart Examples.store_of_one))
  = Ok [None; None].
Proof. reflexivity. Qed.

(** With [end <= start], [get_range] returns the empty list and the store
    is unchanged. *)
Lemma get_range_empty :
  forall (start end_ : Z) (allow : bool) (st : BuildStore.t),
    end_ <= start ->
    BuildStore.get_range start end_ allow st = (Ok [], st).
Proof.
  intros start end_ allow st Hle. unfold BuildStore.get_range, py_range.
  replace (Z.to_nat (end_ + 1 - (start + 1))) with 0%nat by lia.
  reflexivity.
Qed.

Lemma get_range_empty_witness :
  BuildStore.get_range 5 2 false Examples.store_of_one = (Ok [], Examples.store_of_one).
Proof.
  apply (@get_range_empty 5 2 false Examples.store_of_one). lia.
Defined.

(** ** add, restart, get *)

Lemma add_then_get_round_trip_witness :
  exists loaded,
    Build._build_id (fst (BuildStore.add Examples.building_build Examples.empty_store))
      = Some 1 /\
    BuildStore.get 1 true
      (BuildStore.restart (snd (BuildStore.add Examples.building_build Examples.empty_store)))
    = (Ok (Some loaded),
       BuildStore.mk [(1, loaded)]
         (BuildStore._session
            (BuildStore.restart
               (snd (BuildStore.add Examples.building_build Examples.empty_store))))) /\
    Build.build_parameters loaded = Build.build_parameters Examples.building_build /\
    Build._artifacts_tar_file loaded = Build._artifacts_tar_file Examples.building_build /\
    Build._artifacts_zip_file loaded = Build._artifacts_zip_file Examples.building_build /\
    Build._error_message loaded = Build._error_message Examples.building_build /\
    Build._postbuild_tasks_are_finished loaded
      = Build._postbuild_tasks_are_finished Examples.building_build /\
    Build.setup_failures loaded = Build.setup_failures Examples.building_build /\
    Build._timing_file_path loaded = Build._timing_file_path Examples.building_build /\
    Build._status loaded = Build._status Examples.building_build /\
    (forall state,
       BuildFsm._transition_timestamps (Build._state_machine loaded) state
       = BuildFsm._transition_timestamps
           (Build._state_machine Examples.building_build) state) /\
    Build._all_subjobs_by_id loaded
    = restored_subjobs 1 (Build._all_subjobs_by_id Examples.building_build).
Proof.
  apply (@add_then_get_round_trip Examples.building_build Examples.empty_store).
  - repeat split; intros r [].
  - repeat constructor; simpl; intuition discriminate.
  - intros k sj [H|[H|[]]]; injection H as <- <-; discriminate.
Defined.

Lemma get_range_spec_witness :
  fst (BuildStore.get_range 0 1 true (BuildStore.restart Examples.store_of_one)) =
  Ok (flat_map
        (fun id =>
           match fst (BuildStore.get id true (BuildStore.restart Examples.store_of_one)) with
           | Ok b => [b]
           | _ => []
           end) (py_range (0 + 1) (1 + 1))).
Proof.
  apply (@get_range_spec 0 1 true (BuildStore.restart Examples.store_of_one)).
  intros id Hid. assert (id = 1) as -> by lia.
  left. eexists. reflexivity.
Defined.

Lemma reconstruct_gate_open (build_id : Z) (s : Session.t) (q : BuildSchema.t) :
  find (fun r => BuildSchema.build_id r =? build_id) (builds (Session.view s)) = Some q ->
  BuildSchema.completed q = true ->
  BuildStore._reconstruct_build build_id false s
  = BuildStore._reconstruct_build build_id true s.
Proof.
  intros Hrow Hcompleted.
  unfold BuildStore._reconstruct_build, BuildStore._get_query_build_object.
  now rewrite Hrow, Hcompleted.
Qed.

Lemma get_on_restart (build_id : Z) (allow : bool) (st : BuildStore.t) :
  fst (BuildStore.get build_id allow (BuildStore.restart st))
  = BuildStore._reconstruct_build build_id allow (Session.reopen (BuildStore._session st)).
Proof.
  unfold BuildStore.get, BuildStore.restart, BuildStore.new.
  cbn [BuildStore._cached_builds_by_id BuildStore._session OrderedDict.get].
  destruct (BuildStore._reconstruct_build build_id allow
              (Session.reopen (BuildStore._session st))) as [[b|]|e|]; reflexivity.
Qed.

(** X2: the gate after a restart follows the state the build was added in.
    On a database with referential integrity, a loadable build that was
    added is loaded by a reopened store when incomplete builds are
    allowed; with the gate closed the same build is returned if it was
    added [FINISHED], and [IncompleteBuild] is raised otherwise. *)
Theorem add_then_restart_gate :
  forall (build : Build.t) (st : BuildStore.t),
    referential_integrity (Session.view (BuildStore._session st)) ->
    loadable build ->
    let build_id := Session.generated_key (BuildStore._session st) in
    let st' := BuildStore.restart (snd (BuildStore.add build st)) in
    exists loaded,
      restores build_id build loaded /\
      fst (BuildStore.get build_id true st') = Ok (Some loaded) /\
      fst (BuildStore.get build_id false st')
      = if BuildState_eqb (Build._status build) FINISHED
        then Ok (Some loaded) else Raise IncompleteBuild.
Proof.
  intros build st Hri Hloadable build_id st'. subst st'.
  rewrite !get_on_restart, add_spec. cbn [snd BuildStore._session].
  pose proof (_store_build_stores build (BuildStore._session st) Hri) as Hstored.
  fold build_id in Hstored.
  set (s' := Session.reopen (snd (BuildStore._store_build build (BuildStore._session st)))).
  change (Session.committed (snd (BuildStore._store_build build (BuildStore._session st))))
    with (Session.view s') in Hstored.
  destruct (@reconstruct_of_stored build build_id true s' Hstored Hloadable
              (or_introl eq_refl))
    as [loaded [Hload Hrestores]].
  exists loaded. split; [exact Hrestores|]. split; [exact Hload|].
  destruct (BuildState_eqb (Build._status build) FINISHED) eqn:Hstate.
  - rewrite (@reconstruct_gate_open build_id s' _ (proj1 Hstored)); [exact Hload|].
    exact Hstate.
  - apply (@reconstruct_of_stored_unfinished build build_id s' (proj1 Hstored)).
    intros Hfinished. rewrite Hfinished in Hstate. discriminate.
Qed.

Lemma add_then_restart_gate_witness :
  let st' := BuildStore.restart (snd (BuildStore.add Examples.building_build
                                        Examples.empty_store)) in
  exists loaded,
    restores 1 Examples.building_build loaded /\
    fst (BuildStore.get 1 true st') = Ok (Some loaded) /\
    fst (BuildStore.get 1 false st')
    = if BuildState_eqb (Build._status Examples.building_build) FINISHED
      then Ok (Some loaded) else Raise IncompleteBuild.
Proof.
  apply (@add_then_restart_gate Examples.building_build Examples.empty_store).
  - repeat split; intros r [].
  - split.
    + repeat constructor; simpl; intuition discriminate.
    + intros k sj [H|[H|[]]]; injection H as <- <-; discriminate.
Defined.

(** The artifact record and the preparation coin of a reconstructed
    build, read from the rows. *)
Lemma reconstructed_artifact (build_id : Z) (allow : bool) (s : Session.t)
  (loaded : Build.t) :
  BuildStore._reconstruct_build build_id allow s = Ok (Some loaded) ->
  exists q a,
    find (fun r => BuildSchema.build_id r =? build_id) (builds (Session.view s)) = Some q /\
    Build._build_artifact loaded = Some a /\
    BuildArtifact.build_artifact_dir a = BuildSchema.build_artifact_dir q /\
    BuildArtifact._failed_artifact_directories a
    = map FailedArtifactDirectoriesSchema.failed_artifact_directory
        (filter (fun r => FailedArtifactDirectoriesSchema.build_id r =? build_id)
           (failed_artifact_directories (Session.view s))) /\
    BuildArtifact._q_failed_subjob_atom_pairs a
    = map (fun pair => (FailedSubjobAtomPairsSchema.subjob_id pair,
                        FailedSubjobAtomPairsSchema.atom_id pair))
        (filter (fun r => FailedSubjobAtomPairsSchema.build_id r =? build_id)
           (failed_subjob_atom_pairs (Session.view s))) /\
    (BuildSchema.completed q = true -> Build._preparation_coin_spent loaded = true).
Proof.
  intros Hrun.
  unfold BuildStore._reconstruct_build, BuildStore._get_query_build_object in Hrun.
  destruct (find (fun r => BuildSchema.build_id r =? build_id)
              (builds (Session.view s))) as [q|]; [|discriminate].
  destruct (negb allow && negb (BuildSchema.completed q)); [discriminate|].
  destruct (BuildState_of_name (BuildSchema.state q)) as [current| |];
    simpl in Hrun; try discriminate.
  match type of Hrun with
  | bind ?loop _ = _ => destruct loop as [subjobs_| |]
  end; simpl in Hrun; try discriminate.
  rewrite place_subjobs_total in Hrun. simpl in Hrun.
  injection Hrun as <-. exists q. eexists. split; [reflexivity|].
  cbn. repeat split. now intros ->.
Qed.

(** X3: the artifact record after add, restart and get.  The build comes
    back with an artifact record even if it was added without one: its
    directory and its failed directories are those of the build added
    (none, if it had no record), the failed (subjob, atom) pairs come back
    in [_q_failed_subjob_atom_pairs], and a build added [FINISHED] comes
    back with its preparation coin spent. *)
Theorem add_then_get_artifact :
  forall (build : Build.t) (st : BuildStore.t),
    referential_integrity (Session.view (BuildStore._session st)) ->
    loadable build ->
    let build_id := Session.generated_key (BuildStore._session st) in
    let st' := BuildStore.restart (snd (BuildStore.add build st)) in
    exists loaded a,
      fst (BuildStore.get build_id true st') = Ok (Some loaded) /\
      Build._build_artifact loaded = Some a /\
      BuildArtifact.build_artifact_dir a = BuildStore.build_artifact_dir_of build /\
      BuildArtifact._failed_artifact_directories a
      = match Build._build_artifact build with
        | Some a0 => BuildArtifact._get_failed_artifact_directories a0
        | None => []
        end /\
      BuildArtifact._q_failed_subjob_atom_pairs a
      = match Build._build_artifact build with
        | Some a0 => BuildArtifact.get_failed_subjob_and_atom_ids a0
        | None => []
        end /\
      (Build._status build = FINISHED -> Build._preparation_coin_spent loaded = true).
Proof.
  intros build st Hri Hloadable build_id st'. subst st'.
  rewrite get_on_restart, add_spec. cbn [snd BuildStore._session].
  pose proof (_store_build_stores build (BuildStore._session st) Hri) as Hstored.
  fold build_id in Hstored.
  destruct (_store_build_spec build (BuildStore._session st)) as [_ [Hcommitted _]].
  fold build_id in Hcommitted.
  set (s' := Session.reopen (snd (BuildStore._store_build build (BuildStore._session st)))).
  change (Session.committed (snd (BuildStore._store_build build (BuildStore._session st))))
    with (Session.view s') in Hstored, Hcommitted.
  destruct (@reconstruct_of_stored build build_id true s' Hstored Hloadable
              (or_introl eq_refl))
    as [loaded [Hload _]].
  destruct (reconstructed_artifact _ _ _ Hload)
    as [q [a (Hq & Ha & Hdir & Hdirs & Hpairs & Hcoin)]].
  rewrite (proj1 Hstored) in Hq. injection Hq as <-.
  exists loaded, a. split; [exact Hload|]. split; [exact Ha|].
  pose proof (generated_key_fresh (BuildStore._session st)) as Hfresh.
  fold build_id in Hfresh.
  destruct Hri as (Hfad & Hfp & _ & _).
  rewrite Hcommitted in Hdirs, Hpairs.
  cbn [failed_artifact_directories failed_subjob_atom_pairs] in Hdirs, Hpairs.
  rewrite filter_old_then_added in Hdirs;
    [ | intros r Hr; apply Z.eqb_neq; destruct (Hfad r Hr) as [q [Hq Heq]];
        specialize (Hfresh q Hq); lia
      | apply failed_directory_rows_id ].
  rewrite filter_old_then_added in Hpairs;
    [ | intros r Hr; apply Z.eqb_neq; destruct (Hfp r Hr) as [q [Hq Heq]];
        specialize (Hfresh q Hq); lia
      | apply failed_pair_rows_id ].
  repeat split.
  - exact Hdir.
  - rewrite Hdirs. unfold failed_directory_rows.
    destruct (Build._build_artifact build) as [a0|]; [|reflexivity].
    rewrite map_map. simpl. apply map_id.
  - rewrite Hpairs. unfold failed_pair_rows.
    destruct (Build._build_artifact build) as [a0|]; [|reflexivity].
    rewrite map_map.
    rewrite <- (map_id (BuildArtifact.get_failed_subjob_and_atom_ids a0)) at 2.
    apply map_ext. now intros [sid aid].
  - intros Hfinished. apply Hcoin.
    replace (BuildSchema.completed (build_row build_id build))
      with (BuildState_eqb (Build._status build) FINISHED) by reflexivity.
    now rewrite Hfinished.
Qed.

Lemma add_then_get_artifact_witness :
  let build := Examples.build_with_artifact in
  let st' := BuildStore.restart (snd (BuildStore.add build Examples.empty_store)) in
  exists loaded a,
    fst (BuildStore.get 1 true st') = Ok (Some loaded) /\
    Build._build_artifact loaded = Some a /\
    BuildArtifact.build_artifact_dir a = BuildStore.build_artifact_dir_of build /\
    BuildArtifact._failed_artifact_directories a
    = match Build._build_artifact build with
      | Some a0 => BuildArtifact._get_failed_artifact_directories a0
      | None => []
      end /\
    BuildArtifact._q_failed_subjob_atom_pairs a
    = match Build._build_artifact build with
      | Some a0 => BuildArtifact.get_failed_subjob_and_atom_ids a0
      | None => []
      end /\
    (Build._status build = FINISHED -> Build._preparation_coin_spent loaded = true).
Proof.
  apply (@add_then_get_artifact Examples.build_with_artifact Examples.empty_store).
  - repeat split; intros r [].
  - split.
    + repeat constructor; simpl; intuition discriminate.
    + intros k sj [H|[H|[]]]; injection H as <- <-; discriminate.
Defined.

(** X4: the order in which [add] writes.  The build row is inserted and
    committed before any child row; then come the failed directories, the
    failed pairs, and each subjob followed by its atoms; a second commit
    closes the call, after which nothing is left uncommitted. *)
Theorem add_commits_build_row_first :
  forall (build : Build.t) (st : BuildStore.t),
    let build_id := Session.generated_key (BuildStore._session st) in
    let s' := BuildStore._session (snd (BuildStore.add build st)) in
    Session.log s' =
      Session.log (BuildStore._session st)
      ++ [Insert TBuild build_id; Commit]
      ++ map (fun _ => Insert TFailedArtifactDirectories build_id)
           (failed_directory_rows build_id build)
      ++ map (fun _ => Insert TFailedSubjobAtomPairs build_id)
           (failed_pair_rows build_id build)
      ++ subjob_and_atom_inserts build_id build
      ++ [Commit] /\
    Session.committed s' = Session.view s'.
Proof.
  intros build st. cbv zeta. rewrite add_spec. cbn [snd BuildStore._session].
  unfold BuildStore._store_build. cbv zeta.
  rewrite add_subjobs_and_atoms_spec, add_failed_subjob_atom_pairs_spec,
    add_failed_artifact_directories_spec.
  destruct (BuildStore._session st) as [c [b f p sj a] l]. simpl.
  split; [|reflexivity]. now rewrite <- !app_assoc.
Qed.

(** ** A load that fails *)

(** X21: a load that gives no build caches nothing: whenever [get] returns
    [None], raises or blocks, the store afterwards is the store before. *)
Theorem get_without_build_changes_nothing :
  forall (build_id : Z) (allow : bool) (st : BuildStore.t),
    (forall build, fst (BuildStore.get build_id allow st) <> Ok (Some build)) ->
    snd (BuildStore.get build_id allow st) = st.
Proof.
  intros build_id allow st Hnone. unfold BuildStore.get in *.
  destruct (OrderedDict.get build_id (BuildStore._cached_builds_by_id st))
    as [cached|]; [reflexivity|].
  destruct (BuildStore._reconstruct_build build_id allow (BuildStore._session st))
    as [[loaded|]|e|]; try reflexivity.
  exfalso. now apply (Hnone loaded).
Qed.

Lemma get_without_build_changes_nothing_witness :
  snd (BuildStore.get 1 false (BuildStore.restart Examples.store_of_one))
  = BuildStore.restart Examples.store_of_one.
Proof.
  apply (@get_without_build_changes_nothing 1 false
           (BuildStore.restart Examples.store_of_one)).
  intros build. discriminate.
Defined.

(** ** The completed flag *)

Lemma BuildState_finished_name (st : BuildState) :
  BuildState_eqb st FINISHED = String.eqb (BuildState_name st) "FINISHED".
Proof. destruct st; reflexivity. Qed.

Lemma build_row_completed (build_id : Z) (build : Build.t) :
  BuildSchema.completed (build_row build_id build)
  = String.eqb (BuildSchema.state (build_row build_id build)) "FINISHED".
Proof. apply (BuildState_finished_name (Build._status build)). Qed.

Lemma update_first_In (build_id : Z) (f : BuildSchema.t -> BuildSchema.t)
  (rows : list BuildSchema.t) :
  forall q, In q (Session.update_first build_id f rows) ->
            In q rows \/ exists r, In r rows /\ q = f r.
Proof.
  induction rows as [|r rows IH]; intros q Hq; simpl in *; [contradiction|].
  destruct (BuildSchema.build_id r =? build_id); simpl in Hq.
  - destruct Hq as [<-|Hq]; [right; exists r; auto | left; now right].
  - destruct Hq as [<-|Hq]; [left; now left|].
    destruct (IH q Hq) as [Hin|[r' [Hin Heq]]]; [left; now right|].
    right. exists r'. auto.
Qed.

(** X22: the rows the store writes keep [completed] and [state] in step:
    if every build row has [completed] set exactly when its state is
    FINISHED, the same holds after [add] and after [save]. *)
Theorem add_and_save_keep_completed_in_step :
  forall (build : Build.t) (st : BuildStore.t),
    completed_iff_finished (Session.view (BuildStore._session st)) ->
    completed_iff_finished
      (Session.view (BuildStore._session (snd (BuildStore.add build st)))) /\
    completed_iff_finished
      (Session.view (BuildStore._session (snd (BuildStore.save build st)))).
Proof.
  intros build st Hinv. split.
  - rewrite add_spec. cbn [snd BuildStore._session].
    destruct (_store_build_spec build (BuildStore._session st)) as [_ [_ Hview]].
    rewrite Hview. intros q Hq. cbn [builds] in Hq.
    apply in_app_or in Hq as [Hq|[<-|[]]]; [now apply Hinv|].
    apply build_row_completed.
  - rewrite save_session. cbn [snd BuildStore._session].
    destruct (_update_build_cases build (BuildStore._session st))
      as [[Hraise _]|[build_id [q0 [Hid [Hrow _]]]]].
    + now rewrite Hraise.
    + destruct (_update_build_spec build (BuildStore._session st) Hid Hrow)
        as [_ [Hview _]].
      rewrite Hview. intros q Hq. cbn [builds] in Hq.
      apply update_first_In in Hq as [Hq|[r [_ ->]]]; [now apply Hinv|].
      apply build_row_completed.
Qed.

Lemma add_and_save_keep_completed_in_step_witness :
  completed_iff_finished
    (Session.view
       (BuildStore._session
          (snd (BuildStore.add Examples.build_with_artifact Examples.store_of_one)))) /\
  completed_iff_finished
    (Session.view
       (BuildStore._session
          (snd (BuildStore.save Examples.build_with_artifact Examples.store_of_one)))).
Proof.
  apply (@add_and_save_keep_completed_in_step Examples.build_with_artifact
           Examples.store_of_one).
  intros q [<-|[]]. reflexivity.
Defined.
